(** * LIS: live incident status pipeline (LISv4.py)

    A shallow embedding of the ingestion pipeline of [LISv4.py]: the record
    extractor ([extract_xml_data]), the address normaliser
    ([remove_address_numbers]), the unit merge engine ([merge_unit_details]),
    the aggregation pass ([process_xml_files]) and the retention sweeper
    ([cleanup_old_calls]).

    Conventions of the embedding.
    - Python [str] is [string]; only code points below 128 are classified
      (digits, letters, white space), which is what the CAD exports contain.
    - [None] is [None]; a value that may be [None] has an [option] type.
    - A [datetime] is the instant it denotes, an integer number of
      microseconds ([Z]); [timedelta] likewise.  Instants are totally
      ordered: the comparison of an offset-aware with an offset-naive
      value, which Python refuses, is outside the model.
    - A Python [dict] is an association list in insertion order ([odict]).
    - An exception that leaves a function is a constructor of [outcome]. *)

From Stdlib Require Import String Ascii List ZArith Bool Arith Lia.
From Stdlib Require Import Sorted Permutation.
Import ListNotations.

Local Open Scope string_scope.
Local Open Scope list_scope.
Local Open Scope nat_scope.

(** ** Characters and Python string methods *)

Module PyStr.

Definition code (c : ascii) : nat := nat_of_ascii c.

Definition between (lo hi : nat) (c : ascii) : bool :=
  (lo <=? code c) && (code c <=? hi).

(** [0-9] *)
Definition is_digit (c : ascii) : bool := between 48 57 c.
Definition is_upper (c : ascii) : bool := between 65 90 c.
Definition is_lower (c : ascii) : bool := between 97 122 c.
Definition is_alpha (c : ascii) : bool := is_upper c || is_lower c.

(** [str.isspace] below 128: TAB, LF, VT, FF, CR, FS, GS, RS, US, SPACE. *)
Definition is_space (c : ascii) : bool :=
  between 9 13 c || between 28 32 c.

(** [\w] *)
Definition is_word (c : ascii) : bool :=
  is_alpha c || is_digit c || (code c =? 95).

Definition lower_char (c : ascii) : ascii :=
  if is_upper c then ascii_of_nat (code c + 32) else c.

Definition upper_char (c : ascii) : ascii :=
  if is_lower c then ascii_of_nat (code c - 32) else c.

(** [str.lower] *)
Fixpoint lower (s : string) : string :=
  match s with
  | EmptyString => EmptyString
  | String c s' => String (lower_char c) (lower s')
  end.

(** [str.title]: a letter that follows a letter is lower-cased, any other
    letter is upper-cased. *)
Fixpoint title_from (prev_cased : bool) (s : string) : string :=
  match s with
  | EmptyString => EmptyString
  | String c s' =>
      String (if prev_cased then lower_char c else upper_char c)
             (title_from (is_alpha c) s')
  end.

Definition title (s : string) : string := title_from false s.

(** [str.lstrip], [str.rstrip] and [str.strip] without argument *)
Fixpoint lstrip (s : string) : string :=
  match s with
  | EmptyString => EmptyString
  | String c s' => if is_space c then lstrip s' else s
  end.

Fixpoint rstrip (s : string) : string :=
  match s with
  | EmptyString => EmptyString
  | String c s' =>
      match rstrip s' with
      | EmptyString => if is_space c then EmptyString else String c EmptyString
      | r => String c r
      end
  end.

Definition strip (s : string) : string := rstrip (lstrip s).

(** [s.split(sep)] for a one-character separator: never the empty list. *)
Fixpoint split (sep : ascii) (s : string) : list string :=
  match s with
  | EmptyString => [EmptyString]
  | String c s' =>
      if Ascii.eqb c sep then EmptyString :: split sep s'
      else match split sep s' with
           | [] => [String c EmptyString]
           | p :: ps => String c p :: ps
           end
  end.

(** [sep.join(parts)] *)
Fixpoint join (sep : string) (parts : list string) : string :=
  match parts with
  | [] => EmptyString
  | [p] => p
  | p :: ps => (p ++ sep ++ join sep ps)%string
  end.

(** [parts[1:]] *)
Definition drop_first {A} (l : list A) : list A := tl l.

(** [s.endswith(suffix)] *)
Definition endswith (s suffix : string) : bool :=
  let n := String.length s in
  let m := String.length suffix in
  (m <=? n) && String.eqb (substring (n - m) m s) suffix.

(** [needle in haystack] on strings: substring containment. *)
Fixpoint contains (needle haystack : string) : bool :=
  prefix needle haystack
  || match haystack with
     | EmptyString => false
     | String _ h => contains needle h
     end.

(** Truthiness of an optional string: [None] and [""] are false. *)
Definition truthy (o : option string) : bool :=
  match o with
  | Some s => negb (String.eqb s EmptyString)
  | None => false
  end.

(** [x in l] for a list of strings *)
Definition in_list (x : string) (l : list string) : bool :=
  existsb (String.eqb x) l.

End PyStr.

(** ** A backtracking matcher for the patterns of the program

    The module [re] matches by backtracking: alternatives are tried from
    left to right, quantifiers are greedy.  The matcher below is written in
    continuation-passing style and explores the same search tree.  Only the
    constructs that occur in the source are present; every quantifier of
    the source other than [?] ranges over a single character class. *)

Module Re.
Import PyStr.

Inductive regex : Type :=
| Eps
| Class (p : ascii -> bool)
| Lit (c : ascii)
| Seq (r1 r2 : regex)
| Alt (r1 r2 : regex)
| Opt (r : regex)
| Star (p : ascii -> bool)
| Group (n : nat) (r : regex)
| WordB
| Eol.

Definition Plus (p : ascii -> bool) : regex := Seq (Class p) (Star p).

(** A literal word, character by character. *)
Fixpoint lit (w : string) : regex :=
  match w with
  | EmptyString => Eps
  | String c EmptyString => Lit c
  | String c w' => Seq (Lit c) (lit w')
  end.

(** [a|b|c|...] *)
Fixpoint alts (rs : list regex) : regex :=
  match rs with
  | [] => Eps
  | [r] => r
  | r :: rs' => Alt r (alts rs')
  end.

Definition one_of (cs : string) (c : ascii) : bool :=
  existsb (Ascii.eqb c) (list_ascii_of_string cs).

Definition caps := list (nat * string).

Fixpoint group (n : nat) (cs : caps) : option string :=
  match cs with
  | [] => None
  | (m, s) :: cs' => if Nat.eqb m n then Some s else group n cs'
  end.

Section Matcher.

(** [re.IGNORECASE] *)
Variable icase : bool.
(** the subject string *)
Variable s : string.

Definition at_word (pos : nat) : bool :=
  match get pos s with
  | Some c => is_word c
  | None => false
  end.

(** [\b]: exactly one side of the position is a word character. *)
Definition word_boundary (pos : nat) : bool :=
  xorb (match pos with O => false | S p => at_word p end) (at_word pos).

(** [$]: the end, or just before a final line feed. *)
Definition at_eol (pos : nat) : bool :=
  (pos =? String.length s)
  || ((S pos =? String.length s)
      && match get pos s with
         | Some c => code c =? 10
         | None => false
         end).

Definition lit_eq (c d : ascii) : bool :=
  if icase then Ascii.eqb (lower_char c) (lower_char d) else Ascii.eqb c d.

Fixpoint star_run {R} (p : ascii -> bool) (fuel pos : nat) (cs : caps)
    (k : nat -> caps -> option R) : option R :=
  match fuel with
  | O => k pos cs
  | S f =>
      match get pos s with
      | Some c =>
          if p c then
            match star_run p f (S pos) cs k with
            | Some x => Some x
            | None => k pos cs
            end
          else k pos cs
      | None => k pos cs
      end
  end.

Fixpoint rmatch {R} (r : regex) (pos : nat) (cs : caps)
    (k : nat -> caps -> option R) : option R :=
  match r with
  | Eps => k pos cs
  | Class p =>
      match get pos s with
      | Some c => if p c then k (S pos) cs else None
      | None => None
      end
  | Lit d =>
      match get pos s with
      | Some c => if lit_eq c d then k (S pos) cs else None
      | None => None
      end
  | Seq r1 r2 => rmatch r1 pos cs (fun pos' cs' => rmatch r2 pos' cs' k)
  | Alt r1 r2 =>
      match rmatch r1 pos cs k with
      | Some x => Some x
      | None => rmatch r2 pos cs k
      end
  | Opt r1 =>
      match rmatch r1 pos cs k with
      | Some x => Some x
      | None => k pos cs
      end
  | Star p => star_run p (String.length s - pos) pos cs k
  | Group n r1 =>
      rmatch r1 pos cs
        (fun pos' cs' => k pos' ((n, substring pos (pos' - pos) s) :: cs'))
  | WordB => if word_boundary pos then k pos cs else None
  | Eol => if at_eol pos then k pos cs else None
  end.

(** A match starting at [pos]: its end and its groups. *)
Definition match_at (r : regex) (pos : nat) : option (nat * caps) :=
  rmatch r pos [] (fun e cs => Some (e, cs)).

(** [re.search]: the leftmost position with a match. *)
Fixpoint search_from (r : regex) (fuel pos : nat) : option (nat * caps) :=
  match match_at r pos with
  | Some m => Some m
  | None =>
      match fuel with
      | O => None
      | S f => search_from r f (S pos)
      end
  end.

(** [re.sub(r, '', s)]: the text outside the successive leftmost matches.
    An empty match deletes nothing, so the character after it is kept as
    when there is no match. *)
Fixpoint sub_from (r : regex) (fuel pos : nat) : string :=
  match fuel with
  | O => EmptyString
  | S f =>
      match get pos s with
      | None => EmptyString
      | Some c =>
          match match_at r pos with
          | Some (e, _) =>
              if pos <? e then sub_from r f e
              else String c (sub_from r f (S pos))
          | None => String c (sub_from r f (S pos))
          end
      end
  end.

End Matcher.

(** [re.match(r, s)] *)
Definition re_match (icase : bool) (r : regex) (s : string) : option caps :=
  option_map snd (match_at icase s r 0).

(** [re.search(r, s)] *)
Definition re_search (icase : bool) (r : regex) (s : string) : option caps :=
  option_map snd (search_from icase s r (String.length s) 0).

(** [re.sub(r, '', s)] *)
Definition re_sub_empty (icase : bool) (r : regex) (s : string) : string :=
  sub_from icase s r (String.length s) 0.

End Re.

(** ** Numbers and paths *)

Module PyLib.
Import PyStr.

Local Open Scope Z_scope.

Definition digit_value (c : ascii) : Z := Z.of_nat (code c) - 48.

(** The digits of an integer literal: single underscores may separate
    digits. *)
Fixpoint digits_value (acc : Z) (after_digit : bool) (s : string) : option Z :=
  match s with
  | EmptyString => if after_digit then Some acc else None
  | String c s' =>
      if is_digit c then digits_value (acc * 10 + digit_value c) true s'
      else if (code c =? 95)%nat then
             if after_digit then digits_value acc false s' else None
           else None
  end.

(** [int(s)]: surrounding white space, an optional sign, decimal digits.
    [None] stands for [ValueError]. *)
Definition py_int (s : string) : option Z :=
  match strip s with
  | String "+" d => digits_value 0 false d
  | String "-" d => option_map Z.opp (digits_value 0 false d)
  | d => digits_value 0 false d
  end.

Local Close Scope Z_scope.

Definition is_sep (c : ascii) : bool :=
  Ascii.eqb c "/" || Ascii.eqb c "\".

(** [os.path.basename]: the text after the last path separator. *)
Definition has_sep (p : string) : bool :=
  existsb is_sep (list_ascii_of_string p).

Fixpoint basename (p : string) : string :=
  match p with
  | EmptyString => EmptyString
  | String c p' =>
      if has_sep p' then basename p'
      else if is_sep c then p' else p
  end.

(** The text before the last dot, when that dot has a character other than
    a dot before it. *)
Fixpoint splitext_root (seen_other : bool) (s : string) : option string :=
  match s with
  | EmptyString => None
  | String c s' =>
      let is_dot := Ascii.eqb c "." in
      match splitext_root (seen_other || negb is_dot) s' with
      | Some r => Some (String c r)
      | None => if is_dot && seen_other then Some EmptyString else None
      end
  end.

(** [os.path.splitext(name)[0]] for a name without separators *)
Definition splitext0 (name : string) : string :=
  match splitext_root false name with
  | Some r => r
  | None => name
  end.

(** [os.path.join(directory, name)] for a plain file name *)
Definition path_join (directory name : string) : string :=
  match directory with
  | EmptyString => name
  | _ =>
      if existsb (fun sep => endswith directory sep) ["/"; "\"; ":"]
      then (directory ++ name)%string
      else (directory ++ "\" ++ name)%string
  end.

End PyLib.

(** ** The element tree of [xml.etree.ElementTree] *)

Module Xml.

Local Unset Elimination Schemes.
Inductive Element : Type :=
| Elem (tag : string) (text : option string) (children : list Element).
Local Set Elimination Schemes.

Definition tag (e : Element) : string :=
  match e with Elem t _ _ => t end.

Definition text (e : Element) : option string :=
  match e with Elem _ t _ => t end.

Definition children (e : Element) : list Element :=
  match e with Elem _ _ c => c end.

Definition has_tag (t : string) (e : Element) : bool := String.eqb (tag e) t.

(** [e.findall(path)]: the elements reached by following the tags of the
    path through the children, in document order. *)
Fixpoint findall (path : list string) (e : Element) : list Element :=
  match path with
  | [] => [e]
  | t :: path' => flat_map (findall path') (filter (has_tag t) (children e))
  end.

(** [e.find(path)] *)
Definition find (path : list string) (e : Element) : option Element :=
  hd_error (findall path e).

(** [e.findtext(path)]: [None] when no element matches, [""] when
    the first match has no text. *)
Definition findtext (path : list string) (e : Element) : option string :=
  match find path e with
  | Some x => Some (match text x with Some t => t | None => EmptyString end)
  | None => None
  end.

End Xml.

(** ** Exceptions and dictionaries *)

Inductive exn : Type :=
| ValueError
| AttributeError
| TypeError
| KeyError
| IndexError.

Inductive outcome (A : Type) : Type :=
| Return (a : A)
| Raise (e : exn).

Arguments Return {A} a.
Arguments Raise {A} e.

Definition bind {A B} (m : outcome A) (f : A -> outcome B) : outcome B :=
  match m with
  | Return a => f a
  | Raise e => Raise e
  end.

Notation "x <- m ;; k" := (bind m (fun x => k))
  (at level 61, m at next level, right associativity).

(** [o.method()] on a value that may be [None] *)
Definition attr {A} (o : option A) : outcome A :=
  match o with
  | Some a => Return a
  | None => Raise AttributeError
  end.

(** A [dict], in insertion order.  The keys of the program are strings,
    or unit identifiers that may be [None]. *)
Module Dict.

Definition odict (K V : Type) : Type := list (K * V).

Section Ops.

Context {K V : Type}.
Variable eqb : K -> K -> bool.

(** [d.get(k)] *)
Fixpoint get (k : K) (d : odict K V) : option V :=
  match d with
  | [] => None
  | (k', v) :: d' => if eqb k' k then Some v else get k d'
  end.

(** [k in d] *)
Definition mem (k : K) (d : odict K V) : bool :=
  match get k d with Some _ => true | None => false end.

(** [d[k] = v]: an existing key keeps its place. *)
Fixpoint set (k : K) (v : V) (d : odict K V) : odict K V :=
  match d with
  | [] => [(k, v)]
  | (k', v') :: d' =>
      if eqb k' k then (k', v) :: d' else (k', v') :: set k v d'
  end.

(** [del d[k]]: whatever is stored under the key goes. *)
Fixpoint del (k : K) (d : odict K V) : odict K V :=
  match d with
  | [] => []
  | (k', v') :: d' => if eqb k' k then del k d' else (k', v') :: del k d'
  end.

End Ops.

Definition keys {K V} (d : odict K V) : list K := map fst d.
Definition values {K V} (d : odict K V) : list V := map snd d.

End Dict.

(** Dictionaries with string keys *)
Definition sdict (V : Type) : Type := Dict.odict string V.
Definition sget {V} := @Dict.get string V String.eqb.
Definition smem {V} := @Dict.mem string V String.eqb.
Definition sset {V} := @Dict.set string V String.eqb.
Definition sdel {V} := @Dict.del string V String.eqb.

(** ** Data model *)

Import PyStr PyLib Xml.

(** [config.json]: the policy tables.  [excluded_unit_types] is not among
    the keys that [load_config] requires, so it may be absent. *)
Record Config : Type := {
  excluded_units : list string;
  excluded_unit_types : option (list string);
  excluded_call_types : list string;
  (** jurisdiction to the ['agency_type'] entry of its mapping, if any *)
  jurisdiction_company_mapping : sdict (option string);
  xml_directory : string
}.

(** A [datetime]: the instant, in microseconds. *)
Definition datetime : Type := Z.

(** One entry of [unit_details] *)
Record Unit : Type := {
  unit_id : option string;
  unit_type : string;
  clear_time : option datetime;
  arrive_time : option datetime;
  enroute_time : option datetime;
  jurisdiction : option string;
  is_primary : bool
}.

Record AgencyContext : Type := {
  agency_type : string;
  call_type : option string;
  status : option string
}.

(** The ten values that [extract_xml_data] returns for a readable file *)
Record Snapshot : Type := {
  call_number : option string;
  close_datetime : option string;
  agency_contexts : list AgencyContext;
  root : Element;
  location : option string;
  nature_of_call : option string;
  unit_details : list Unit;
  primary_unit : option Unit;
  latitude : option string;
  longitude : option string
}.

(** What [extract_xml_data] returns: the tuple of ten values, or the tuple
    of nine values [None, None, None, None, None, None, [], None, None] of
    its three failure exits. *)
Inductive extracted : Type :=
| Ten (x : Snapshot)
| Nine.

(** [a, b, c, d, e, f, g, h, i, j = extract_xml_data(...)]: unpacking
    nine values into ten names raises [ValueError]. *)
Definition unpack10 (r : extracted) : outcome Snapshot :=
  match r with
  | Ten x => Return x
  | Nine => Raise ValueError
  end.

(** The content of a staged file *)
Inductive file : Type :=
| EmptyFile
| Unparsable
| Document (root : Element).

(** One value of [location_calls] *)
Record CallInfo : Type := {
  call_numbers : list string;
  display_location : string;
  create_date_time : option datetime;
  info_nature_of_call : string;
  info_unit_details : list Unit;
  info_latitude : option string;
  info_longitude : option string
}.

(** A returned call: the group and its ['call_number'] entry *)
Record Call : Type := {
  info : CallInfo;
  joined_call_number : string
}.

Definition set_unit_details (c : CallInfo) (u : list Unit) : CallInfo :=
  {| call_numbers := call_numbers c;
     display_location := display_location c;
     create_date_time := create_date_time c;
     info_nature_of_call := info_nature_of_call c;
     info_unit_details := u;
     info_latitude := info_latitude c;
     info_longitude := info_longitude c |}.

Definition set_arrive (u : Unit) (t : option datetime) : Unit :=
  {| unit_id := unit_id u; unit_type := unit_type u;
     clear_time := clear_time u; arrive_time := t;
     enroute_time := enroute_time u; jurisdiction := jurisdiction u;
     is_primary := is_primary u |}.

Definition set_enroute (u : Unit) (t : option datetime) : Unit :=
  {| unit_id := unit_id u; unit_type := unit_type u;
     clear_time := clear_time u; arrive_time := arrive_time u;
     enroute_time := t; jurisdiction := jurisdiction u;
     is_primary := is_primary u |}.

Definition set_clear (u : Unit) (t : option datetime) : Unit :=
  {| unit_id := unit_id u; unit_type := unit_type u;
     clear_time := t; arrive_time := arrive_time u;
     enroute_time := enroute_time u; jurisdiction := jurisdiction u;
     is_primary := is_primary u |}.

(** ** Address normaliser *)

(** [apt|apartment|suite|ste|unit|#|lot|rear|room|rm] *)
Definition markers : Re.regex :=
  Re.alts (map Re.lit
    ["apt"; "apartment"; "suite"; "ste"; "unit"; "#"; "lot"; "rear";
     "room"; "rm"]).

(** The pattern of [remove_address_numbers]: a number, optionally followed
    by a marker and a second number, or a marker alone. *)
Definition address_pattern : Re.regex :=
  Re.Alt
    (Re.Seq Re.WordB
      (Re.Seq (Re.Plus is_digit)
        (Re.Seq (Re.Star is_space)
          (Re.Seq (Re.Opt markers)
            (Re.Seq (Re.Star is_space)
              (Re.Seq (Re.Star is_digit) Re.WordB))))))
    (Re.Seq Re.WordB (Re.Seq markers Re.WordB)).

Definition remove_address_numbers (address : string) : string :=
  strip (Re.re_sub_empty true address_pattern address).

(** [\s*([-+]?[0-9]*\.?[0-9]+)] after the token [LAT:] or [LON:] *)
Definition coordinate_pattern (token : string) : Re.regex :=
  Re.Seq (Re.lit token)
    (Re.Seq (Re.Star is_space)
      (Re.Group 1
        (Re.Seq (Re.Opt (Re.Class (Re.one_of "-+")))
          (Re.Seq (Re.Star is_digit)
            (Re.Seq (Re.Opt (Re.Lit "."))
              (Re.Plus is_digit)))))).

(** [re.search(...)] and [.group(1)] *)
Definition coordinate (token location : string) : option string :=
  match Re.re_search false (coordinate_pattern token) location with
  | Some cs => Re.group 1 cs
  | None => None
  end.

(** Lines 200-211 of [extract_xml_data]: location, latitude, longitude *)
Definition normalise_location (location : option string)
    : option string * option string * option string :=
  match location with
  | Some loc =>
      if truthy location then
        match coordinate "LAT:" loc, coordinate "LON:" loc with
        | Some lat, Some lon =>
            let stripped := remove_address_numbers loc in
            let location_parts := split "," stripped in
            (Some (strip (join ", " (drop_first location_parts))),
             Some lat, Some lon)
        | _, _ => (location, None, None)
        end
      else (location, None, None)
  | None => (None, None, None)
  end.

(** ** The pipeline *)

Definition namespace : string :=
  "{http://www.newworldsystems.com/Aegis/CAD/Peripheral/CallExport/2011/02}".

(** A tag of the export namespace ([nw:Name]) *)
Definition nw (name : string) : string := (namespace ++ name)%string.

(** The branch of the aggregation pass that drops a file, named after the
    message it logs. *)
Inductive reason : Type :=
| ClosedAtSource
| ExcludedPrimaryUnitType
| ExcludedUnitPresent
| AgencyIsEMS
| AgencyIsPoliceNoFireUnits
| ExcludedCallType.

Inductive decision : Type :=
| Keep
| Drop (r : reason).

(** The flags set by the scan of the units (lines 382-402) *)
Record Scan : Type := {
  fire_units_dispatched : bool;
  ems_units_dispatched : bool;
  police_units_dispatched : bool;
  has_excluded_unit : bool;
  scan_primary_unit : option Unit
}.

(** Lines 382-385 and the [primary_unit] of the extraction: the scan of a
    snapshot starts with no flag set and with the primary unit that the
    extractor found. *)
Definition initial_scan (x : Snapshot) : Scan :=
  {| fire_units_dispatched := false;
     ems_units_dispatched := false;
     police_units_dispatched := false;
     has_excluded_unit := false;
     scan_primary_unit := primary_unit x |}.

(** The local state of a pass together with the registry
    [call_display_times], which is global. *)
Record PassState : Type := {
  location_calls : sdict CallInfo;
  processed_call_numbers : list string;
  latest_call_files : sdict string;
  files_to_delete : list string;
  primary_units : sdict string;
  call_display_times : sdict datetime
}.

(** Lines 333-339: the state in which a pass starts *)
Definition initial_state (registry : sdict datetime) : PassState :=
  {| location_calls := [];
     processed_call_numbers := [];
     latest_call_files := [];
     files_to_delete := [];
     primary_units := [];
     call_display_times := registry |}.

Definition snapshot_call_number (x : Snapshot) : option string :=
  call_number x.

Definition registry_of (st : PassState) : sdict datetime :=
  call_display_times st.

Definition option_string_eqb (a b : option string) : bool :=
  match a, b with
  | Some x, Some y => String.eqb x y
  | None, None => true
  | _, _ => false
  end.

(** [existing_units_dict]: unit identifier (possibly [None]) to unit *)
Definition udict : Type := Dict.odict (option string) Unit.
Definition uget := @Dict.get (option string) Unit option_string_eqb.
Definition uset := @Dict.set (option string) Unit option_string_eqb.

(** [new and (old is None or new > old)] *)
Definition more_recent (new old : option datetime) : bool :=
  match new with
  | Some n =>
      match old with
      | None => true
      | Some o => Z.ltb o n
      end
  | None => false
  end.

(** Lines 272-277: the three conditional assignments on [existing_unit] *)
Definition update_unit (existing_unit new_unit : Unit) : Unit :=
  let u1 :=
    if more_recent (arrive_time new_unit) (arrive_time existing_unit)
    then set_arrive existing_unit (arrive_time new_unit) else existing_unit in
  let u2 :=
    if more_recent (enroute_time new_unit) (enroute_time u1)
    then set_enroute u1 (enroute_time new_unit) else u1 in
  if more_recent (clear_time new_unit) (clear_time u2)
  then set_clear u2 (clear_time new_unit) else u2.

(** [{unit['unit_id']: unit for unit in existing_units}] *)
Definition units_dict (existing_units : list Unit) : udict :=
  fold_left (fun d unit => uset (unit_id unit) unit d) existing_units [].

Definition fire_types : list string :=
  ["engine"; "rescue"; "tanker"; "quint"; "truck"; "lo"; "rit";
   "fire police"; "traffic"; "fire tone"; "chief"].

Definition ems_types : list string :=
  ["micu"; "ambulance"; "intermediate"; "medic"; "ems tone"; "ems page"].

(** [^(\d+)_(\d+)\.xml(?:-\d+\.backup)?$] *)
Definition filename_pattern : Re.regex :=
  Re.Seq (Re.Group 1 (Re.Plus is_digit))
    (Re.Seq (Re.Lit "_")
      (Re.Seq (Re.Group 2 (Re.Plus is_digit))
        (Re.Seq (Re.lit ".xml")
          (Re.Seq
            (Re.Opt (Re.Seq (Re.Lit "-")
                      (Re.Seq (Re.Plus is_digit) (Re.lit ".backup"))))
            Re.Eol)))).

(** [sorted(..., reverse=True)] on keyed items: descending and stable. *)
Fixpoint insert_desc {A} (x : Z * A) (l : list (Z * A)) : list (Z * A) :=
  match l with
  | [] => [x]
  | y :: l' =>
      if Z.leb (fst x) (fst y) then y :: insert_desc x l' else x :: l
  end.

Definition sorted_desc {A} (l : list (Z * A)) : list (Z * A) :=
  fold_left (fun acc x => insert_desc x acc) l [].

(** [timedelta(minutes=1)] *)
Definition minute : Z := 60000000.

Section Pipeline.

(** [config], loaded once *)
Variable config : Config.

(** [fnmatch.fnmatch(name, pattern)] *)
Variable fnmatch : string -> string -> bool.

(** [datetime.strptime(s, "%Y-%m-%d %H:%M:%S%z")], [None] for
    [ValueError] *)
Variable strptime_full : string -> option datetime.

(** [datetime.strptime(f"{today} {s}", "%Y-%m-%d %H:%M:%S %Z")] with
    today's date in US/Eastern, [None] for [ValueError] *)
Variable strptime_today : string -> option datetime.

(** The files under their paths; [None] for a path that does not exist.
    The data lock is held for a whole pass, so the content is fixed. *)
Variable fs : string -> option file.

(** [datetime.now(eastern)] *)
Variable now : datetime.

Definition parse_datetime (date_str : option string) : option datetime :=
  match date_str with
  | Some s =>
      if truthy date_str then
        match strptime_full s with
        | Some t => Some t
        | None => strptime_today s
        end
      else None
  | None => None
  end.

(** Lines 214-220 *)
Definition extract_context (context : Element) : outcome AgencyContext :=
  t <- attr (findtext [nw "AgencyType"] context) ;;
  Return {| agency_type := lower t;
            call_type := findtext [nw "CallType"] context;
            status := findtext [nw "Status"] context |}.

Fixpoint extract_contexts (contexts : list Element)
    : outcome (list AgencyContext) :=
  match contexts with
  | [] => Return []
  | context :: rest =>
      c <- extract_context context ;;
      cs <- extract_contexts rest ;;
      Return (c :: cs)
  end.

(** Lines 225-234: the dictionary built for one [Unit] element *)
Definition extract_unit (unit : Element) : outcome Unit :=
  let primary :=
    match findtext [nw "IsPrimary"] unit with
    | Some v => String.eqb v "true"
    | None => false
    end in
  ty <- attr (findtext [nw "Type"] unit) ;;
  Return {| unit_id := findtext [nw "UnitNumber"] unit;
            unit_type := title ty;
            clear_time := parse_datetime (findtext [nw "ClearDateTime"] unit);
            arrive_time := parse_datetime (findtext [nw "ArriveDateTime"] unit);
            enroute_time := parse_datetime (findtext [nw "EnrouteDateTime"] unit);
            jurisdiction := findtext [nw "Jurisdiction"] unit;
            is_primary := primary |}.

(** [unit_type.lower() not in config['excluded_units']] *)
Definition type_allowed (u : Unit) : bool :=
  negb (in_list (lower (unit_type u)) (excluded_units config)).

(** Lines 224-239: the loop over the [Unit] elements *)
Fixpoint extract_units (units : list Element) (unit_details : list Unit)
    (primary_unit : option Unit) : outcome (list Unit * option Unit) :=
  match units with
  | [] => Return (unit_details, primary_unit)
  | unit :: rest =>
      unit_detail <- extract_unit unit ;;
      let primary_unit :=
        if is_primary unit_detail then Some unit_detail else primary_unit in
      let unit_details :=
        if type_allowed unit_detail then unit_details ++ [unit_detail]
        else unit_details in
      extract_units rest unit_details primary_unit
  end.

(** Lines 195-241: the body of the [try] once the file is parsed *)
Definition extract_document (root : Element) : outcome Snapshot :=
  let call_number := findtext [nw "CallNumber"] root in
  let close_datetime := findtext [nw "CloseDateTime"] root in
  let location := findtext [nw "Location"; nw "FullAddress"] root in
  let nature_of_call :=
    findtext [nw "AgencyContexts"; nw "AgencyContext"; nw "CallType"] root in
  let '(location, latitude, longitude) := normalise_location location in
  agency_contexts <-
    extract_contexts (findall [nw "AgencyContexts"; nw "AgencyContext"] root) ;;
  r <- extract_units (findall [nw "AssignedUnits"; nw "Unit"] root) [] None ;;
  Return {| call_number := call_number;
            close_datetime := close_datetime;
            agency_contexts := agency_contexts;
            root := root;
            location := location;
            nature_of_call := nature_of_call;
            unit_details := fst r;
            primary_unit := snd r;
            latitude := latitude;
            longitude := longitude |}.

(** [extract_xml_data(file_path)].  [os.path.getsize] raises [OSError]
    for a path that does not exist, [ET.parse] raises [ParseError]; these
    and every exception of the body end in the tuple of nine values. *)
Definition extract_xml_data (file_path : string) : extracted :=
  match fs file_path with
  | None => Nine
  | Some EmptyFile => Nine
  | Some Unparsable => Nine
  | Some (Document root) =>
      match extract_document root with
      | Return x => Ten x
      | Raise _ => Nine
      end
  end.

(** Lines 268-281: the body of the loop of [merge_unit_details] *)
Definition merge_step (existing_units_dict : udict) (new_unit : Unit)
    : udict :=
  match uget (unit_id new_unit) existing_units_dict with
  | Some existing_unit =>
      uset (unit_id new_unit) (update_unit existing_unit new_unit)
           existing_units_dict
  | None =>
      if type_allowed new_unit
      then uset (unit_id new_unit) new_unit existing_units_dict
      else existing_units_dict
  end.

Definition merge_unit_details (existing_units new_units : list Unit)
    : list Unit :=
  Dict.values (fold_left merge_step new_units (units_dict existing_units)).

Definition is_excluded_unit (unit_id : string) (excluded : list string)
    : bool :=
  existsb (fun pattern => fnmatch (lower unit_id) (lower pattern)) excluded.

(** *** The aggregation pass *)

(** Lines 341-345: the first loop, which collects the closed calls *)
Fixpoint closed_calls (xml_files : list string)
    (closed_call_numbers : list string) : outcome (list string) :=
  match xml_files with
  | [] => Return closed_call_numbers
  | xml_file :: rest =>
      x <- unpack10 (extract_xml_data xml_file) ;;
      closed_calls rest
        (match call_number x with
         | Some cn =>
             if truthy (call_number x) && truthy (close_datetime x)
             then cn :: closed_call_numbers
             else closed_call_numbers
         | None => closed_call_numbers
         end)
  end.

(** Lines 388-402: the body of the loop over [unit_details] *)
Definition scan_unit (s : Scan) (unit : Unit) : outcome Scan :=
  let ty := lower (unit_type unit) in
  id <- attr (unit_id unit) ;;
  let fire := in_list ty fire_types in
  let ems := negb fire && in_list ty ems_types in
  let police := negb fire && negb ems && String.eqb ty "police officer" in
  Return
    {| fire_units_dispatched := fire_units_dispatched s || fire;
       ems_units_dispatched := ems_units_dispatched s || ems;
       police_units_dispatched := police_units_dispatched s || police;
       has_excluded_unit :=
         has_excluded_unit s
         || is_excluded_unit (lower id) (excluded_units config);
       scan_primary_unit :=
         if is_primary unit then Some unit else scan_primary_unit s |}.

Fixpoint scan_units (units : list Unit) (s : Scan) : outcome Scan :=
  match units with
  | [] => Return s
  | unit :: rest => s' <- scan_unit s unit ;; scan_units rest s'
  end.

(** [jurisdiction_company_mapping.get(jurisdiction, {}).get('agency_type', '')] *)
Definition agency_of (jurisdiction : option string) : string :=
  match jurisdiction with
  | Some j =>
      match sget j (jurisdiction_company_mapping config) with
      | Some (Some a) => a
      | _ => EmptyString
      end
  | None => EmptyString
  end.

(** [config['excluded_unit_types']] *)
Definition excluded_unit_types_table : outcome (list string) :=
  match excluded_unit_types config with
  | Some l => Return l
  | None => Raise KeyError
  end.

(** Lines 417-440: the checks, in the order of the source *)
Definition checks (primary_units : sdict string) (cn : string)
    (x : Snapshot) (s : Scan) : outcome decision :=
  excluded_primary <-
    match scan_primary_unit s with
    | Some pu =>
        types <- excluded_unit_types_table ;;
        Return (in_list (lower (unit_type pu)) types)
    | None => Return false
    end ;;
  if excluded_primary then Return (Drop ExcludedPrimaryUnitType)
  else if has_excluded_unit s then Return (Drop ExcludedUnitPresent)
  else if option_string_eqb (sget cn primary_units) (Some "EMS")
  then Return (Drop AgencyIsEMS)
  else if option_string_eqb (sget cn primary_units) (Some "Police")
          && negb (fire_units_dispatched s)
  then Return (Drop AgencyIsPoliceNoFireUnits)
  else
    noc <- attr (nature_of_call x) ;;
    if in_list (lower noc) (excluded_call_types config)
    then Return (Drop ExcludedCallType)
    else Return Keep.

(** Lines 382-440: the scan, the resolution of the primary unit's agency
    and the checks.  The first component is [primary_units] as the code
    leaves it, also when an exception is raised afterwards. *)
Definition classify (primary_units : sdict string) (cn : string)
    (x : Snapshot) : sdict string * outcome decision :=
  match scan_units (unit_details x) (initial_scan x) with
  | Raise e => (primary_units, Raise e)
  | Return s =>
      match scan_primary_unit s with
      | Some pu =>
          let agency_type := agency_of (jurisdiction pu) in
          let s' :=
            {| fire_units_dispatched := fire_units_dispatched s;
               ems_units_dispatched :=
                 ems_units_dispatched s || String.eqb agency_type "EMS";
               police_units_dispatched :=
                 police_units_dispatched s
                 || (negb (String.eqb agency_type "EMS")
                     && String.eqb agency_type "Police");
               has_excluded_unit := has_excluded_unit s;
               scan_primary_unit := scan_primary_unit s |} in
          let primary_units := sset cn agency_type primary_units in
          (primary_units,
           (* the log line of 415 evaluates [nature_of_call.lower()] *)
           _ <- attr (nature_of_call x) ;;
           checks primary_units cn x s')
      | None => (primary_units, checks primary_units cn x s)
      end
  end.

(** [display_location] of lines 445-448 *)
Definition display_of (location : string) (latitude longitude : option string)
    : string :=
  let location_without_numbers := remove_address_numbers location in
  match latitude, longitude with
  | Some lat, Some lon =>
      if truthy latitude && truthy longitude
      then (location_without_numbers ++ ", LAT: " ++ lat ++ ", LON: " ++ lon)%string
      else location_without_numbers
  | _, _ => location_without_numbers
  end.

(** Lines 442-473: the file is kept. *)
Definition keep_call (st : PassState) (cn : string) (x : Snapshot)
    : outcome PassState :=
  let created :=
    match find [nw "CreateDateTime"] (root x) with
    | Some elem => parse_datetime (text elem)
    | None => None
    end in
  (* [re.sub] on [None] raises [TypeError] *)
  location <- match location x with
              | Some l => Return l
              | None => Raise TypeError
              end ;;
  noc <- attr (nature_of_call x) ;;
  let location_calls' :=
    match sget location (location_calls st) with
    | Some g =>
        sset location
          {| call_numbers :=
               if in_list cn (call_numbers g) then call_numbers g
               else call_numbers g ++ [cn];
             display_location := display_location g;
             create_date_time := create_date_time g;
             info_nature_of_call :=
               if contains noc (info_nature_of_call g)
               then info_nature_of_call g
               else (info_nature_of_call g ++ ", " ++ noc)%string;
             info_unit_details :=
               merge_unit_details (info_unit_details g) (unit_details x);
             info_latitude := info_latitude g;
             info_longitude := info_longitude g |}
          (location_calls st)
    | None =>
        sset location
          {| call_numbers := [cn];
             display_location :=
               display_of location (latitude x) (longitude x);
             create_date_time := created;
             info_nature_of_call := noc;
             info_unit_details := unit_details x;
             info_latitude := latitude x;
             info_longitude := longitude x |}
          (location_calls st)
    end in
  Return
    {| location_calls := location_calls';
       processed_call_numbers := processed_call_numbers st;
       latest_call_files := latest_call_files st;
       files_to_delete := files_to_delete st;
       primary_units := primary_units st;
       call_display_times :=
         if smem cn (call_display_times st) then call_display_times st
         else sset cn now (call_display_times st) |}.

Definition mark_for_deletion (st : PassState) (xml_file : string)
    : PassState :=
  {| location_calls := location_calls st;
     processed_call_numbers := processed_call_numbers st;
     latest_call_files := latest_call_files st;
     files_to_delete := files_to_delete st ++ [xml_file];
     primary_units := primary_units st;
     call_display_times := call_display_times st |}.

(** Lines 361-365: the call is closed at the source. *)
Definition drop_closed (st : PassState) (cn xml_file : string) : PassState :=
  {| location_calls := location_calls st;
     processed_call_numbers := processed_call_numbers st;
     latest_call_files := latest_call_files st;
     files_to_delete := files_to_delete st ++ [xml_file];
     primary_units := primary_units st;
     call_display_times :=
       if smem cn (call_display_times st)
       then sdel cn (call_display_times st)
       else call_display_times st |}.

(** Lines 376-377 *)
Definition accept_file (st : PassState) (cn xml_file : string) : PassState :=
  {| location_calls := location_calls st;
     processed_call_numbers := cn :: processed_call_numbers st;
     latest_call_files := sset cn xml_file (latest_call_files st);
     files_to_delete := files_to_delete st;
     primary_units := primary_units st;
     call_display_times := call_display_times st |}.

Definition with_primary_units (st : PassState) (pu : sdict string)
    : PassState :=
  {| location_calls := location_calls st;
     processed_call_numbers := processed_call_numbers st;
     latest_call_files := latest_call_files st;
     files_to_delete := files_to_delete st;
     primary_units := pu;
     call_display_times := call_display_times st |}.

(** Lines 379-476: the [try] block.  An exception inside it is logged
    and the loop goes on with the state as it is at that point. *)
Definition try_block (st : PassState) (cn : string) (x : Snapshot)
    (xml_file : string) : PassState :=
  let '(pu, d) := classify (primary_units st) cn x in
  let st := with_primary_units st pu in
  match d with
  | Raise _ => st
  | Return (Drop _) => mark_for_deletion st xml_file
  | Return Keep =>
      match keep_call st cn x with
      | Return st' => st'
      | Raise _ => st
      end
  end.

(** [int(os.path.splitext(os.path.basename(f))[0].split('_')[1])] *)
Definition file_number (f : string) : outcome Z :=
  match nth_error (split "_" (splitext0 (basename f))) 1 with
  | Some n =>
      match py_int n with
      | Some z => Return z
      | None => Raise ValueError
      end
  | None => Raise IndexError
  end.

(** Lines 348-476: the body of the second loop for one file *)
Definition process_file (closed_call_numbers : list string)
    (st : PassState) (xml_file : string) : outcome PassState :=
  match fs xml_file with
  | None => Return st
  | Some _ =>
      match Re.re_match false filename_pattern (basename xml_file) with
      | None => Return st
      | Some groups =>
          x <- unpack10 (extract_xml_data xml_file) ;;
          match call_number x with
          | Some cn =>
              if truthy (call_number x) then
                if in_list cn closed_call_numbers then
                  Return (drop_closed st cn xml_file)
                else
                  current_file_number <-
                    match Re.group 2 groups with
                    | Some timestamp =>
                        match py_int timestamp with
                        | Some z => Return z
                        | None => Raise ValueError
                        end
                    | None => Raise TypeError
                    end ;;
                  previous_file_number <-
                    file_number
                      match sget cn (latest_call_files st) with
                      | Some f => f
                      | None => "0_0.xml"
                      end ;;
                  if in_list cn (processed_call_numbers st) then
                    if Z.ltb previous_file_number current_file_number then
                      match sget cn (latest_call_files st) with
                      | Some latest =>
                          Return
                            (try_block
                               (accept_file (mark_for_deletion st latest)
                                            cn xml_file)
                               cn x xml_file)
                      | None => Raise KeyError
                      end
                    else Return st
                  else
                    Return
                      (try_block (accept_file st cn xml_file) cn x xml_file)
              else Return st
          | None => Return st
          end
      end
  end.

Fixpoint process_files (closed_call_numbers : list string)
    (xml_files : list string) (st : PassState) : outcome PassState :=
  match xml_files with
  | [] => Return st
  | xml_file :: rest =>
      st' <- process_file closed_call_numbers st xml_file ;;
      process_files closed_call_numbers rest st'
  end.

(** Line 479: the filter applied to every group *)
Definition active (unit : Unit) : bool :=
  match clear_time unit with
  | None => type_allowed unit
  | Some _ => false
  end.

Definition filter_units (g : CallInfo) : CallInfo :=
  set_unit_details g (filter active (info_unit_details g)).

(** The sort key of line 481: [int(x['call_numbers'][0])] *)
Definition sort_key (g : CallInfo) : outcome Z :=
  match call_numbers g with
  | first :: _ =>
      match py_int first with
      | Some z => Return z
      | None => Raise ValueError
      end
  | [] => Raise IndexError
  end.

Fixpoint keyed (l : list CallInfo) : outcome (list (Z * CallInfo)) :=
  match l with
  | [] => Return []
  | g :: rest =>
      k <- sort_key g ;;
      ks <- keyed rest ;;
      Return ((k, g) :: ks)
  end.

(** Line 484 *)
Definition finish (g : CallInfo) : Call :=
  {| info := g; joined_call_number := join ", " (call_numbers g) |}.

(** [process_xml_files(xml_files)], started with the registry
    [call_display_times]: the calls, the files to delete and the registry
    as the pass leaves it. *)
Definition process_xml_files (call_display_times : sdict datetime)
    (xml_files : list string)
    : outcome (list Call * list string * sdict datetime) :=
  closed_call_numbers <- closed_calls xml_files [] ;;
  st <- process_files closed_call_numbers xml_files
          (initial_state call_display_times) ;;
  let groups := map filter_units (Dict.values (location_calls st)) in
  ks <- keyed groups ;;
  Return (map finish (map snd (sorted_desc ks)),
          files_to_delete st,
          registry_of st).

(** *** The retention sweeper *)

(** [display_duration]: whole minutes, by floor division *)
Definition display_duration (display_time : datetime) : Z :=
  Z.div (now - display_time) minute.

(** Lines 306-311 *)
Definition to_remove (call_display_times : sdict datetime) : list string :=
  map fst
    (filter (fun entry => Z.ltb 360 (display_duration (snd entry)))
            call_display_times).

Fixpoint remove_name (name : string) (staging : list string) : list string :=
  match staging with
  | [] => []
  | f :: rest =>
      if String.eqb f name then rest else f :: remove_name name rest
  end.

(** Lines 315-321: the scan of the directory listing for one expired
    call.  The result is the directory as the scan leaves it and the
    exception that stopped it, if any. *)
Fixpoint remove_call_files (call_number : string) (listing : list string)
    (staging : list string) : list string * option exn :=
  match listing with
  | [] => (staging, None)
  | xml_file :: rest =>
      if endswith xml_file ".xml" then
        match unpack10
                (extract_xml_data (path_join (xml_directory config) xml_file))
        with
        | Return x =>
            if option_string_eqb (snapshot_call_number x) (Some call_number)
            then remove_call_files call_number rest
                   (remove_name xml_file staging)
            else remove_call_files call_number rest staging
        | Raise e => (staging, Some e)
        end
      else remove_call_files call_number rest staging
  end.

(** Lines 313-323: the loop over [to_remove] inside the [try] *)
Fixpoint expire (calls : list string) (call_display_times : sdict datetime)
    (staging : list string)
    : sdict datetime * list string * option exn :=
  match calls with
  | [] => (call_display_times, staging, None)
  | call_number :: rest =>
      let call_display_times := sdel call_number call_display_times in
      match remove_call_files call_number staging staging with
      | (staging', None) => expire rest call_display_times staging'
      | (staging', Some e) => (call_display_times, staging', Some e)
      end
  end.

(** One turn of the loop of [cleanup_old_calls] on the registry and the
    names in the staging directory: both as the turn leaves them, and the
    exception that the [except] clause logged, if any. *)
Definition cleanup_old_calls (call_display_times : sdict datetime)
    (staging : list string)
    : sdict datetime * list string * option exn :=
  expire (to_remove call_display_times) call_display_times staging.

End Pipeline.

(** ** The loops around the pass

    A directory is a dictionary from the names of its files to their
    content; its order is the order in which [os.listdir] reports the names.
    Each definition below is one turn of a loop.  Listing or copying a file
    can fail in the file system; such a failure is logged and ends the turn,
    and is not part of the model. *)

(** [DeduplicationFilter.filter(record)]: whether the record is let
    through, and [logged_messages] afterwards. *)
Definition dedup_filter (logged_messages : list string) (log_entry : string)
    : bool * list string :=
  if in_list log_entry logged_messages then (false, logged_messages)
  else (true, log_entry :: logged_messages).

(** The filter applied to the records of a run, one after the other: the
    records let through and [logged_messages] at the end. *)
Fixpoint filter_records (logged_messages : list string)
    (records : list string) : list string * list string :=
  match records with
  | [] => ([], logged_messages)
  | record :: rest =>
      let (through, logged) := dedup_filter logged_messages record in
      let (out, final) := filter_records logged rest in
      (if through then record :: out else out, final)
  end.

(** Lines 153-159: one file name of the source directory *)
Definition transfer_file (staging : sdict file) (entry : string * file)
    : sdict file :=
  if endswith (fst entry) ".xml" then
    if smem (fst entry) staging then staging
    else sset (fst entry) (snd entry) staging
  else staging.

(** One turn of [monitor_and_transfer_files] on the source directory and
    the staging directory: the staging directory afterwards. *)
Definition monitor_and_transfer_files (source staging : sdict file)
    : sdict file :=
  fold_left transfer_file source staging.

(** [xs.sort()] on strings: ascending by code points. *)
Fixpoint insert_sorted (x : string) (l : list string) : list string :=
  match l with
  | [] => [x]
  | y :: l' => if String.leb x y then x :: l else y :: insert_sorted x l'
  end.

Definition sort_strings (l : list string) : list string :=
  fold_right insert_sorted [] l.

Section Loops.

Variable config : Config.
Variable fnmatch : string -> string -> bool.
Variable strptime_full strptime_today : string -> option datetime.
Variable now : datetime.

(** [os.path.join(config['xml_directory'], name)] *)
Definition staged_path (name : string) : string :=
  path_join (xml_directory config) name.

(** The file under a path of the staging directory *)
Definition staged_file (staging : sdict file) (path : string) : option file :=
  match List.find (fun e => String.eqb (staged_path (fst e)) path) staging with
  | Some e => Some (snd e)
  | None => None
  end.

(** [os.remove(path)] *)
Definition os_remove (path : string) (staging : sdict file) : sdict file :=
  filter (fun e => negb (String.eqb (staged_path (fst e)) path)) staging.

(** [delete_files(files_to_delete)] *)
Definition delete_files (files_to_delete : list string) (staging : sdict file)
    : sdict file :=
  fold_left
    (fun staging xml_file =>
       match staged_file staging xml_file with
       | Some _ => os_remove xml_file staging
       | None => staging
       end)
    files_to_delete staging.

(** Lines 169-170: the paths of the staged [.xml] files, sorted *)
Definition staged_xml_files (staging : sdict file) : list string :=
  sort_strings
    (map staged_path
       (filter (fun name => endswith name ".xml") (Dict.keys staging))).

(** One turn of [check_for_new_files] on the registry and the staging
    directory: the staging directory afterwards, and the calls handed to
    [render_webpage] with the registry as the pass leaves it.
    [render_webpage] catches what it raises, so the deletion follows
    whenever the pass returns.  When the pass raises, the [except] clause
    logs it and nothing is deleted; [None] then stands for a turn without
    result. *)
Definition check_for_new_files (registry : sdict datetime)
    (staging : sdict file)
    : sdict file * option (list Call * sdict datetime) :=
  match process_xml_files config fnmatch strptime_full strptime_today
          (staged_file staging) now registry (staged_xml_files staging) with
  | Return (calls, files_to_delete, registry') =>
      (delete_files files_to_delete staging, Some (calls, registry'))
  | Raise _ => (staging, None)
  end.

End Loops.

(** ** Concrete exports, used by the examples below *)

Module Examples.

(** A glob matcher for the patterns of the examples: [*], [?] and
    literal characters. *)
Fixpoint glob_from (fuel : nat) (name pattern : string) : bool :=
  match fuel with
  | O => false
  | S f =>
      match pattern with
      | EmptyString =>
          match name with EmptyString => true | _ => false end
      | String "*" p' =>
          glob_from f name p'
          || match name with
             | EmptyString => false
             | String _ n' => glob_from f n' pattern
             end
      | String "?" p' =>
          match name with
          | EmptyString => false
          | String _ n' => glob_from f n' p'
          end
      | String c p' =>
          match name with
          | EmptyString => false
          | String d n' => Ascii.eqb c d && glob_from f n' p'
          end
      end
  end.

Definition glob (name pattern : string) : bool :=
  glob_from (S (String.length name + String.length pattern)) name pattern.

Local Open Scope Z_scope.

Definition field (s : string) (start len : nat) : option Z :=
  digits_value 0 false (substring start len s).

(** Days from 1970-01-01 to a civil date *)
Definition days_from_civil (y m d : Z) : Z :=
  let y' := if m <=? 2 then y - 1 else y in
  let era := y' / 400 in
  let yoe := y' - era * 400 in
  let mp := (m + 9) mod 12 in
  let doy := (153 * mp + 2) / 5 + d - 1 in
  let doe := yoe * 365 + yoe / 4 - yoe / 100 + doy in
  era * 146097 + doe - 719468.

(** The instant of a text of the form [2024-05-01 14:03:22-0400] *)
Definition instant (s : string) : option datetime :=
  match field s 0 4, field s 5 2, field s 8 2,
        field s 11 2, field s 14 2, field s 17 2,
        field s 20 2, field s 22 2 with
  | Some y, Some m, Some d, Some hh, Some mm, Some ss, Some oh, Some om =>
      if (String.length s =? 24)%nat then
        let sign :=
          if String.eqb (substring 19 1 s) "-" then -1 else 1 in
        let local := ((days_from_civil y m d * 24 + hh) * 60 + mm) * 60 + ss in
        Some ((local - sign * (oh * 60 + om) * 60) * 1000000)
      else None
  | _, _, _, _, _, _, _, _ => None
  end.

Local Close Scope Z_scope.

Definition no_time_only (s : string) : option datetime := None.

Definition leaf (name value : string) : Element :=
  Elem (nw name) (Some value) [].

Definition node (name : string) (children : list Element) : Element :=
  Elem (nw name) None children.

(** A [Unit] element with a number, a type, a jurisdiction and a flag *)
Definition unit_elem (number type jurisdiction primary : string)
    (more : list Element) : Element :=
  node "Unit"
    ([leaf "UnitNumber" number; leaf "Type" type;
      leaf "Jurisdiction" jurisdiction; leaf "IsPrimary" primary] ++ more).

(** An export with one agency context *)
Definition export (number address call_type : string)
    (more units : list Element) : Element :=
  node "CallExport"
    ([leaf "CallNumber" number;
      node "Location" [leaf "FullAddress" address];
      node "AgencyContexts"
        [node "AgencyContext"
           [leaf "AgencyType" "Fire"; leaf "CallType" call_type;
            leaf "Status" "Dispatched"]];
      node "AssignedUnits" units;
      leaf "CreateDateTime" "2024-05-01 14:00:00-0400"] ++ more).

Definition cfg : Config :=
  {| excluded_units := ["utility"; "x*"];
     excluded_unit_types := Some ["brush"];
     excluded_call_types := ["test call"];
     jurisdiction_company_mapping :=
       [("Co1", Some "Fire"); ("Med9", Some "EMS"); ("PD", Some "Police")];
     xml_directory := "C:\xml" |}.

(** A file system given by its files *)
Definition files (l : list (string * file)) (path : string) : option file :=
  sget path l.

(** The path of a staged file *)
Definition staged (name : string) : string :=
  path_join (xml_directory cfg) name.

(** Call 100: an engine, primary, on its way *)
Definition engine_call : Element :=
  export "100" "12 Main St" "Structure Fire" []
    [unit_elem "E1" "engine" "Co1" "true" [];
     unit_elem "U5" "Utility" "Co1" "false" []].

(** A later update of call 100: another engine that has cleared, and a
    truck *)
Definition truck_update : Element :=
  export "100" "12 Main St" "Structure Fire" []
    [unit_elem "E2" "engine" "Co1" "true"
       [leaf "ClearDateTime" "2024-05-01 14:03:22-0400"];
     unit_elem "T2" "truck" "Co1" "false" []].

(** Call 100 with a second unit that has no [Type] element *)
Definition untyped_unit_call : Element :=
  export "100" "12 Main St" "Structure Fire" []
    [unit_elem "E1" "engine" "Co1" "true" [];
     node "Unit" [leaf "UnitNumber" "T2"]].

(** Call 100, closed at the source, with a fire engine *)
Definition closed_call : Element :=
  export "100" "12 Main St" "Structure Fire"
    [leaf "CloseDateTime" "2024-05-01 15:00:00-0400"]
    [unit_elem "E1" "engine" "Co1" "true" []].

(** A call whose primary unit has an excluded unit type and whose call
    type is excluded as well *)
Definition brush_test_call : Element :=
  export "100" "12 Main St" "Test Call" []
    [unit_elem "B1" "brush" "Co1" "true" []].

(** A call whose primary unit has a type of [excluded_units] *)
Definition utility_primary_call : Element :=
  export "100" "12 Main St" "Structure Fire" []
    [unit_elem "U5" "utility" "Co1" "true" [];
     unit_elem "E1" "engine" "Co1" "false" []].

(** An export without [CallNumber], [Location] and [AgencyContexts] *)
Definition anonymous_call : Element :=
  node "CallExport"
    [node "AssignedUnits" [unit_elem "E1" "engine" "Co1" "true" []]].

(** The address of the specification *)
Definition spec_address : string :=
  "123 Apt 4 Main St, LAT: 39.1, LON: -77.2".

Definition extract := extract_xml_data cfg instant no_time_only.
Definition pass := process_xml_files cfg glob instant no_time_only.
Definition sweep := cleanup_old_calls cfg instant no_time_only.

Definition empty_snapshot : Snapshot :=
  {| call_number := None; close_datetime := None; agency_contexts := [];
     root := node "CallExport" []; location := None; nature_of_call := None;
     unit_details := []; primary_unit := None;
     latitude := None; longitude := None |}.

(** The snapshot of a document that can be extracted *)
Definition snapshot_of (root : Element) : Snapshot :=
  match extract_document cfg instant no_time_only root with
  | Return x => x
  | Raise _ => empty_snapshot
  end.

(** Two updates of call 100 in the staging directory *)
Definition two_updates : string -> option file :=
  files [(staged "100_1.xml", Document engine_call);
         (staged "100_2.xml", Document truck_update)].

(** The state of a pass over [two_updates] after its first file *)
Definition after_first_file : PassState :=
  match process_file cfg glob instant no_time_only two_updates 5%Z []
          (initial_state []) (staged "100_1.xml") with
  | Return st => st
  | Raise _ => initial_state []
  end.

(** The calls that a pass returned *)
Definition calls_of (r : outcome (list Call * list string * sdict datetime))
    : list Call :=
  match r with
  | Return (calls, _, _) => calls
  | Raise _ => []
  end.

Definition nothing : Call :=
  {| info := {| call_numbers := []; display_location := "";
                create_date_time := None; info_nature_of_call := "";
                info_unit_details := []; info_latitude := None;
                info_longitude := None |};
     joined_call_number := "" |}.

Definition engine_e1 : Unit :=
  {| unit_id := Some "E1"; unit_type := "Engine";
     clear_time := Some 10%Z; arrive_time := None; enroute_time := Some 3%Z;
     jurisdiction := Some "Co1"; is_primary := true |}.

Definition engine_e1_later : Unit :=
  {| unit_id := Some "E1"; unit_type := "Engine";
     clear_time := Some 20%Z; arrive_time := Some 5%Z;
     enroute_time := Some 2%Z;
     jurisdiction := Some "Co1"; is_primary := true |}.

End Examples.

(** ** More exports, for the examples of the further properties *)

Module MoreExamples.

Import Examples.

(** Call 200: a police officer, primary, and no fire unit *)
Definition police_call : Element :=
  export "200" "5 Oak Ave" "Disturbance" []
    [unit_elem "P1" "Police Officer" "PD" "true" []].

(** Call 200 as a fire call with a tanker *)
Definition tanker_call : Element :=
  export "200" "7 Elm St" "Vehicle Fire" []
    [unit_elem "K4" "tanker" "Co1" "true" []].

(** Call 100 at an address with coordinates *)
Definition located_call : Element :=
  export "100" spec_address "Structure Fire" []
    [unit_elem "E1" "engine" "Co1" "true" []].

(** The configuration without the key [excluded_unit_types] *)
Definition cfg_without_unit_types : Config :=
  {| excluded_units := excluded_units cfg;
     excluded_unit_types := None;
     excluded_call_types := excluded_call_types cfg;
     jurisdiction_company_mapping := jurisdiction_company_mapping cfg;
     xml_directory := xml_directory cfg |}.

(** Two calls in the staging directory *)
Definition two_calls : string -> option file :=
  files [(staged "100_1.xml", Document engine_call);
         (staged "200_1.xml", Document tanker_call)].

(** A staging directory as [os.listdir] reports it: the export of a closed
    call, a file that is no export, and the export of an open call *)
Definition directory : sdict file :=
  [("100_1.xml", Document closed_call); ("notes.txt", Unparsable);
   ("200_1.xml", Document tanker_call)].

(** One turn of the processing loop *)
Definition turn := check_for_new_files cfg glob instant no_time_only.

Definition truck_t2 : Unit :=
  {| unit_id := Some "T2"; unit_type := "Truck";
     clear_time := None; arrive_time := None; enroute_time := Some 4%Z;
     jurisdiction := Some "Co1"; is_primary := false |}.

(** The unit that call 100 has as its primary unit *)
Definition engine_of_call_100 : Unit :=
  {| unit_id := Some "E1"; unit_type := "Engine";
     clear_time := None; arrive_time := None; enroute_time := None;
     jurisdiction := Some "Co1"; is_primary := true |}.

(** The result of a pass that returned *)
Definition deleted_of (r : outcome (list Call * list string * sdict datetime))
    : list string :=
  match r with
  | Return (_, del, _) => del
  | Raise _ => []
  end.

Definition registry_after
    (r : outcome (list Call * list string * sdict datetime))
    : sdict datetime :=
  match r with
  | Return (_, _, registry) => registry
  | Raise _ => []
  end.

(** A pass over [two_updates] and a pass over [two_calls] *)
Definition pass_over_two_updates :=
  pass two_updates 5%Z [] [staged "100_1.xml"; staged "100_2.xml"].

Definition pass_over_two_calls :=
  pass two_calls 5%Z [] [staged "100_1.xml"; staged "200_1.xml"].

(** The calls that a turn of the processing loop hands on *)
Definition shown_of (r : sdict file * option (list Call * sdict datetime))
    : list Call :=
  match snd r with
  | Some (calls, _) => calls
  | None => []
  end.

End MoreExamples.

(** * Properties *)

(** ** Dictionaries *)

Section DictFacts.

Context {K V : Type}.
Variable eqb : K -> K -> bool.
Hypothesis eqb_eq : forall a b, eqb a b = true <-> a = b.

Lemma eqb_refl_true (a : K) : eqb a a = true.
Proof. apply eqb_eq; reflexivity. Qed.

Lemma eqb_neq_false (a b : K) : a <> b -> eqb a b = false.
Proof.
  intros H; destruct (eqb a b) eqn:E; [|reflexivity].
  apply eqb_eq in E; contradiction.
Qed.

Lemma get_set_same (k : K) (v : V) (d : Dict.odict K V) :
  Dict.get eqb k (Dict.set eqb k v d) = Some v.
Proof.
  induction d as [|[k' v'] d IH]; simpl.
  - now rewrite eqb_refl_true.
  - destruct (eqb k' k) eqn:E; simpl; rewrite E; auto.
Qed.

Lemma get_set_other (k k' : K) (v : V) (d : Dict.odict K V) :
  k <> k' -> Dict.get eqb k' (Dict.set eqb k v d) = Dict.get eqb k' d.
Proof.
  intros Hne; induction d as [|[k0 v0] d IH]; simpl.
  - rewrite eqb_neq_false; auto.
  - destruct (eqb k0 k) eqn:E; simpl.
    + apply eqb_eq in E; subst k0. rewrite eqb_neq_false; auto.
    + destruct (eqb k0 k'); auto.
Qed.

Lemma get_del_same (k : K) (d : Dict.odict K V) :
  Dict.get eqb k (Dict.del eqb k d) = None.
Proof.
  induction d as [|[k' v'] d IH]; simpl; auto.
  destruct (eqb k' k) eqn:E; simpl; [|rewrite E]; auto.
Qed.

Lemma get_del_other (k k' : K) (d : Dict.odict K V) :
  k <> k' -> Dict.get eqb k' (Dict.del eqb k d) = Dict.get eqb k' d.
Proof.
  intros Hne; induction d as [|[k0 v0] d IH]; simpl; auto.
  destruct (eqb k0 k) eqn:E; simpl.
  - apply eqb_eq in E; subst k0. rewrite eqb_neq_false; auto.
  - destruct (eqb k0 k'); auto.
Qed.

Lemma get_In (k : K) (v : V) (d : Dict.odict K V) :
  Dict.get eqb k d = Some v -> In (k, v) d.
Proof.
  induction d as [|[k' v'] d IH]; simpl; [discriminate|].
  destruct (eqb k' k) eqn:E.
  - apply eqb_eq in E; subst k'. intros H; injection H as ->; auto.
  - auto.
Qed.

Lemma In_get (k : K) (v : V) (d : Dict.odict K V) :
  NoDup (Dict.keys d) -> In (k, v) d -> Dict.get eqb k d = Some v.
Proof.
  induction d as [|[k' v'] d IH]; simpl; [contradiction|].
  intros Hnd [H|H].
  - injection H as -> ->. now rewrite eqb_refl_true.
  - inversion Hnd as [|? ? Hnotin Hnd']; subst.
    destruct (eqb k' k) eqn:E.
    + apply eqb_eq in E; subst k'. exfalso; apply Hnotin.
      apply (in_map fst) in H; exact H.
    + auto.
Qed.

Lemma keys_set (k : K) (v : V) (d : Dict.odict K V) :
  Dict.keys (Dict.set eqb k v d)
  = if Dict.mem eqb k d then Dict.keys d else Dict.keys d ++ [k].
Proof.
  unfold Dict.mem; induction d as [|[k' v'] d IH]; simpl; auto.
  destruct (eqb k' k) eqn:E; simpl; auto.
  rewrite IH. destruct (Dict.get eqb k d); auto.
Qed.

Lemma get_None_keys (k : K) (d : Dict.odict K V) :
  Dict.get eqb k d = None -> ~ In k (Dict.keys d).
Proof.
  induction d as [|[k' v'] d IH]; simpl; auto.
  destruct (eqb k' k) eqn:E; [discriminate|].
  intros H [H1|H1]; [|now apply IH].
  subst k'. rewrite eqb_refl_true in E; discriminate.
Qed.

Lemma NoDup_keys_set (k : K) (v : V) (d : Dict.odict K V) :
  NoDup (Dict.keys d) -> NoDup (Dict.keys (Dict.set eqb k v d)).
Proof.
  intros Hnd; rewrite keys_set; unfold Dict.mem.
  destruct (Dict.get eqb k d) eqn:E; auto.
  apply get_None_keys in E.
  apply NoDup_app; auto.
  - constructor; [simpl; tauto | constructor].
  - intros x Hx [<-|[]]. contradiction.
Qed.

(** The entries after an assignment are the old ones or the new one. *)
Lemma In_set (k k0 : K) (v v0 : V) (d : Dict.odict K V) :
  In (k0, v0) (Dict.set eqb k v d) ->
  (k0 = k /\ v0 = v) \/ In (k0, v0) d.
Proof.
  induction d as [|[k' v'] d IH]; simpl.
  - intros [H|[]]; injection H as <- <-; auto.
  - destruct (eqb k' k) eqn:E; simpl.
    + apply eqb_eq in E; subst k'.
      intros [H|H]; [injection H as <- <-; auto | auto].
    + intros [H|H]; auto. destruct (IH H); auto.
Qed.

End DictFacts.

Lemma option_string_eqb_eq (a b : option string) :
  option_string_eqb a b = true <-> a = b.
Proof.
  destruct a, b; simpl; split; intros H; try discriminate; auto.
  - apply String.eqb_eq in H; now subst.
  - injection H as ->; apply String.eqb_refl.
Qed.

(** ** The unit merge engine *)

Section MergeFacts.

Variable config : Config.

(** Every key of the dictionary is the identifier of its unit, and no key
    occurs twice. *)
Definition keyed_by_id (d : udict) : Prop :=
  NoDup (Dict.keys d) /\ forall k v, In (k, v) d -> unit_id v = k.

Lemma keyed_by_id_nil : keyed_by_id [].
Proof. split; [constructor | intros k v []]. Qed.

Lemma keyed_by_id_set (d : udict) (v : Unit) :
  keyed_by_id d -> keyed_by_id (uset (unit_id v) v d).
Proof.
  intros [Hnd Hk]; split.
  - apply (NoDup_keys_set _ option_string_eqb_eq); exact Hnd.
  - intros k0 v0 Hin.
    destruct (In_set _ option_string_eqb_eq _ _ _ _ _ Hin) as [[-> ->]|H];
      auto.
Qed.

Lemma keyed_by_id_units_dict (l : list Unit) : keyed_by_id (units_dict l).
Proof.
  unfold units_dict.
  assert (G : forall d, keyed_by_id d ->
              keyed_by_id (fold_left (fun d unit => uset (unit_id unit) unit d) l d)).
  { induction l as [|u l IH]; simpl; auto.
    intros d Hd; apply IH, keyed_by_id_set, Hd. }
  apply G, keyed_by_id_nil.
Qed.

Lemma unit_id_update (e n : Unit) : unit_id (update_unit e n) = unit_id e.
Proof.
  unfold update_unit.
  repeat match goal with |- context [if ?b then _ else _] => destruct b end;
    reflexivity.
Qed.

Lemma arrive_update (e n : Unit) :
  arrive_time (update_unit e n)
  = if more_recent (arrive_time n) (arrive_time e)
    then arrive_time n else arrive_time e.
Proof.
  unfold update_unit.
  repeat match goal with |- context [if ?b then _ else _] => destruct b end;
    reflexivity.
Qed.

Lemma enroute_update (e n : Unit) :
  enroute_time (update_unit e n)
  = if more_recent (enroute_time n) (enroute_time e)
    then enroute_time n else enroute_time e.
Proof.
  unfold update_unit.
  destruct (more_recent (arrive_time n) (arrive_time e)); simpl;
  destruct (more_recent (enroute_time n) (enroute_time e)); simpl;
  match goal with |- context [if ?b then _ else _] => destruct b end;
    reflexivity.
Qed.

Lemma clear_update (e n : Unit) :
  clear_time (update_unit e n)
  = if more_recent (clear_time n) (clear_time e)
    then clear_time n else clear_time e.
Proof.
  unfold update_unit.
  destruct (more_recent (arrive_time n) (arrive_time e)); simpl;
  destruct (more_recent (enroute_time n) (enroute_time e)); simpl;
  destruct (more_recent (clear_time n) (clear_time e)); reflexivity.
Qed.

Lemma more_recent_true (new old : option datetime) :
  more_recent new old = true ->
  exists t, new = Some t /\ (old = None \/ exists t0, old = Some t0 /\ (t0 < t)%Z).
Proof.
  destruct new as [t|]; simpl; [|discriminate].
  destruct old as [o|]; intros H; exists t; split; auto.
  right; exists o; split; auto. apply Z.ltb_lt; exact H.
Qed.

(** What the merge guarantees for one timestamp field [F] of the unit
    [u]: the merged value [m] is the existing value [e], or the value of
    an incoming unit with that identifier which is set and, when the
    existing value is set too, strictly later; a value that is set never
    moves backward. *)
Definition field_merged (F : Unit -> option datetime) (u : option string)
    (e m : Unit) (incoming : list Unit) : Prop :=
  (F m = F e
   \/ exists n t, In n incoming /\ unit_id n = u /\ F n = Some t /\ F m = Some t
                  /\ (F e = None \/ exists t0, F e = Some t0 /\ (t0 < t)%Z))
  /\ (forall a, F e = Some a -> exists b, F m = Some b /\ (a <= b)%Z).

Lemma field_merged_refl F u e incoming : field_merged F u e e incoming.
Proof.
  split; [left; reflexivity|].
  intros a Ha; exists a; split; [exact Ha | lia].
Qed.

Lemma field_merged_step F u e m n incoming :
  (forall x y, F (update_unit x y)
               = if more_recent (F y) (F x) then F y else F x) ->
  In n incoming -> unit_id n = u ->
  field_merged F u e m incoming ->
  field_merged F u e (update_unit m n) incoming.
Proof.
  intros HF Hin Hid [Hval Hmono]. unfold field_merged. rewrite HF.
  destruct (more_recent (F n) (F m)) eqn:E; [|split; assumption].
  apply more_recent_true in E. destruct E as [t [Hn Hm]].
  split.
  - right. exists n, t. repeat split; auto.
    destruct (F e) as [a|] eqn:Ee; [right | left; reflexivity].
    exists a; split; [reflexivity|].
    destruct (Hmono a eq_refl) as [b [Hb Hab]].
    destruct Hm as [Hm|[t0 [Hm Hlt]]]; rewrite Hm in Hb; [discriminate|].
    injection Hb as ->. lia.
  - intros a Ha. destruct (Hmono a Ha) as [b [Hb Hab]].
    exists t; split; [exact Hn|].
    destruct Hm as [Hm|[t0 [Hm Hlt]]]; rewrite Hm in Hb; [discriminate|].
    injection Hb as ->. lia.
Qed.

Definition unit_merged (u : option string) (e m : Unit)
    (incoming : list Unit) : Prop :=
  field_merged arrive_time u e m incoming
  /\ field_merged enroute_time u e m incoming
  /\ field_merged clear_time u e m incoming.

(** The invariant of the loop of [merge_unit_details] *)
Definition merge_inv (u : option string) (e : Unit) (incoming : list Unit)
    (d : udict) : Prop :=
  keyed_by_id d /\ exists m, uget u d = Some m /\ unit_merged u e m incoming.

Lemma merge_step_inv u e incoming d n :
  In n incoming -> merge_inv u e incoming d ->
  merge_inv u e incoming (merge_step config d n).
Proof.
  intros Hin [Hk [m [Hm Hu]]]. unfold merge_step.
  destruct (uget (unit_id n) d) as [ex|] eqn:Eg.
  - split.
    + assert (Hex : unit_id ex = unit_id n).
      { apply (proj2 Hk). apply (get_In _ option_string_eqb_eq); exact Eg. }
      replace (unit_id n) with (unit_id (update_unit ex n))
        by (rewrite unit_id_update; exact Hex).
      apply keyed_by_id_set, Hk.
    + destruct (option_string_eqb (unit_id n) u) eqn:E.
      * apply option_string_eqb_eq in E.
        rewrite E in Eg. unfold uget in *. rewrite Hm in Eg.
        injection Eg as <-.
        exists (update_unit m n). split.
        { rewrite E. apply (get_set_same _ option_string_eqb_eq). }
        destruct Hu as [H1 [H2 H3]].
        split; [|split];
          (apply field_merged_step;
           [first [exact arrive_update | exact enroute_update
                  | exact clear_update] | exact Hin | exact E |]);
          assumption.
      * exists m; split; [|exact Hu].
        unfold uset, uget.
        rewrite (get_set_other _ option_string_eqb_eq); [exact Hm|].
        intros Heq; rewrite Heq in E.
        rewrite (proj2 (option_string_eqb_eq u u) eq_refl) in E.
        discriminate.
  - destruct (type_allowed config n).
    + split; [apply keyed_by_id_set, Hk|].
      exists m; split; [|exact Hu].
      unfold uset, uget.
      rewrite (get_set_other _ option_string_eqb_eq); [exact Hm|].
      intros Heq. unfold uget in *. rewrite Heq in Eg. rewrite Hm in Eg.
      discriminate.
    + split; [exact Hk | exists m; auto].
Qed.

Lemma merge_loop_inv u e incoming l d :
  incl l incoming -> merge_inv u e incoming d ->
  merge_inv u e incoming (fold_left (merge_step config) l d).
Proof.
  revert d; induction l as [|n l IH]; simpl; intros d Hl Hd; [exact Hd|].
  apply IH.
  - intros x Hx; apply Hl; right; exact Hx.
  - apply merge_step_inv; [apply Hl; left; reflexivity | exact Hd].
Qed.

Lemma fold_set_present (k : option string) (l : list Unit) (d : udict) :
  (uget k d <> None \/ exists u, In u l /\ unit_id u = k) ->
  uget k (fold_left (fun d unit => uset (unit_id unit) unit d) l d) <> None.
Proof.
  revert d; induction l as [|v l IH]; simpl; intros d.
  - intros [H|[u [[] _]]]; exact H.
  - intros H. apply IH.
    destruct (option_string_eqb (unit_id v) k) eqn:E.
    + left. apply option_string_eqb_eq in E. rewrite <- E.
      unfold uget, uset. rewrite (get_set_same _ option_string_eqb_eq).
      discriminate.
    + assert (Hne : unit_id v <> k).
      { intros Heq. apply option_string_eqb_eq in Heq. congruence. }
      destruct H as [H|[u [[->|Hin] Hu]]].
      * left. unfold uget, uset.
        rewrite (get_set_other _ option_string_eqb_eq); auto.
      * contradiction.
      * right; exists u; auto.
Qed.

Lemma units_dict_present (l : list Unit) (u : Unit) :
  In u l -> exists e, uget (unit_id u) (units_dict l) = Some e.
Proof.
  intros Hin.
  assert (H : uget (unit_id u) (units_dict l) <> None).
  { apply fold_set_present. right; exists u; auto. }
  destruct (uget (unit_id u) (units_dict l)) as [e|]; [eauto | congruence].
Qed.

End MergeFacts.

(** The loop invariant, read off the returned list *)
Lemma merge_unit_details_spec
    (config : Config) (existing incoming : list Unit)
    (u : option string) (e : Unit) :
  uget u (units_dict existing) = Some e ->
  (exists m, In m (merge_unit_details config existing incoming)
             /\ unit_id m = u)
  /\ forall m, In m (merge_unit_details config existing incoming) ->
               unit_id m = u ->
               unit_merged u e m incoming.
Proof.
  intros He.
  assert (Hinv : merge_inv u e incoming
                   (fold_left (merge_step config) incoming
                              (units_dict existing))).
  { apply merge_loop_inv; [apply incl_refl|].
    split; [apply keyed_by_id_units_dict|].
    exists e; split; [exact He|].
    split; [|split]; apply field_merged_refl. }
  destruct Hinv as [[Hnd Hk] [m [Hm Hu]]].
  unfold merge_unit_details, Dict.values. split.
  - exists m. apply (get_In _ option_string_eqb_eq) in Hm.
    split; [|exact (Hk _ _ Hm)].
    apply (in_map snd) in Hm; exact Hm.
  - intros m' Hin Hid.
    apply in_map_iff in Hin. destruct Hin as [[k v] [Hv Hin]].
    simpl in Hv; subst v.
    pose proof (Hk _ _ Hin) as Hk'. rewrite Hid in Hk'. subst k.
    apply (In_get _ option_string_eqb_eq) in Hin; [|exact Hnd].
    unfold uget in Hm. rewrite Hm in Hin. injection Hin as <-. exact Hu.
Qed.


(** The identifiers of the existing units stay in the merged list. *)
Lemma merge_keeps_units (config : Config) (existing incoming : list Unit)
    (u : Unit) :
  In u existing ->
  exists m, In m (merge_unit_details config existing incoming)
            /\ unit_id m = unit_id u.
Proof.
  intros Hin. destruct (units_dict_present existing u Hin) as [e He].
  exact (proj1 (merge_unit_details_spec config existing incoming _ e He)).
Qed.

(** C5.  For every existing and incoming list and every unit identifier
    [u] that [existing] holds (with unit [e]), the merged list has a unit
    for [u], and in every merged unit [m] for [u] each of the three
    timestamps is either the existing one or the value of an incoming unit
    for [u] that is set and, when the existing value is set, strictly
    later; hence a timestamp that is set in [e] is set in [m] and is not
    earlier there. *)
Theorem merge_never_moves_backward
    (config : Config) (existing incoming : list Unit)
    (u : option string) (e : Unit) :
  uget u (units_dict existing) = Some e ->
  (exists m, In m (merge_unit_details config existing incoming)
             /\ unit_id m = u)
  /\ forall m, In m (merge_unit_details config existing incoming) ->
               unit_id m = u ->
               unit_merged u e m incoming.
Proof.
  apply merge_unit_details_spec.
Qed.

(** ** The record extractor *)

Definition has_type (unit : Element) : Prop :=
  findtext [nw "Type"] unit <> None.

Definition has_agency_type (context : Element) : Prop :=
  findtext [nw "AgencyType"] context <> None.

Definition unit_elements (root : Element) : list Element :=
  findall [nw "AssignedUnits"; nw "Unit"] root.

Definition context_elements (root : Element) : list Element :=
  findall [nw "AgencyContexts"; nw "AgencyContext"] root.

Section ExtractFacts.

Variable config : Config.
Variable strptime_full strptime_today : string -> option datetime.

Lemma extract_unit_returns (unit : Element) :
  (exists u, extract_unit strptime_full strptime_today unit = Return u)
  <-> has_type unit.
Proof.
  unfold extract_unit, has_type.
  destruct (findtext [nw "Type"] unit) as [ty|]; simpl; split.
  - intros _; discriminate.
  - intros _; eexists; reflexivity.
  - intros [u H]; discriminate.
  - intros H; contradiction H; reflexivity.
Qed.

Lemma extract_units_returns (units : list Element) (acc : list Unit)
    (p : option Unit) :
  (exists r, extract_units config strptime_full strptime_today units acc p
             = Return r)
  <-> Forall has_type units.
Proof.
  revert acc p; induction units as [|unit rest IH]; intros acc p; simpl.
  - split; [constructor | intros _; eexists; reflexivity].
  - destruct (extract_unit strptime_full strptime_today unit) as [u|e] eqn:E;
      simpl.
    + rewrite IH. split.
      * intros H; constructor; [|exact H].
        apply extract_unit_returns; eexists; exact E.
      * intros H; inversion H; assumption.
    + split.
      * intros [r H]; discriminate.
      * intros H; inversion H as [|? ? Hu _]; subst.
        apply extract_unit_returns in Hu. destruct Hu as [u Hu].
        rewrite Hu in E; discriminate.
Qed.

Lemma extract_contexts_returns (contexts : list Element) :
  (exists r, extract_contexts contexts = Return r)
  <-> Forall has_agency_type contexts.
Proof.
  induction contexts as [|c rest IH]; simpl.
  - split; [constructor | intros _; eexists; reflexivity].
  - unfold extract_context at 1, has_agency_type at 1.
    destruct (findtext [nw "AgencyType"] c) as [t|] eqn:E; simpl.
    + destruct (extract_contexts rest) as [cs|e]; simpl; split.
      * intros _; constructor; [unfold has_agency_type; congruence|].
        apply IH; eexists; reflexivity.
      * intros _; eexists; reflexivity.
      * intros [r H]; discriminate.
      * intros H; inversion H as [|? ? _ Hr]; subst.
        apply IH in Hr; destruct Hr; discriminate.
    + split.
      * intros [r H]; discriminate.
      * intros H; inversion H as [|? ? Hc _]; subst.
        unfold has_agency_type in Hc; congruence.
Qed.

(** The units that the loop appends pass the type filter. *)
Lemma extract_units_allowed (units : list Element) (acc : list Unit)
    (p : option Unit) (r : list Unit * option Unit) :
  extract_units config strptime_full strptime_today units acc p = Return r ->
  Forall (fun u => type_allowed config u = true) acc ->
  Forall (fun u => type_allowed config u = true) (fst r).
Proof.
  revert acc p; induction units as [|unit rest IH]; intros acc p; simpl.
  - intros H; injection H as <-; auto.
  - destruct (extract_unit strptime_full strptime_today unit) as [u|e];
      simpl; [|discriminate].
    intros H Hacc; apply IH in H; auto.
    destruct (type_allowed config u) eqn:E; auto.
    apply Forall_app; split; auto.
Qed.

Lemma extract_document_units (root : Element) (x : Snapshot) :
  extract_document config strptime_full strptime_today root = Return x ->
  Forall (fun u => type_allowed config u = true) (unit_details x).
Proof.
  unfold extract_document.
  destruct (normalise_location _) as [[loc lat] lon].
  destruct (extract_contexts _) as [cs|e]; simpl; [|discriminate].
  destruct (extract_units _ _ _ _ _ _) as [r|e] eqn:E; simpl; [|discriminate].
  intros H; injection H as <-; simpl.
  eapply extract_units_allowed; [exact E | constructor].
Qed.

Lemma extract_document_returns (root : Element) :
  (exists x, extract_document config strptime_full strptime_today root
             = Return x)
  <-> Forall has_agency_type (context_elements root)
      /\ Forall has_type (unit_elements root).
Proof.
  unfold extract_document, context_elements, unit_elements.
  destruct (normalise_location _) as [[loc lat] lon].
  rewrite <- extract_contexts_returns.
  rewrite <- (extract_units_returns _ [] None).
  destruct (extract_contexts _) as [cs|e]; simpl.
  - destruct (extract_units _ _ _ _ _ _) as [r|e]; simpl; split.
    + intros _; split; eexists; reflexivity.
    + intros _; eexists; reflexivity.
    + intros [x H]; discriminate.
    + intros [_ [r H]]; discriminate.
  - split.
    + intros [x H]; discriminate.
    + intros [[r H] _]; discriminate.
Qed.

End ExtractFacts.

(** C2, as amended.  For a file that parses, [extract_xml_data] returns
    the ten values exactly when every [AgencyContext] element has an
    [AgencyType] and every [Unit] element has a [Type]; one unit without
    type fails the whole file.  When it returns them, the call identifier
    and the close timestamp are what the document holds, [None] when the
    element is missing. *)
Theorem extract_returns_iff_typed
    (config : Config) (strptime_full strptime_today : string -> option datetime)
    (fs : string -> option file) (path : string) (root : Element) :
  fs path = Some (Document root) ->
  ((exists x, extract_xml_data config strptime_full strptime_today fs path
              = Ten x)
   <-> Forall has_agency_type (context_elements root)
       /\ Forall has_type (unit_elements root))
  /\ (forall x, extract_xml_data config strptime_full strptime_today fs path
                = Ten x ->
                call_number x = findtext [nw "CallNumber"] root
                /\ close_datetime x = findtext [nw "CloseDateTime"] root).
Proof.
  intros Hfs. unfold extract_xml_data. rewrite Hfs. split.
  - rewrite <- (extract_document_returns config strptime_full strptime_today).
    destruct (extract_document _ _ _ root) as [x|e]; split.
    + intros _; eexists; reflexivity.
    + intros _; eexists; reflexivity.
    + intros [x H]; discriminate.
    + intros [x H]; discriminate.
  - intros x. unfold extract_document.
    destruct (normalise_location _) as [[loc lat] lon].
    destruct (extract_contexts _) as [cs|e]; simpl; [|discriminate].
    destruct (extract_units _ _ _ _ _ _) as [r|e]; simpl; [|discriminate].
    intros H; injection H as <-; simpl; auto.
Qed.

(** C10.  When the primary unit that [extract_xml_data] returns has an
    excluded type, it is not among the returned [unit_details]: the
    primary unit is chosen before the type filter is applied. *)
Theorem primary_unit_outside_unit_details
    (config : Config) (strptime_full strptime_today : string -> option datetime)
    (fs : string -> option file) (path : string) (x : Snapshot) (p : Unit) :
  extract_xml_data config strptime_full strptime_today fs path = Ten x ->
  primary_unit x = Some p ->
  in_list (lower (unit_type p)) (excluded_units config) = true ->
  ~ In p (unit_details x).
Proof.
  unfold extract_xml_data.
  destruct (fs path) as [[| |root]|]; try discriminate.
  destruct (extract_document _ _ _ root) as [y|e] eqn:E; [|discriminate].
  intros H; injection H as ->. intros _ Hex Hin.
  apply extract_document_units in E.
  rewrite Forall_forall in E. apply E in Hin.
  unfold type_allowed in Hin. rewrite Hex in Hin. discriminate.
Qed.

(** ** Classification and filtering *)

(** The primary unit's type is in [excluded_unit_types]. *)
Definition primary_type_excluded (config : Config) (s : Scan) : Prop :=
  exists p types,
    scan_primary_unit s = Some p
    /\ excluded_unit_types config = Some types
    /\ in_list (lower (unit_type p)) types = true.

(** What the decision of [checks] tells, check by check *)
Definition decided_in_order (config : Config) (primary_units : sdict string)
    (cn : string) (x : Snapshot) (s : Scan) (d : decision) : Prop :=
  (primary_type_excluded config s -> d = Drop ExcludedPrimaryUnitType)
  /\ (d = Drop ExcludedCallType ->
      ~ primary_type_excluded config s
      /\ has_excluded_unit s = false
      /\ sget cn primary_units <> Some "EMS"
      /\ (sget cn primary_units = Some "Police" ->
          fire_units_dispatched s = true)
      /\ exists noc, nature_of_call x = Some noc
                     /\ in_list (lower noc) (excluded_call_types config)
                        = true).

Lemma checks_decided (config : Config) (primary_units : sdict string)
    (cn : string) (x : Snapshot) (s : Scan) (d : decision) :
  checks config primary_units cn x s = Return d ->
  decided_in_order config primary_units cn x s d.
Proof.
  unfold checks, excluded_unit_types_table, decided_in_order,
    primary_type_excluded.
  intros Hc.
  assert (Hp : (exists p types,
                  scan_primary_unit s = Some p
                  /\ excluded_unit_types config = Some types
                  /\ in_list (lower (unit_type p)) types = true)
               \/ exists rest,
                    rest = Return d
                    /\ rest
                       = (if has_excluded_unit s
                          then Return (Drop ExcludedUnitPresent)
                          else if option_string_eqb (sget cn primary_units)
                                    (Some "EMS")
                          then Return (Drop AgencyIsEMS)
                          else if option_string_eqb (sget cn primary_units)
                                    (Some "Police")
                                  && negb (fire_units_dispatched s)
                          then Return (Drop AgencyIsPoliceNoFireUnits)
                          else noc <- attr (nature_of_call x) ;;
                               if in_list (lower noc)
                                    (excluded_call_types config)
                               then Return (Drop ExcludedCallType)
                               else Return Keep)
                    /\ ~ exists p types,
                           scan_primary_unit s = Some p
                           /\ excluded_unit_types config = Some types
                           /\ in_list (lower (unit_type p)) types = true).
  { destruct (scan_primary_unit s) as [pu|].
    - destruct (excluded_unit_types config) as [types|]; simpl in Hc;
        [|discriminate].
      destruct (in_list (lower (unit_type pu)) types) eqn:Et.
      + left; exists pu, types; auto.
      + right; eexists; split; [exact Hc|]. split; [reflexivity|].
        intros [p [ty [H1 [H2 H3]]]].
        injection H1 as <-; injection H2 as <-. congruence.
    - simpl in Hc. right; eexists; split; [exact Hc|]. split; [reflexivity|].
      intros [p [ty [H1 _]]]; discriminate. }
  destruct Hp as [Hex|[rest [Hrest [Hdef Hnot]]]].
  - assert (Hd : d = Drop ExcludedPrimaryUnitType).
    { destruct Hex as [p [types [H1 [H2 H3]]]].
      rewrite H1, H2 in Hc. simpl in Hc. rewrite H3 in Hc.
      injection Hc as <-. reflexivity. }
    split; [intros _; exact Hd | intros Hd'; congruence].
  - split; [intros Hex; contradiction|].
    intros ->. split; [exact Hnot|]. subst rest. symmetry in Hdef.
    destruct (has_excluded_unit s); [discriminate|].
    split; [reflexivity|].
    destruct (option_string_eqb (sget cn primary_units) (Some "EMS")) eqn:E1;
      [discriminate|].
    split; [intros Heq; apply option_string_eqb_eq in Heq; congruence|].
    assert (Hpolice : sget cn primary_units = Some "Police" ->
                      fire_units_dispatched s = true).
    { intros Heq. apply option_string_eqb_eq in Heq. rewrite Heq in Hdef.
      destruct (fire_units_dispatched s); [reflexivity | discriminate]. }
    split; [exact Hpolice|].
    destruct (option_string_eqb (sget cn primary_units) (Some "Police")
              && negb (fire_units_dispatched s)); [discriminate|].
    destruct (nature_of_call x) as [noc|]; simpl in Hdef; [|discriminate].
    exists noc; split; [reflexivity|].
    destruct (in_list (lower noc) (excluded_call_types config));
      [reflexivity | discriminate].
Qed.

(** C6.  When the classification of a snapshot ends in a decision, a
    primary unit whose type is excluded gives [Drop ExcludedPrimaryUnitType]
    whatever the call type is, and [Drop ExcludedCallType] is decided only
    when the primary unit's type is not excluded, no unit matches an
    excluded pattern, the agency is not EMS, and the agency is not Police
    without a fire unit. *)
Theorem checks_in_order
    (config : Config) (fnmatch : string -> string -> bool)
    (primary_units : sdict string) (cn : string) (x : Snapshot)
    (primary_units' : sdict string) (d : decision) :
  classify config fnmatch primary_units cn x = (primary_units', Return d) ->
  exists s,
    scan_units config fnmatch (unit_details x) (initial_scan x) = Return s
    /\ (primary_type_excluded config s -> d = Drop ExcludedPrimaryUnitType)
    /\ (d = Drop ExcludedCallType ->
        ~ primary_type_excluded config s
        /\ has_excluded_unit s = false
        /\ sget cn primary_units' <> Some "EMS"
        /\ (sget cn primary_units' = Some "Police" ->
            fire_units_dispatched s = true)
        /\ exists noc, nature_of_call x = Some noc
                       /\ in_list (lower noc) (excluded_call_types config)
                          = true).
Proof.
  unfold classify.
  destruct (scan_units config fnmatch (unit_details x) (initial_scan x))
    as [s|e] eqn:Es; [|intros H; inversion H].
  intros H. exists s. split; [reflexivity|].
  destruct (scan_primary_unit s) as [pu|] eqn:Ep.
  - injection H as <- H.
    destruct (nature_of_call x) as [noc|] eqn:En; simpl in H; [|discriminate].
    apply checks_decided in H.
    unfold decided_in_order, primary_type_excluded in *. simpl in H.
    rewrite Ep, <- En. exact H.
  - injection H as <- H. apply checks_decided in H. exact H.
Qed.

(** ** The aggregation pass *)

Lemma in_list_In (x : string) (l : list string) :
  in_list x l = true <-> In x l.
Proof.
  unfold in_list. rewrite existsb_exists. split.
  - intros [y [Hy E]]. apply String.eqb_eq in E. now subst.
  - intros H. exists x. split; [exact H | apply String.eqb_refl].
Qed.

Lemma values_set {V} (k : string) (v g : V) (d : sdict V) :
  In g (Dict.values (sset k v d)) -> g = v \/ In g (Dict.values d).
Proof.
  unfold Dict.values. intros H. apply in_map_iff in H.
  destruct H as [[k0 v0] [Hv Hin]]. simpl in Hv; subst v0.
  destruct (In_set _ String.eqb_eq _ _ _ _ _ Hin) as [[_ ->]|H]; auto.
  right. apply (in_map snd) in H. exact H.
Qed.

Lemma sget_values {V} (k : string) (v : V) (d : sdict V) :
  sget k d = Some v -> In v (Dict.values d).
Proof.
  intros H. apply (get_In _ String.eqb_eq) in H.
  apply (in_map snd) in H. exact H.
Qed.

Lemma insert_desc_In {A} (x y : Z * A) (l : list (Z * A)) :
  In y (insert_desc x l) <-> y = x \/ In y l.
Proof.
  induction l as [|z l IH]; simpl.
  - intuition.
  - destruct (Z.leb (fst x) (fst z)); simpl; rewrite ?IH; intuition.
Qed.

Lemma sorted_desc_In {A} (y : Z * A) (l : list (Z * A)) :
  In y (sorted_desc l) <-> In y l.
Proof.
  unfold sorted_desc.
  assert (G : forall acc, In y (fold_left (fun acc x => insert_desc x acc) l acc)
                          <-> In y acc \/ In y l).
  { induction l as [|x l IH]; intros acc; simpl.
    - intuition.
    - rewrite IH, insert_desc_In. intuition. }
  rewrite G. simpl. intuition.
Qed.

Section PassFacts.

Variable config : Config.
Variable fnmatch : string -> string -> bool.
Variable strptime_full strptime_today : string -> option datetime.
Variable fs : string -> option file.
Variable now : datetime.

Local Abbreviation extract := (extract_xml_data config strptime_full strptime_today fs).
Local Abbreviation pass_file :=
  (process_file config fnmatch strptime_full strptime_today fs now).
Local Abbreviation pass_files :=
  (process_files config fnmatch strptime_full strptime_today fs now).
Local Abbreviation try_file := (try_block config fnmatch strptime_full strptime_today now).

Lemma keyed_snd (l : list CallInfo) (ks : list (Z * CallInfo)) :
  keyed l = Return ks -> map snd ks = l.
Proof.
  revert ks; induction l as [|g l IH]; simpl; intros ks.
  - intros H; injection H as <-; reflexivity.
  - destruct (sort_key g) as [k|e]; simpl; [|discriminate].
    destruct (keyed l) as [ks'|e]; simpl; [|discriminate].
    intros H; injection H as <-. simpl. now rewrite (IH ks').
Qed.

(** A file that cannot be read stops the first loop. *)
Lemma closed_calls_unreadable (xml_files : list string) (acc : list string)
    (f : string) :
  In f xml_files -> extract f = Nine ->
  closed_calls config strptime_full strptime_today fs xml_files acc
  = Raise ValueError.
Proof.
  revert acc; induction xml_files as [|g rest IH]; intros acc; simpl;
    [contradiction|].
  intros [->|Hin] Hf.
  - rewrite Hf. reflexivity.
  - destruct (extract g) as [x|]; simpl; [|reflexivity].
    apply IH; assumption.
Qed.

(** The set that the first loop builds *)
Definition closed_at_source (xml_files : list string) (cn : string) : Prop :=
  exists g y, In g xml_files /\ extract g = Ten y
              /\ call_number y = Some cn
              /\ truthy (Some cn) = true
              /\ truthy (close_datetime y) = true.

Lemma closed_calls_spec (xml_files : list string) (acc closed : list string) :
  closed_calls config strptime_full strptime_today fs xml_files acc
  = Return closed ->
  forall cn, In cn closed <-> In cn acc \/ closed_at_source xml_files cn.
Proof.
  revert acc; induction xml_files as [|g rest IH]; intros acc; simpl.
  - intros H; injection H as <-. intros cn; split; auto.
    intros [H|[g [y [[] _]]]]; exact H.
  - destruct (extract g) as [x|] eqn:Eg; simpl; [|discriminate].
    intros H cn. rewrite (IH _ H). clear IH H.
    split.
    + intros [H|[g' [y [Hin Hrest]]]].
      * destruct (call_number x) as [c|] eqn:Ec; auto.
        destruct (truthy (Some c) && truthy (close_datetime x)) eqn:Et; auto.
        destruct H as [<-|H]; auto.
        right. exists g, x. apply andb_true_iff in Et.
        destruct Et; repeat split; auto. left; reflexivity.
      * right. exists g', y. split; [right; exact Hin | exact Hrest].
    + intros [H|[g' [y [[<-|Hin] [He [Hc [Ht Hd]]]]]]].
      * left. destruct (call_number x) as [c|]; auto.
        destruct (truthy (Some c) && truthy (close_datetime x)); auto.
        right; exact H.
      * left. rewrite Eg in He. injection He as <-. rewrite Hc, Ht, Hd.
        left; reflexivity.
      * right. exists g', y. auto.
Qed.

(** What one step may change: files are only added to the delete list,
    the groups gain no call number other than the one being processed, and
    the registry changes at that call number only. *)
Definition extends (cn : string) (st st' : PassState) : Prop :=
  incl (files_to_delete st) (files_to_delete st')
  /\ (forall g c, In g (Dict.values (location_calls st')) ->
                  In c (call_numbers g) ->
                  c = cn \/ exists g0, In g0 (Dict.values (location_calls st))
                                       /\ In c (call_numbers g0))
  /\ (forall k, k <> cn ->
                sget k (call_display_times st') = sget k (call_display_times st)).

Lemma extends_refl (cn : string) (st : PassState) : extends cn st st.
Proof.
  repeat split; auto using incl_refl.
  intros g c Hg Hc; right; exists g; auto.
Qed.

Lemma extends_trans (cn : string) (a b c : PassState) :
  extends cn a b -> extends cn b c -> extends cn a c.
Proof.
  intros [H1 [H2 H3]] [K1 [K2 K3]]. repeat split.
  - eapply incl_tran; eassumption.
  - intros g n Hg Hn.
    destruct (K2 g n Hg Hn) as [->|[g0 [Hg0 Hn0]]];
      [auto | exact (H2 g0 n Hg0 Hn0)].
  - intros k Hk. rewrite K3, H3; auto.
Qed.

Lemma keep_call_extends (st st' : PassState) (cn : string) (x : Snapshot) :
  keep_call config strptime_full strptime_today now st cn x = Return st' ->
  extends cn st st'.
Proof.
  unfold keep_call.
  destruct (location x) as [loc|]; simpl; [|discriminate].
  destruct (nature_of_call x) as [noc|]; simpl; [|discriminate].
  intros H; injection H as <-. repeat split; simpl.
  - apply incl_refl.
  - intros g c Hg Hc.
    destruct (sget loc (location_calls st)) as [g0|] eqn:E;
      apply values_set in Hg; destruct Hg as [->|Hg]; simpl in Hc.
    + destruct (in_list cn (call_numbers g0)).
      * right; exists g0; split; [eapply sget_values; eauto | exact Hc].
      * apply in_app_or in Hc. destruct Hc as [Hc|[<-|[]]]; auto.
        right; exists g0; split; [eapply sget_values; eauto | exact Hc].
    + right; exists g; auto.
    + destruct Hc as [<-|[]]; auto.
    + right; exists g; auto.
  - intros k Hk.
    destruct (smem cn (call_display_times st)); auto.
    apply (get_set_other _ String.eqb_eq). congruence.
Qed.

Lemma mark_extends (cn : string) (st : PassState) (f : string) :
  extends cn st (mark_for_deletion st f).
Proof.
  repeat split; simpl; auto.
  - apply incl_appl, incl_refl.
  - intros g c Hg Hc; right; exists g; auto.
Qed.

Lemma try_block_extends (st : PassState) (cn : string) (x : Snapshot)
    (f : string) :
  extends cn st (try_file st cn x f).
Proof.
  unfold try_block.
  destruct (classify config fnmatch (primary_units st) cn x) as [pu d].
  assert (H0 : extends cn st (with_primary_units st pu)).
  { repeat split; simpl; auto using incl_refl.
    intros g c Hg Hc; right; exists g; auto. }
  destruct d as [[|r]|e]; auto.
  - destruct (keep_call _ _ _ _ _ _ _) as [st'|e] eqn:E; auto.
    eapply extends_trans; [exact H0|]. eapply keep_call_extends; exact E.
  - eapply extends_trans; [exact H0 | apply mark_extends].
Qed.

Lemma accept_extends (cn : string) (st : PassState) (f : string) :
  extends cn st (accept_file st cn f).
Proof.
  repeat split; simpl; auto using incl_refl.
  intros g c Hg Hc; right; exists g; auto.
Qed.

(** The ways in which the body of the second loop ends for one file *)
Inductive step (closed : list string) (st : PassState) (f : string)
    : PassState -> Prop :=
| step_skip : step closed st f st
| step_closed x cn :
    extract f = Ten x -> call_number x = Some cn ->
    in_list cn closed = true ->
    step closed st f (drop_closed st cn f)
| step_first x cn :
    extract f = Ten x -> call_number x = Some cn ->
    in_list cn closed = false ->
    in_list cn (processed_call_numbers st) = false ->
    step closed st f (try_file (accept_file st cn f) cn x f)
| step_newer x cn latest :
    extract f = Ten x -> call_number x = Some cn ->
    in_list cn closed = false ->
    in_list cn (processed_call_numbers st) = true ->
    sget cn (latest_call_files st) = Some latest ->
    step closed st f
      (try_file (accept_file (mark_for_deletion st latest) cn f) cn x f).

Lemma process_file_step (closed : list string) (st st' : PassState)
    (f : string) :
  pass_file closed st f = Return st' -> step closed st f st'.
Proof.
  unfold process_file.
  destruct (fs f); [|intros H; injection H as <-; constructor].
  destruct (Re.re_match _ _ _) as [groups|];
    [|intros H; injection H as <-; constructor].
  destruct (extract f) as [x|] eqn:Ex; simpl; [|discriminate].
  destruct (call_number x) as [cn|] eqn:Ec;
    [|intros H; injection H as <-; constructor].
  destruct (truthy (Some cn)); [|intros H; injection H as <-; constructor].
  destruct (in_list cn closed) eqn:Ecl.
  { intros H; injection H as <-. eapply step_closed; eauto. }
  destruct (match Re.group 2 groups with Some _ => _ | None => _ end)
    as [cur|]; simpl; [|discriminate].
  destruct (file_number _) as [prev|]; simpl; [|discriminate].
  destruct (in_list cn (processed_call_numbers st)) eqn:Ep.
  - destruct (Z.ltb prev cur); [|intros H; injection H as <-; constructor].
    destruct (sget cn (latest_call_files st)) as [latest|] eqn:El;
      [|discriminate].
    intros H; injection H as <-. eapply step_newer; eauto.
  - intros H; injection H as <-. eapply step_first; eauto.
Qed.

(** An invariant of the steps is an invariant of the loop. *)
Lemma process_files_invariant (P : PassState -> Prop) (closed : list string)
    (xml_files : list string) (st st' : PassState) :
  (forall a f b, In f xml_files -> P a -> step closed a f b -> P b) ->
  P st -> pass_files closed xml_files st = Return st' -> P st'.
Proof.
  revert st; induction xml_files as [|f rest IH]; simpl; intros st Hstep Hst.
  - intros H; injection H as <-; exact Hst.
  - destruct (pass_file closed st f) as [st1|] eqn:E; simpl; [|discriminate].
    apply IH.
    + intros a g b Hg; apply Hstep; right; exact Hg.
    + eapply Hstep; [left; reflexivity | exact Hst |].
      apply process_file_step; exact E.
Qed.

Lemma process_files_app (closed : list string) (l1 l2 : list string)
    (st st' : PassState) :
  pass_files closed (l1 ++ l2) st = Return st' ->
  exists st1, pass_files closed l1 st = Return st1
              /\ pass_files closed l2 st1 = Return st'.
Proof.
  revert st; induction l1 as [|f l1 IH]; simpl; intros st H.
  - exists st; auto.
  - destruct (pass_file closed st f) as [st1|]; simpl in *; [|discriminate].
    apply IH; exact H.
Qed.

(** The registry has no entry for the call. *)
Definition purged (cn : string) (st : PassState) : Prop :=
  sget cn (call_display_times st) = None.

(** No group lists the call. *)
Definition absent (cn : string) (st : PassState) : Prop :=
  forall g, In g (Dict.values (location_calls st)) ->
            ~ In cn (call_numbers g).

Lemma extends_other (cn cn' : string) (a b : PassState) :
  cn <> cn' -> extends cn' a b ->
  incl (files_to_delete a) (files_to_delete b)
  /\ (purged cn a -> purged cn b)
  /\ (absent cn a -> absent cn b).
Proof.
  intros Hne [H1 [H2 H3]]. unfold purged, absent. repeat split; auto.
  - intros Hp. rewrite H3; auto.
  - intros Ha g Hg Hc.
    destruct (H2 g cn Hg Hc) as [->|[g0 [Hg0 Hc0]]]; [congruence|].
    exact (Ha g0 Hg0 Hc0).
Qed.

(** A step keeps a closed call out of the groups and out of the registry,
    and keeps what is marked for deletion. *)
Lemma step_closed_call (closed : list string) (cn : string)
    (a b : PassState) (f : string) :
  in_list cn closed = true -> step closed a f b ->
  incl (files_to_delete a) (files_to_delete b)
  /\ (purged cn a -> purged cn b)
  /\ (absent cn a -> absent cn b).
Proof.
  intros Hcn H; destruct H as [|x cn' Hx Hc Hcl|x cn' Hx Hc Hcl Hp
                                |x cn' latest Hx Hc Hcl Hp Hl].
  - repeat split; auto using incl_refl.
  - unfold purged, absent; simpl. repeat split; auto.
    + apply incl_appl, incl_refl.
    + intros Hp. destruct (smem cn' (call_display_times a)); auto.
      destruct (String.eqb cn' cn) eqn:E.
      * apply String.eqb_eq in E; subst cn'.
        apply get_del_same.
      * apply String.eqb_neq in E. unfold sget, sdel.
        rewrite (get_del_other _ String.eqb_eq); auto.
  - apply (extends_other cn cn'); [intros ->; congruence|].
    eapply extends_trans; [apply accept_extends | apply try_block_extends].
  - apply (extends_other cn cn'); [intros ->; congruence|].
    eapply extends_trans; [apply mark_extends|].
    eapply extends_trans; [apply accept_extends | apply try_block_extends].
Qed.

(** The file of a closed call, when its name has the expected form, is
    marked for deletion and the call leaves the registry. *)
Lemma process_file_closed (closed : list string) (st : PassState)
    (f : string) (x : Snapshot) (cn : string) :
  Re.re_match false filename_pattern (basename f) <> None ->
  extract f = Ten x -> call_number x = Some cn ->
  truthy (Some cn) = true -> in_list cn closed = true ->
  pass_file closed st f = Return (drop_closed st cn f).
Proof.
  intros Hname Hx Hc Ht Hcl. unfold process_file.
  destruct (fs f) eqn:Ef.
  - destruct (Re.re_match _ _ _); [|contradiction Hname; reflexivity].
    rewrite Hx; simpl. rewrite Hc, Ht, Hcl. reflexivity.
  - unfold extract_xml_data in Hx. rewrite Ef in Hx. discriminate.
Qed.

Lemma drop_closed_purged (st : PassState) (cn f : string) :
  purged cn (drop_closed st cn f).
Proof.
  unfold purged; simpl. unfold smem, Dict.mem.
  destruct (Dict.get String.eqb cn (call_display_times st)) eqn:E.
  - apply get_del_same.
  - exact E.
Qed.

(** The calls returned are the groups of the final state, filtered. *)
Lemma returned_calls (groups : list CallInfo) (ks : list (Z * CallInfo))
    (c : Call) :
  keyed (map (filter_units config) groups) = Return ks ->
  In c (map finish (map snd (sorted_desc ks))) ->
  exists g, In g groups /\ c = finish ((filter_units config) g).
Proof.
  intros Hk Hc. apply in_map_iff in Hc. destruct Hc as [g' [<- Hg']].
  apply in_map_iff in Hg'. destruct Hg' as [[k g''] [Hs Hin]].
  simpl in Hs; subst g''. apply (proj1 (sorted_desc_In _ _)) in Hin.
  apply (in_map snd) in Hin. rewrite (keyed_snd _ _ Hk) in Hin.
  simpl in Hin.
  apply in_map_iff in Hin. destruct Hin as [g [<- Hg]].
  exists g; auto.
Qed.

Local Abbreviation pass :=
  (process_xml_files config fnmatch strptime_full strptime_today fs now).

(** The parts of a pass that returns *)
Lemma pass_returns (registry : sdict datetime) (xml_files : list string)
    (calls : list Call) (del : list string) (registry' : sdict datetime) :
  pass registry xml_files = Return (calls, del, registry') ->
  exists closed st ks,
    closed_calls config strptime_full strptime_today fs xml_files []
    = Return closed
    /\ pass_files closed xml_files (initial_state registry) = Return st
    /\ keyed (map (filter_units config) (Dict.values (location_calls st)))
       = Return ks
    /\ calls = map finish (map snd (sorted_desc ks))
    /\ del = files_to_delete st
    /\ registry' = call_display_times st.
Proof.
  unfold process_xml_files.
  destruct (closed_calls _ _ _ _ _ _) as [closed|] eqn:Ec; simpl;
    [|discriminate].
  destruct (pass_files closed xml_files _) as [st|] eqn:Es; simpl;
    [|discriminate].
  destruct (keyed _) as [ks|] eqn:Ek; simpl; [|discriminate].
  intros H; injection H as <- <- <-.
  exists closed, st, ks. repeat split; auto.
Qed.

(** A pass over a list that holds a file which cannot be read raises
    [ValueError]: the nine values of the failure exits of
    [extract_xml_data] are unpacked into ten names. *)
Lemma pass_unreadable (registry : sdict datetime) (xml_files : list string)
    (f : string) :
  In f xml_files -> extract f = Nine ->
  pass registry xml_files = Raise ValueError.
Proof.
  intros Hin Hf. unfold process_xml_files.
  rewrite (closed_calls_unreadable _ _ f Hin Hf). reflexivity.
Qed.

(** C3, as amended.  When the pass returns, every staged file whose name
    has the form [<digits>_<digits>.xml] and whose call identifier is
    closed at the source (some staged file of that call carries a close
    timestamp) is in the delete list, no returned group lists the call, and
    the registry has no entry for it. *)
Theorem closed_call_is_dropped
    (registry : sdict datetime) (xml_files : list string)
    (calls : list Call) (del : list string) (registry' : sdict datetime)
    (f : string) (x : Snapshot) (cn : string) :
  pass registry xml_files = Return (calls, del, registry') ->
  In f xml_files ->
  Re.re_match false filename_pattern (basename f) <> None ->
  extract f = Ten x ->
  call_number x = Some cn ->
  closed_at_source xml_files cn ->
  In f del
  /\ (forall c, In c calls -> ~ In cn (call_numbers (info c)))
  /\ sget cn registry' = None.
Proof.
  intros Hpass Hin Hname Hx Hc Hclosed.
  destruct (pass_returns _ _ _ _ _ Hpass)
    as [closed [st [ks [Hcl [Hst [Hks [-> [-> ->]]]]]]]].
  assert (Hcn : in_list cn closed = true).
  { apply in_list_In. apply (closed_calls_spec _ _ _ Hcl). right; exact Hclosed. }
  assert (Ht : truthy (Some cn) = true).
  { destruct Hclosed as [g [y [_ [_ [_ [Ht _]]]]]]; exact Ht. }
  assert (Habs : absent cn st).
  { apply (process_files_invariant (absent cn) closed xml_files
             (initial_state registry) st); auto.
    - intros a g b _ Ha Hs.
      apply (step_closed_call closed cn a b g Hcn Hs); exact Ha.
    - intros g []. }
  destruct (in_split _ _ Hin) as [l1 [l2 Hsplit]].
  rewrite Hsplit in Hst. apply process_files_app in Hst.
  destruct Hst as [st1 [_ Hst]]. simpl in Hst.
  rewrite (process_file_closed closed st1 f x cn Hname Hx Hc Ht Hcn) in Hst.
  simpl in Hst.
  assert (Hfin : In f (files_to_delete st) /\ purged cn st).
  { apply (process_files_invariant
             (fun s => In f (files_to_delete s) /\ purged cn s)
             closed l2 (drop_closed st1 cn f) st); auto.
    - intros a g b _ [Ha1 Ha2] Hs.
      destruct (step_closed_call closed cn a b g Hcn Hs) as [H1 [H2 _]].
      split; auto.
    - split; [simpl; apply in_or_app; right; left; reflexivity
             | apply drop_closed_purged]. }
  destruct Hfin as [Hdel Hpur]. repeat split; auto.
  intros c Hcin Hcn'.
  destruct (returned_calls _ _ _ Hks Hcin) as [g [Hg ->]].
  exact (Habs g Hg Hcn').
Qed.

(** C9.  Every unit of every group that the pass returns has no clear
    timestamp and a type that is not in the exclusion set. *)
Theorem returned_units_are_active
    (registry : sdict datetime) (xml_files : list string)
    (calls : list Call) (del : list string) (registry' : sdict datetime)
    (c : Call) (u : Unit) :
  pass registry xml_files = Return (calls, del, registry') ->
  In c calls ->
  In u (info_unit_details (info c)) ->
  clear_time u = None
  /\ in_list (lower (unit_type u)) (excluded_units config) = false.
Proof.
  intros Hpass Hc Hu.
  destruct (pass_returns _ _ _ _ _ Hpass)
    as [closed [st [ks [_ [_ [Hks [-> _]]]]]]].
  destruct (returned_calls _ _ _ Hks Hc) as [g [_ ->]].
  simpl in Hu. apply filter_In in Hu. destruct Hu as [_ Hact].
  unfold active, type_allowed in Hact.
  destruct (clear_time u); [discriminate|].
  split; [reflexivity|].
  destruct (in_list _ _); [discriminate | reflexivity].
Qed.

(** Nothing is withdrawn from the groups: a group stays under its
    location with the call numbers and the unit identifiers it had. *)
Definition retains (st st' : PassState) : Prop :=
  forall loc g,
    sget loc (location_calls st) = Some g ->
    exists g',
      sget loc (location_calls st') = Some g'
      /\ incl (call_numbers g) (call_numbers g')
      /\ forall u, In u (info_unit_details g) ->
                   exists u', In u' (info_unit_details g')
                              /\ unit_id u' = unit_id u.

Lemma retains_same (st st' : PassState) :
  location_calls st' = location_calls st -> retains st st'.
Proof.
  intros E loc g Hg. rewrite E. exists g. repeat split; auto using incl_refl.
  intros u Hu; exists u; auto.
Qed.

Lemma retains_trans (a b c : PassState) :
  retains a b -> retains b c -> retains a c.
Proof.
  intros H1 H2 loc g Hg.
  destruct (H1 loc g Hg) as [g1 [Hg1 [Hc1 Hu1]]].
  destruct (H2 loc g1 Hg1) as [g2 [Hg2 [Hc2 Hu2]]].
  exists g2. repeat split; auto.
  - eapply incl_tran; eassumption.
  - intros u Hu. destruct (Hu1 u Hu) as [u1 [Hin1 Hid1]].
    destruct (Hu2 u1 Hin1) as [u2 [Hin2 Hid2]].
    exists u2; split; [exact Hin2 | congruence].
Qed.

Lemma keep_call_retains (st st' : PassState) (cn : string) (x : Snapshot) :
  keep_call config strptime_full strptime_today now st cn x = Return st' ->
  retains st st'.
Proof.
  unfold keep_call.
  destruct (location x) as [loc|]; simpl; [|discriminate].
  destruct (nature_of_call x) as [noc|]; simpl; [|discriminate].
  intros H; injection H as <-. intros loc0 g Hg. simpl.
  destruct (String.eqb loc loc0) eqn:E.
  - apply String.eqb_eq in E; subst loc0. rewrite Hg.
    eexists; split; [apply (get_set_same _ String.eqb_eq)|]. simpl. split.
    + destruct (in_list cn (call_numbers g));
        [apply incl_refl | apply incl_appl, incl_refl].
    + intros u Hu. apply merge_keeps_units; exact Hu.
  - apply String.eqb_neq in E. exists g.
    repeat split; auto using incl_refl.
    + destruct (sget loc (location_calls st));
        unfold sget, sset; rewrite (get_set_other _ String.eqb_eq); auto.
    + intros u Hu; exists u; auto.
Qed.

Lemma try_block_retains (st : PassState) (cn : string) (x : Snapshot)
    (f : string) :
  retains st (try_file st cn x f).
Proof.
  unfold try_block.
  destruct (classify config fnmatch (primary_units st) cn x) as [pu d].
  destruct d as [[|r]|e]; try (apply retains_same; reflexivity).
  destruct (keep_call _ _ _ _ _ _ _) as [st'|e] eqn:E;
    [|apply retains_same; reflexivity].
  eapply retains_trans; [|eapply keep_call_retains; exact E].
  apply retains_same; reflexivity.
Qed.

Lemma try_block_bookkeeping (st : PassState) (cn : string) (x : Snapshot)
    (f : string) :
  latest_call_files (try_file st cn x f) = latest_call_files st
  /\ processed_call_numbers (try_file st cn x f) = processed_call_numbers st.
Proof.
  unfold try_block.
  destruct (classify config fnmatch (primary_units st) cn x) as [pu d].
  destruct d as [[|r]|e]; auto.
  unfold keep_call.
  destruct (location x); simpl; auto.
  destruct (nature_of_call x); simpl; auto.
Qed.

(** The sequence number of the file name, [int(timestamp)] *)
Definition sequence_number (f : string) : outcome Z :=
  match Re.re_match false filename_pattern (basename f) with
  | Some groups =>
      match Re.group 2 groups with
      | Some timestamp =>
          match py_int timestamp with
          | Some z => Return z
          | None => Raise ValueError
          end
      | None => Raise TypeError
      end
  | None => Raise ValueError
  end.

(** Lines 367-377 for a call that the pass has already accepted a file
    for. *)
Lemma process_file_again (closed : list string) (st : PassState)
    (f latest : string) (x : Snapshot) (cn : string) (cur prev : Z) :
  extract f = Ten x ->
  call_number x = Some cn ->
  truthy (Some cn) = true ->
  in_list cn closed = false ->
  in_list cn (processed_call_numbers st) = true ->
  sget cn (latest_call_files st) = Some latest ->
  sequence_number f = Return cur ->
  file_number latest = Return prev ->
  pass_file closed st f
  = Return (if Z.ltb prev cur
            then try_file (accept_file (mark_for_deletion st latest) cn f)
                          cn x f
            else st).
Proof.
  intros Hx Hc Ht Hcl Hp Hl Hcur Hprev.
  unfold process_file. unfold sequence_number in Hcur.
  destruct (fs f) eqn:Ef;
    [|unfold extract_xml_data in Hx; rewrite Ef in Hx; discriminate].
  destruct (Re.re_match _ _ _) as [groups|]; [|discriminate].
  rewrite Hx; simpl. rewrite Hc, Ht, Hcl.
  destruct (Re.group 2 groups) as [ts|]; [|discriminate].
  destruct (py_int ts) as [z|]; [|discriminate].
  injection Hcur as ->. simpl. rewrite Hl, Hprev. simpl. rewrite Hp.
  destruct (Z.ltb prev cur); reflexivity.
Qed.

(** C4, as amended.  For a call that is not closed and for which the pass
    has already accepted the file [latest]: a file whose sequence number is
    not higher is skipped and the state does not change, so that file is
    not marked for deletion; a file with a higher sequence number becomes
    the latest file of the call and [latest] is marked for deletion, while
    every group keeps its location, its call numbers and its unit
    identifiers, so what the superseded file contributed stays. *)
Theorem later_file_of_processed_call
    (closed : list string) (st : PassState)
    (f latest : string) (x : Snapshot) (cn : string) (cur prev : Z) :
  extract f = Ten x ->
  call_number x = Some cn ->
  truthy (Some cn) = true ->
  in_list cn closed = false ->
  in_list cn (processed_call_numbers st) = true ->
  sget cn (latest_call_files st) = Some latest ->
  sequence_number f = Return cur ->
  file_number latest = Return prev ->
  ((cur <= prev)%Z -> pass_file closed st f = Return st)
  /\ ((prev < cur)%Z ->
      exists st',
        pass_file closed st f = Return st'
        /\ In latest (files_to_delete st')
        /\ sget cn (latest_call_files st') = Some f
        /\ retains st st').
Proof.
  intros Hx Hc Ht Hcl Hp Hl Hcur Hprev.
  rewrite (process_file_again closed st f latest x cn cur prev); auto.
  split; intros Hlt.
  - apply Z.ltb_ge in Hlt. rewrite Hlt. reflexivity.
  - apply Z.ltb_lt in Hlt. rewrite Hlt. eexists; split; [reflexivity|].
    repeat split.
    + apply (proj1 (try_block_extends _ cn x f)). simpl.
      apply in_or_app; right; left; reflexivity.
    + rewrite (proj1 (try_block_bookkeeping _ cn x f)). simpl.
      apply (get_set_same _ String.eqb_eq).
    + eapply retains_trans; [|apply try_block_retains].
      apply retains_same; reflexivity.
Qed.

End PassFacts.

(** ** The address normaliser *)

(** The occurrences of a character *)
Fixpoint count_char (ch : ascii) (s : string) : nat :=
  match s with
  | EmptyString => 0
  | String c s' => (if Ascii.eqb c ch then 1 else 0) + count_char ch s'
  end.

(** The text from a position on *)
Fixpoint drop (n : nat) (s : string) : string :=
  match n, s with
  | O, _ => s
  | S n', String _ s' => drop n' s'
  | S _, EmptyString => EmptyString
  end.

(** No character class and no literal of the pattern matches [ch]. *)
Fixpoint avoids (icase : bool) (ch : ascii) (r : Re.regex) : bool :=
  match r with
  | Re.Class p | Re.Star p => negb (p ch)
  | Re.Lit d => negb (Re.lit_eq icase ch d)
  | Re.Seq a b | Re.Alt a b => avoids icase ch a && avoids icase ch b
  | Re.Opt a | Re.Group _ a => avoids icase ch a
  | Re.Eps | Re.WordB | Re.Eol => true
  end.

Section MatcherFacts.

Variable icase : bool.
Variable s : string.
Variable ch : ascii.

(** The text between two positions does not hold [ch]. *)
Definition clean (pos pos' : nat) : Prop :=
  pos <= pos' /\ forall i c, pos <= i < pos' -> get i s = Some c -> c <> ch.

Lemma clean_refl (pos : nat) : clean pos pos.
Proof. split; [lia | intros i c Hi; lia]. Qed.

Lemma clean_step (pos pos' : nat) (c : ascii) :
  get pos s = Some c -> c <> ch -> clean (S pos) pos' -> clean pos pos'.
Proof.
  intros Hc Hne [Hle H]. split; [lia|].
  intros i d Hi Hd. destruct (Nat.eq_dec i pos) as [->|Hn].
  - congruence.
  - apply (H i d); [lia | exact Hd].
Qed.

Lemma clean_trans (a b c : nat) : clean a b -> clean b c -> clean a c.
Proof.
  intros [H1 H2] [H3 H4]. split; [lia|].
  intros i d Hi Hd. destruct (Nat.lt_ge_cases i b).
  - apply (H2 i d); [lia | exact Hd].
  - apply (H4 i d); [lia | exact Hd].
Qed.

Lemma star_run_clean {R} (p : ascii -> bool) (fuel pos : nat) (cs : Re.caps)
    (k : nat -> Re.caps -> option R) (x : R) :
  p ch = false ->
  Re.star_run s p fuel pos cs k = Some x ->
  exists pos' cs', k pos' cs' = Some x /\ clean pos pos'.
Proof.
  intros Hp. revert pos; induction fuel as [|f IH]; simpl; intros pos H.
  - exists pos, cs; split; [exact H | apply clean_refl].
  - destruct (get pos s) as [c|] eqn:Ec;
      [|exists pos, cs; split; [exact H | apply clean_refl]].
    destruct (p c) eqn:Epc;
      [|exists pos, cs; split; [exact H | apply clean_refl]].
    destruct (Re.star_run s p f (S pos) cs k) as [y|] eqn:Er;
      [|exists pos, cs; split; [exact H | apply clean_refl]].
    injection H as ->.
    destruct (IH _ Er) as [pos' [cs' [Hk Hcl]]].
    exists pos', cs'; split; [exact Hk|].
    apply (clean_step pos pos' c); auto. intros ->; congruence.
Qed.

Lemma rmatch_clean {R} (r : Re.regex) :
  avoids icase ch r = true ->
  forall (pos : nat) (cs : Re.caps) (k : nat -> Re.caps -> option R) (x : R),
    Re.rmatch icase s r pos cs k = Some x ->
    exists pos' cs', k pos' cs' = Some x /\ clean pos pos'.
Proof.
  induction r as [|p|d|r1 IH1 r2 IH2|r1 IH1 r2 IH2|r1 IH1|p|n r1 IH1| |];
    simpl; intros Hav pos cs k x H.
  - exists pos, cs; split; [exact H | apply clean_refl].
  - destruct (get pos s) as [c|] eqn:Ec; [|discriminate].
    destruct (p c) eqn:Epc; [|discriminate].
    exists (S pos), cs; split; [exact H|].
    apply (clean_step pos (S pos) c); auto using clean_refl.
    intros ->. rewrite Epc in Hav. discriminate.
  - destruct (get pos s) as [c|] eqn:Ec; [|discriminate].
    destruct (Re.lit_eq icase c d) eqn:Epc; [|discriminate].
    exists (S pos), cs; split; [exact H|].
    apply (clean_step pos (S pos) c); auto using clean_refl.
    intros ->. rewrite Epc in Hav. discriminate.
  - apply andb_true_iff in Hav. destruct Hav as [Ha Hb].
    destruct (IH1 Ha _ _ _ _ H) as [p1 [c1 [H1 Hc1]]].
    destruct (IH2 Hb _ _ _ _ H1) as [p2 [c2 [H2 Hc2]]].
    exists p2, c2; split; [exact H2 | eapply clean_trans; eassumption].
  - apply andb_true_iff in Hav. destruct Hav as [Ha Hb].
    destruct (Re.rmatch icase s r1 pos cs k) as [y|] eqn:E1.
    + injection H as ->. exact (IH1 Ha _ _ _ _ E1).
    + exact (IH2 Hb _ _ _ _ H).
  - destruct (Re.rmatch icase s r1 pos cs k) as [y|] eqn:E1.
    + injection H as ->. exact (IH1 Hav _ _ _ _ E1).
    + exists pos, cs; split; [exact H | apply clean_refl].
  - apply star_run_clean in H; [exact H|].
    destruct (p ch); [discriminate | reflexivity].
  - destruct (IH1 Hav _ _ _ _ H) as [p1 [c1 [H1 Hc1]]].
    eexists; eexists; split; [exact H1 | exact Hc1].
  - destruct (Re.word_boundary s pos); [|discriminate].
    exists pos, cs; split; [exact H | apply clean_refl].
  - destruct (Re.at_eol s pos); [|discriminate].
    exists pos, cs; split; [exact H | apply clean_refl].
Qed.

Lemma match_at_clean (r : Re.regex) (pos e : nat) (cs : Re.caps) :
  avoids icase ch r = true ->
  Re.match_at icase s r pos = Some (e, cs) -> clean pos e.
Proof.
  intros Hav H. unfold Re.match_at in H.
  destruct (rmatch_clean r Hav _ _ _ _ H) as [p' [c' [Hk Hc]]].
  injection Hk as -> _. exact Hc.
Qed.

End MatcherFacts.

Lemma drop_get (s : string) (pos : nat) :
  drop pos s = match get pos s with
               | Some c => String c (drop (S pos) s)
               | None => EmptyString
               end.
Proof.
  revert pos; induction s as [|c t IH]; intros pos.
  - destruct pos; reflexivity.
  - destruct pos as [|pos]; simpl.
    + destruct t; reflexivity.
    + rewrite IH. destruct (get pos t); [|reflexivity].
      destruct t; reflexivity.
Qed.

Lemma drop_past_end (s : string) (pos : nat) :
  String.length s <= pos -> drop pos s = EmptyString.
Proof.
  revert pos; induction s as [|c t IH]; intros pos; simpl.
  - destruct pos; reflexivity.
  - destruct pos as [|pos]; [lia|]. intros H; apply IH; lia.
Qed.

Lemma count_drop_clean (s : string) (ch : ascii) (pos e : nat) :
  clean s ch pos e ->
  count_char ch (drop pos s) = count_char ch (drop e s).
Proof.
  intros [Hle H]. remember (e - pos) as n eqn:En.
  revert pos Hle H En; induction n as [|n IH]; intros pos Hle H En.
  - replace e with pos by lia. reflexivity.
  - rewrite (drop_get s pos). destruct (get pos s) as [c|] eqn:Ec.
    + simpl. rewrite <- (IH (S pos)); try lia.
      * assert (Hne : c <> ch) by (apply (H pos c); [lia | exact Ec]).
        apply Ascii.eqb_neq in Hne. rewrite Hne. reflexivity.
      * intros i d Hi; apply H; lia.
    + rewrite drop_past_end; [reflexivity|].
      destruct (Nat.le_gt_cases (String.length s) e) as [Hl|Hl]; [exact Hl|].
      exfalso.
      assert (Hp : pos < String.length s) by lia.
      clear - Ec Hp. revert pos Ec Hp.
      induction s as [|c t IHs]; intros pos Ec Hp; simpl in *; [lia|].
      destruct pos as [|pos]; [discriminate|]. apply (IHs pos); [exact Ec | lia].
Qed.

(** [re.sub(r, '', s)] keeps every occurrence of a character that the
    pattern cannot match. *)
Lemma sub_from_count (icase : bool) (s : string) (ch : ascii) (r : Re.regex) :
  avoids icase ch r = true ->
  forall fuel pos,
    String.length s - pos <= fuel ->
    count_char ch (Re.sub_from icase s r fuel pos)
    = count_char ch (drop pos s).
Proof.
  intros Hav. induction fuel as [|f IH]; intros pos Hf; simpl.
  - rewrite drop_past_end; [reflexivity | lia].
  - rewrite (drop_get s pos). destruct (get pos s) as [c|] eqn:Ec;
      [|reflexivity].
    assert (Hlen : pos < String.length s).
    { destruct (Nat.le_gt_cases (String.length s) pos) as [Hl|Hl]; [|exact Hl].
      pose proof (drop_past_end s pos Hl) as Hd.
      rewrite (drop_get s pos), Ec in Hd. discriminate. }
    assert (Hkeep : count_char ch
                      (String c (Re.sub_from icase s r f (S pos)))
                    = count_char ch (String c (drop (S pos) s))).
    { simpl. rewrite IH; [reflexivity | lia]. }
    destruct (Re.match_at icase s r pos) as [[e cs]|] eqn:Em; [|exact Hkeep].
    destruct (pos <? e) eqn:Elt; [|exact Hkeep].
    apply Nat.ltb_lt in Elt. rewrite IH; [|lia].
    rewrite <- (count_drop_clean s ch pos e).
    + rewrite (drop_get s pos), Ec. reflexivity.
    + eapply match_at_clean; eassumption.
Qed.

Lemma re_sub_empty_count (icase : bool) (s : string) (ch : ascii)
    (r : Re.regex) :
  avoids icase ch r = true ->
  count_char ch (Re.re_sub_empty icase r s) = count_char ch s.
Proof.
  intros Hav. unfold Re.re_sub_empty.
  rewrite (sub_from_count icase s ch r Hav); [reflexivity | lia].
Qed.


Lemma count_char_lstrip (ch : ascii) (s : string) :
  is_space ch = false -> count_char ch (lstrip s) = count_char ch s.
Proof.
  intros Hsp. induction s as [|c s IH]; simpl; [reflexivity|].
  destruct (is_space c) eqn:E; [|reflexivity].
  rewrite IH. destruct (Ascii.eqb_spec c ch) as [->|]; [congruence|reflexivity].
Qed.

Lemma count_char_rstrip (ch : ascii) (s : string) :
  is_space ch = false -> count_char ch (rstrip s) = count_char ch s.
Proof.
  intros Hsp. induction s as [|c s IH]; simpl; [reflexivity|].
  destruct (rstrip s) as [|d r] eqn:E.
  - rewrite <- IH. simpl.
    destruct (is_space c) eqn:Ec; [|reflexivity].
    destruct (Ascii.eqb_spec c ch) as [->|]; [congruence|reflexivity].
  - simpl. simpl in IH. rewrite IH. reflexivity.
Qed.

Lemma count_char_strip (ch : ascii) (s : string) :
  is_space ch = false -> count_char ch (strip s) = count_char ch s.
Proof.
  intros H. unfold strip.
  rewrite count_char_rstrip, count_char_lstrip; auto.
Qed.




Lemma lstrip_rstrip (s : string) :
  lstrip (rstrip (lstrip s)) = rstrip (lstrip s).
Proof.
  induction s as [|c s IH]; simpl; [reflexivity|].
  destruct (is_space c) eqn:E; [exact IH|].
  simpl. destruct (rstrip s); rewrite ?E; simpl; rewrite ?E; reflexivity.
Qed.

Lemma rstrip_rstrip (s : string) : rstrip (rstrip s) = rstrip s.
Proof.
  induction s as [|c s IH]; simpl; [reflexivity|].
  destruct (rstrip s) as [|d r] eqn:E.
  - destruct (is_space c) eqn:Ec; simpl; [reflexivity|]. now rewrite Ec.
  - simpl. simpl in IH. rewrite IH. reflexivity.
Qed.


(** ** The retention sweeper *)

(** A call is expired exactly when the whole minutes since its display
    time exceed 360, that is from 361 minutes on. *)
Lemma to_remove_spec (now : datetime) (registry : sdict datetime)
    (cn : string) :
  In cn (to_remove now registry)
  <-> exists t, In (cn, t) registry /\ (361 * minute <= now - t)%Z.
Proof.
  unfold to_remove. rewrite in_map_iff. split.
  - intros [[k t] [Hk Hin]]. simpl in Hk; subst k.
    apply filter_In in Hin. destruct Hin as [Hin Hexp]. simpl in Hexp.
    exists t; split; [exact Hin|].
    apply Z.ltb_lt in Hexp. unfold display_duration, minute in *.
    pose proof (Z.mul_div_le (now - t) 60000000). lia.
  - intros [t [Hin Hexp]]. exists (cn, t). split; [reflexivity|].
    apply filter_In. split; [exact Hin|]. simpl.
    apply Z.ltb_lt. unfold display_duration, minute in *.
    apply Z.lt_le_trans with (m := 361%Z); [lia|].
    apply Z.div_le_lower_bound; lia.
Qed.

Section SweepFacts.

Variable config : Config.
Variable strptime_full strptime_today : string -> option datetime.
Variable fs : string -> option file.
Variable now : datetime.

Local Abbreviation staged_snapshot name :=
  (extract_xml_data config strptime_full strptime_today fs
     (path_join (xml_directory config) name)).

(** Every [.xml] file of the listing can be read. *)
Definition readable (listing : list string) : Prop :=
  forall name, In name listing -> endswith name ".xml" = true ->
               exists x, staged_snapshot name = Ten x.

(** The file is an export of the call. *)
Definition backs (cn name : string) : Prop :=
  endswith name ".xml" = true
  /\ exists x, staged_snapshot name = Ten x /\ call_number x = Some cn.

Lemma remove_name_In (name n : string) (staging : list string) :
  NoDup staging ->
  (In n (remove_name name staging) <-> In n staging /\ n <> name).
Proof.
  induction staging as [|f rest IH]; simpl; intros Hnd; [tauto|].
  inversion Hnd as [|? ? Hnotin Hnd']; subst.
  destruct (String.eqb_spec f name) as [->|Hne].
  - split.
    + intros H; split; [right; exact H | intros ->; contradiction].
    + intros [[H|H] Hn]; [congruence | exact H].
  - simpl. rewrite (IH Hnd'). split.
    + intros [<-|[H Hn]]; [split; [left; reflexivity | exact Hne] | tauto].
    + intros [[H|H] Hn]; [left; exact H | right; tauto].
Qed.

Lemma remove_name_NoDup (name : string) (staging : list string) :
  NoDup staging -> NoDup (remove_name name staging).
Proof.
  induction staging as [|f rest IH]; simpl; intros Hnd; [constructor|].
  inversion Hnd as [|? ? Hnotin Hnd']; subst.
  destruct (String.eqb f name); [exact Hnd'|].
  constructor; [|exact (IH Hnd')].
  intros H. apply (remove_name_In name f rest Hnd') in H. tauto.
Qed.

Lemma remove_call_files_readable (cn : string) (listing staging : list string) :
  readable listing -> NoDup staging ->
  exists staging',
    remove_call_files config strptime_full strptime_today fs cn listing staging
    = (staging', None)
    /\ NoDup staging'
    /\ forall n, In n staging'
                 <-> In n staging /\ ~ (In n listing /\ backs cn n).
Proof.
  revert staging; induction listing as [|f rest IH]; simpl;
    intros staging Hr Hnd.
  - exists staging; repeat split; tauto.
  - assert (Hr' : readable rest) by (intros n Hn; apply Hr; right; exact Hn).
    assert (Hskip : ~ backs cn f ->
              exists staging',
                remove_call_files config strptime_full strptime_today fs cn
                  rest staging = (staging', None)
                /\ NoDup staging'
                /\ forall n, In n staging'
                    <-> In n staging
                        /\ ~ ((f = n \/ In n rest) /\ backs cn n)).
    { intros Hnb. destruct (IH staging Hr' Hnd) as [s' [Hs [Hnd' Hin]]].
      exists s'. split; [exact Hs|]. split; [exact Hnd'|].
      intros n. rewrite Hin. split.
      - intros [H1 H2]. split; [exact H1|].
        intros [[<-|Hn] Hb]; [contradiction | tauto].
      - intros [H1 H2]. split; [exact H1|]. tauto. }
    destruct (endswith f ".xml") eqn:Ex;
      [|apply Hskip; intros [Hb _]; congruence].
    destruct (Hr f (or_introl eq_refl) Ex) as [x Hx]. rewrite Hx. simpl.
    unfold snapshot_call_number.
    destruct (option_string_eqb (call_number x) (Some cn)) eqn:Ec.
    + apply option_string_eqb_eq in Ec.
      destruct (IH (remove_name f staging) Hr' (remove_name_NoDup f _ Hnd))
        as [s' [Hs [Hnd' Hin]]].
      exists s'. split; [exact Hs|]. split; [exact Hnd'|].
      intros n. rewrite Hin, (remove_name_In f n staging Hnd). split.
      * intros [[H1 H2] H3]. split; [exact H1|].
        intros [[Hf|Hn] Hb]; [congruence | tauto].
      * intros [H1 H2]. repeat split; auto; try tauto.
        intros ->. apply H2. split; [left; reflexivity|].
        split; [exact Ex | exists x; auto].
    + apply Hskip. intros [_ [y [Hy Hc]]]. rewrite Hx in Hy.
      injection Hy as <-. rewrite Hc in Ec. simpl in Ec.
      rewrite String.eqb_refl in Ec. discriminate.
Qed.

Lemma expire_readable (calls : list string) (registry : sdict datetime)
    (staging : list string) :
  readable staging -> NoDup staging ->
  exists registry' staging',
    expire config strptime_full strptime_today fs calls registry staging
    = (registry', staging', None)
    /\ (forall cn, sget cn registry'
                   = if in_list cn calls then None else sget cn registry)
    /\ forall n, In n staging'
                 <-> In n staging /\ ~ exists cn, In cn calls /\ backs cn n.
Proof.
  revert registry staging; induction calls as [|c rest IH]; simpl;
    intros registry staging Hr Hnd.
  - exists registry, staging. split; [reflexivity|]. split; [reflexivity|].
    intros n; split; [|tauto].
    intros H; split; [exact H | intros [cn [[] _]]].
  - destruct (remove_call_files_readable c staging staging Hr Hnd)
      as [s1 [Hs1 [Hnd1 Hin1]]]. rewrite Hs1.
    assert (Hr1 : readable s1).
    { intros n Hn. apply Hr. apply Hin1 in Hn. tauto. }
    destruct (IH (sdel c registry) s1 Hr1 Hnd1) as [r' [s' [He [Hreg Hin]]]].
    exists r', s'. split; [exact He|]. split.
    + intros cn. rewrite Hreg.
      destruct (String.eqb_spec cn c) as [->|Hne]; simpl.
      * destruct (in_list c rest); [reflexivity | apply get_del_same].
      * destruct (in_list cn rest); [reflexivity|].
        apply (get_del_other _ String.eqb_eq); congruence.
    + intros n. rewrite Hin, Hin1. split.
      * intros [[H1 H2] H3]. split; [exact H1|].
        intros [cn [[<-|Hc] Hb]]; [tauto | apply H3; exists cn; tauto].
      * intros [H1 H2]. repeat split; auto.
        { intros [_ Hb]. apply H2. exists c; tauto. }
        { intros [cn [Hc Hb]]. apply H2. exists cn; tauto. }
Qed.

(** When every staged file can be read, a turn of the sweeper ends
    without exception; it removes the registry entries that have been
    displayed for more than 360 whole minutes and no other, and it removes
    the staged exports of those calls and no other file. *)
Lemma cleanup_old_calls_readable (registry : sdict datetime)
    (staging : list string) :
  readable staging -> NoDup staging ->
  exists registry' staging',
    cleanup_old_calls config strptime_full strptime_today fs now
      registry staging
    = (registry', staging', None)
    /\ (forall cn, sget cn registry'
                   = if in_list cn (to_remove now registry) then None
                     else sget cn registry)
    /\ forall n, In n staging'
                 <-> In n staging
                     /\ ~ exists cn, In cn (to_remove now registry)
                                     /\ backs cn n.
Proof.
  intros Hr Hnd. unfold cleanup_old_calls.
  apply expire_readable; assumption.
Qed.

End SweepFacts.

(** * The claims on concrete exports *)

Import Examples.

(** C1.  The staging directory holds a readable export and an empty file:
    the pass raises [ValueError] and returns neither calls nor a delete
    list.  [extract_xml_data] logs the empty file and returns nine values,
    which [process_xml_files] unpacks into ten names outside any [try]. *)
Theorem pass_raises_on_empty_file :
  extract (files [(staged "100_1.xml", Document engine_call);
                  (staged "101_1.xml", EmptyFile)])
          (staged "101_1.xml") = Nine
  /\ pass (files [(staged "100_1.xml", Document engine_call);
                  (staged "101_1.xml", EmptyFile)])
          5%Z [] [staged "100_1.xml"; staged "101_1.xml"]
     = Raise ValueError.
Proof.
  split; [reflexivity|].
  apply (pass_unreadable _ _ _ _ _ _ _ _ (staged "101_1.xml"));
    [right; left; reflexivity | reflexivity].
Qed.

(** C8.  Call 100 has been displayed for 361 minutes and the staging
    directory holds an empty file before the file of the call: the sweep
    removes the registry entry, stops with [ValueError] at the empty file
    and leaves [100_1.xml] in place. *)
Theorem sweep_stops_at_empty_file :
  sweep (files [(staged "099_1.xml", EmptyFile);
                (staged "100_1.xml", Document engine_call)])
        (361 * minute)%Z [("100", 0%Z)] ["099_1.xml"; "100_1.xml"]
  = ([], ["099_1.xml"; "100_1.xml"], Some ValueError).
Proof. vm_compute. reflexivity. Qed.

(** Without the empty file the same sweep removes the entry and the file,
    and one microsecond earlier it removes nothing. *)
Example sweep_at_the_threshold :
  sweep (files [(staged "100_1.xml", Document engine_call)])
        (361 * minute)%Z [("100", 0%Z)] ["100_1.xml"]
  = ([], [], None)
  /\ sweep (files [(staged "100_1.xml", Document engine_call)])
           (361 * minute - 1)%Z [("100", 0%Z)] ["100_1.xml"]
     = ([("100", 0%Z)], ["100_1.xml"], None).
Proof. split; vm_compute; reflexivity. Qed.

(** C2: a unit without [Type] next to a complete unit; the file has a
    call identifier, and the extraction fails as a whole. *)
Lemma untyped_unit_fails_the_file :
  findtext [nw "CallNumber"] untyped_unit_call = Some "100"
  /\ extract (files [(staged "100_1.xml", Document untyped_unit_call)])
             (staged "100_1.xml")
     = Nine.
Proof. split; vm_compute; reflexivity. Qed.

(** An export without call identifier is extracted, with [None] for the
    identifier, and the pass ignores the file: it is neither kept nor
    marked for deletion. *)
Example missing_call_number_is_no_failure :
  extract (files [(staged "100_1.xml", Document anonymous_call)])
          (staged "100_1.xml")
  = Ten (snapshot_of anonymous_call)
  /\ call_number (snapshot_of anonymous_call) = None
  /\ pass (files [(staged "100_1.xml", Document anonymous_call)])
          5%Z [] [staged "100_1.xml"]
     = Return ([], [], []).
Proof. repeat split; vm_compute; reflexivity. Qed.

Lemma extract_returns_iff_typed_witness :
  ((exists x, extract two_updates (staged "100_1.xml") = Ten x)
   <-> Forall has_agency_type (context_elements engine_call)
       /\ Forall has_type (unit_elements engine_call))
  /\ (forall x, extract two_updates (staged "100_1.xml") = Ten x ->
                call_number x = findtext [nw "CallNumber"] engine_call
                /\ close_datetime x
                   = findtext [nw "CloseDateTime"] engine_call).
Proof.
  apply (extract_returns_iff_typed cfg instant no_time_only two_updates
           (staged "100_1.xml") engine_call).
  reflexivity.
Defined.

(** C3: the export of a closed call under a name that does not have the
    form [<digits>_<digits>.xml]; the pass returns, the file is not in the
    delete list and the registry keeps the entry of the call. *)
Lemma closed_call_under_other_name_stays :
  closed_at_source cfg instant no_time_only
    (files [(staged "notes.xml", Document closed_call)])
    [staged "notes.xml"] "100"
  /\ pass (files [(staged "notes.xml", Document closed_call)])
          5%Z [("100", 0%Z)] [staged "notes.xml"]
     = Return ([], [], [("100", 0%Z)]).
Proof.
  split; [|vm_compute; reflexivity].
  exists (staged "notes.xml"), (snapshot_of closed_call).
  repeat split; try (vm_compute; reflexivity). left; reflexivity.
Qed.

Lemma closed_call_is_dropped_witness :
  In (staged "100_1.xml") [staged "100_1.xml"]
  /\ (forall c, In c [] -> ~ In "100" (call_numbers (info c)))
  /\ sget "100" (@nil (string * datetime)) = None.
Proof.
  apply (closed_call_is_dropped cfg glob instant no_time_only
           (files [(staged "100_1.xml", Document closed_call)])
           5%Z [("100", 0%Z)] [staged "100_1.xml"]
           [] [staged "100_1.xml"] []
           (staged "100_1.xml") (snapshot_of closed_call) "100").
  - vm_compute; reflexivity.
  - left; reflexivity.
  - vm_compute; discriminate.
  - vm_compute; reflexivity.
  - reflexivity.
  - exists (staged "100_1.xml"), (snapshot_of closed_call).
    repeat split; try (vm_compute; reflexivity). left; reflexivity.
Defined.

(** C4: in sorted order [100_10.xml] comes before [100_2.xml]; the older
    file [100_2.xml] is skipped and the delete list stays empty.  And after
    a pass over [100_1.xml] and [100_2.xml] the group of the call still has
    unit E1, which only [100_1.xml] holds. *)
Lemma older_file_is_kept_and_data_is_merged :
  (exists calls registry,
     pass (files [(staged "100_10.xml", Document engine_call);
                  (staged "100_2.xml", Document truck_update)])
          5%Z [] [staged "100_10.xml"; staged "100_2.xml"]
     = Return (calls, [], registry))
  /\ map unit_id (unit_details (snapshot_of truck_update))
     = [Some "E2"; Some "T2"]
  /\ exists c registry,
       pass two_updates 5%Z [] [staged "100_1.xml"; staged "100_2.xml"]
       = Return ([c], [staged "100_1.xml"], registry)
       /\ map unit_id (info_unit_details (info c)) = [Some "E1"; Some "T2"].
Proof.
  split; [eexists; eexists; vm_compute; reflexivity|].
  split; [vm_compute; reflexivity|].
  eexists; eexists; split; vm_compute; reflexivity.
Qed.

Lemma later_file_of_processed_call_witness :
  ((2 <= 1)%Z ->
   process_file cfg glob instant no_time_only two_updates 5%Z []
     after_first_file (staged "100_2.xml")
   = Return after_first_file)
  /\ ((1 < 2)%Z ->
      exists st',
        process_file cfg glob instant no_time_only two_updates 5%Z []
          after_first_file (staged "100_2.xml")
        = Return st'
        /\ In (staged "100_1.xml") (files_to_delete st')
        /\ sget "100" (latest_call_files st') = Some (staged "100_2.xml")
        /\ retains after_first_file st').
Proof.
  apply (later_file_of_processed_call cfg glob instant no_time_only
           two_updates 5%Z [] after_first_file
           (staged "100_2.xml") (staged "100_1.xml")
           (snapshot_of truck_update) "100" 2%Z 1%Z);
    vm_compute; reflexivity.
Defined.

Lemma merge_never_moves_backward_witness :
  (exists m, In m (merge_unit_details cfg [engine_e1] [engine_e1_later])
             /\ unit_id m = Some "E1")
  /\ forall m, In m (merge_unit_details cfg [engine_e1] [engine_e1_later]) ->
               unit_id m = Some "E1" ->
               unit_merged (Some "E1") engine_e1 m [engine_e1_later].
Proof.
  apply (merge_never_moves_backward cfg [engine_e1] [engine_e1_later]
           (Some "E1") engine_e1).
  reflexivity.
Defined.

Lemma checks_in_order_witness :
  exists s,
    scan_units cfg glob (unit_details (snapshot_of brush_test_call))
      (initial_scan (snapshot_of brush_test_call)) = Return s
    /\ (primary_type_excluded cfg s ->
        Drop ExcludedPrimaryUnitType = Drop ExcludedPrimaryUnitType)
    /\ (Drop ExcludedPrimaryUnitType = Drop ExcludedCallType ->
        ~ primary_type_excluded cfg s
        /\ has_excluded_unit s = false
        /\ sget "100" [("100", "Fire")] <> Some "EMS"
        /\ (sget "100" [("100", "Fire")] = Some "Police" ->
            fire_units_dispatched s = true)
        /\ exists noc,
             nature_of_call (snapshot_of brush_test_call) = Some noc
             /\ in_list (lower noc) (excluded_call_types cfg) = true).
Proof.
  apply (checks_in_order cfg glob [] "100" (snapshot_of brush_test_call)
           [("100", "Fire")] (Drop ExcludedPrimaryUnitType)).
  vm_compute; reflexivity.
Defined.

(** The call type of [brush_test_call] is excluded as well. *)
Example brush_test_call_type :
  nature_of_call (snapshot_of brush_test_call) = Some "Test Call"
  /\ in_list (lower "Test Call") (excluded_call_types cfg) = true.
Proof. split; vm_compute; reflexivity. Qed.



Lemma returned_units_are_active_witness :
  clear_time
    (hd engine_e1
       (info_unit_details
          (info (hd nothing
                   (calls_of
                      (pass two_updates 5%Z []
                         [staged "100_1.xml"; staged "100_2.xml"]))))))
  = None
  /\ in_list
       (lower
          (unit_type
             (hd engine_e1
                (info_unit_details
                   (info (hd nothing
                            (calls_of
                               (pass two_updates 5%Z []
                                  [staged "100_1.xml";
                                   staged "100_2.xml"]))))))))
       (excluded_units cfg)
     = false.
Proof.
  apply (returned_units_are_active cfg glob instant no_time_only
           two_updates 5%Z [] [staged "100_1.xml"; staged "100_2.xml"]
           (calls_of (pass two_updates 5%Z []
                        [staged "100_1.xml"; staged "100_2.xml"]))
           [staged "100_1.xml"] [("100", 5%Z)]
           (hd nothing
              (calls_of (pass two_updates 5%Z []
                           [staged "100_1.xml"; staged "100_2.xml"])))).
  - vm_compute; reflexivity.
  - vm_compute. left; reflexivity.
  - vm_compute. left; reflexivity.
Defined.

Lemma primary_unit_outside_unit_details_witness :
  primary_unit (snapshot_of utility_primary_call)
  = Some {| unit_id := Some "U5"; unit_type := "Utility";
            clear_time := None; arrive_time := None; enroute_time := None;
            jurisdiction := Some "Co1"; is_primary := true |}
  /\ ~ In {| unit_id := Some "U5"; unit_type := "Utility";
             clear_time := None; arrive_time := None; enroute_time := None;
             jurisdiction := Some "Co1"; is_primary := true |}
          (unit_details (snapshot_of utility_primary_call)).
Proof.
  split; [vm_compute; reflexivity|].
  apply (primary_unit_outside_unit_details cfg instant no_time_only
           (files [(staged "100_1.xml", Document utility_primary_call)])
           (staged "100_1.xml") (snapshot_of utility_primary_call)).
  - vm_compute; reflexivity.
  - vm_compute; reflexivity.
  - vm_compute; reflexivity.
Defined.

(** * Further properties of the code *)

(** ** More on the unit merge engine *)

(** One of the three timestamps of a unit *)
Definition timestamp_field (F : Unit -> option datetime) : Prop :=
  F = arrive_time \/ F = enroute_time \/ F = clear_time.

Lemma timestamp_field_update (F : Unit -> option datetime) (e n : Unit) :
  timestamp_field F ->
  F (update_unit e n) = if more_recent (F n) (F e) then F n else F e.
Proof.
  intros [->|[->| ->]];
    [apply arrive_update | apply enroute_update | apply clear_update].
Qed.

Section MoreMergeFacts.

Variable config : Config.

Lemma merge_step_keyed (d : udict) (n : Unit) :
  keyed_by_id d -> keyed_by_id (merge_step config d n).
Proof.
  intros Hk. unfold merge_step.
  destruct (uget (unit_id n) d) as [ex|] eqn:Eg.
  - assert (Hex : unit_id ex = unit_id n).
    { apply (proj2 Hk). apply (get_In _ option_string_eqb_eq); exact Eg. }
    replace (unit_id n) with (unit_id (update_unit ex n))
      by (rewrite unit_id_update; exact Hex).
    apply keyed_by_id_set, Hk.
  - destruct (type_allowed config n); [apply keyed_by_id_set, Hk | exact Hk].
Qed.

Lemma merge_loop_keyed (l : list Unit) (d : udict) :
  keyed_by_id d -> keyed_by_id (fold_left (merge_step config) l d).
Proof.
  revert d; induction l as [|n l IH]; simpl; intros d Hd; [exact Hd|].
  apply IH, merge_step_keyed, Hd.
Qed.

Lemma keyed_values_ids (d : udict) :
  keyed_by_id d -> map unit_id (Dict.values d) = Dict.keys d.
Proof.
  intros [_ Hk]. unfold Dict.values, Dict.keys.
  induction d as [|[k v] d IH]; simpl; [reflexivity|].
  rewrite (Hk k v (or_introl eq_refl)). f_equal.
  apply IH. intros k0 v0 H; apply Hk; right; exact H.
Qed.

Lemma merged_ids_aux (existing incoming : list Unit) :
  NoDup (map unit_id (merge_unit_details config existing incoming)).
Proof.
  unfold merge_unit_details.
  pose proof (merge_loop_keyed incoming (units_dict existing)
                (keyed_by_id_units_dict existing)) as Hk.
  rewrite (keyed_values_ids _ Hk). exact (proj1 Hk).
Qed.

(** X1.  The merged list holds at most one unit per unit identifier,
    whatever the two lists repeat. *)
Theorem merged_identifiers_are_distinct (existing incoming : list Unit) :
  NoDup (map unit_id (merge_unit_details config existing incoming)).
Proof. apply merged_ids_aux. Qed.

(** The keys of a dictionary after the loop: the keys it had, then new
    ones, each the identifier of an incoming unit of an allowed type. *)
Lemma merge_loop_keys (l : list Unit) (d : udict) :
  exists added,
    Dict.keys (fold_left (merge_step config) l d) = Dict.keys d ++ added
    /\ forall k, In k added ->
                 exists n, In n l /\ unit_id n = k
                           /\ type_allowed config n = true.
Proof.
  revert d; induction l as [|n l IH]; simpl; intros d.
  - exists []. rewrite app_nil_r. split; [reflexivity | intros k []].
  - destruct (IH (merge_step config d n)) as [added [Hkeys Hadd]].
    assert (Hstep : Dict.keys (merge_step config d n) = Dict.keys d
                    \/ (Dict.keys (merge_step config d n)
                        = Dict.keys d ++ [unit_id n]
                        /\ type_allowed config n = true)).
    { unfold merge_step. destruct (uget (unit_id n) d) as [ex|] eqn:Eg.
      - left. unfold uset. rewrite keys_set. unfold Dict.mem.
        unfold uget in Eg. rewrite Eg. reflexivity.
      - destruct (type_allowed config n) eqn:Et; [|left; reflexivity].
        right. split; [|reflexivity].
        unfold uset. rewrite keys_set. unfold Dict.mem.
        unfold uget in Eg. rewrite Eg. reflexivity. }
    destruct Hstep as [Hs|[Hs Ht]]; rewrite Hs in Hkeys.
    + exists added. split; [exact Hkeys|].
      intros k Hk. destruct (Hadd k Hk) as [m [Hm Hrest]].
      exists m; split; [right; exact Hm | exact Hrest].
    + exists (unit_id n :: added). split.
      * rewrite Hkeys, <- app_assoc. reflexivity.
      * intros k [<-|Hk].
        { exists n; repeat split; auto. }
        destruct (Hadd k Hk) as [m [Hm Hrest]].
        exists m; split; [right; exact Hm | exact Hrest].
Qed.

Lemma units_dict_keys (existing : list Unit) (k : option string) :
  In k (Dict.keys (units_dict existing)) -> In k (map unit_id existing).
Proof.
  unfold units_dict.
  assert (G : forall l d,
             In k (Dict.keys
                     (fold_left (fun d unit => uset (unit_id unit) unit d) l d)) ->
             In k (Dict.keys d) \/ In k (map unit_id l)).
  { induction l as [|u l IH]; simpl; intros d H; [left; exact H|].
    destruct (IH _ H) as [H1|H1]; [|right; right; exact H1].
    unfold uset in H1. rewrite keys_set in H1.
    destruct (Dict.mem option_string_eqb (unit_id u) d); [left; exact H1|].
    apply in_app_or in H1. destruct H1 as [H1|[<-|[]]]; auto. }
  intros H. destruct (G _ _ H) as [[]|H1]; exact H1.
Qed.

(** X2.  Every merged unit continues an existing unit or an incoming unit
    of an allowed type: a unit that only the incoming list holds, with an
    excluded type, is not added. *)
Theorem merged_units_have_a_source (existing incoming : list Unit) (m : Unit) :
  In m (merge_unit_details config existing incoming) ->
  (exists e, In e existing /\ unit_id e = unit_id m)
  \/ (exists n, In n incoming /\ unit_id n = unit_id m
                /\ type_allowed config n = true).
Proof.
  intros Hm. apply (in_map unit_id) in Hm.
  unfold merge_unit_details in Hm.
  pose proof (merge_loop_keyed incoming (units_dict existing)
                (keyed_by_id_units_dict existing)) as Hk.
  rewrite (keyed_values_ids _ Hk) in Hm.
  destruct (merge_loop_keys incoming (units_dict existing))
    as [added [Hkeys Hadd]].
  rewrite Hkeys in Hm. apply in_app_or in Hm. destruct Hm as [Hm|Hm].
  - left. apply units_dict_keys in Hm. apply in_map_iff in Hm.
    destruct Hm as [e [He Hin]]. exists e; auto.
  - right. exact (Hadd _ Hm).
Qed.

Lemma units_dict_distinct (existing : list Unit) :
  NoDup (map unit_id existing) ->
  units_dict existing = map (fun u => (unit_id u, u)) existing.
Proof.
  unfold units_dict.
  assert (G : forall l d,
             NoDup (Dict.keys d ++ map unit_id l) ->
             fold_left (fun d unit => uset (unit_id unit) unit d) l d
             = d ++ map (fun u => (unit_id u, u)) l).
  { induction l as [|u l IH]; simpl; intros d Hnd.
    - now rewrite app_nil_r.
    - assert (Hset : uset (unit_id u) u d = d ++ [(unit_id u, u)]).
      { apply NoDup_remove_2 in Hnd.
        assert (Hnot : ~ In (unit_id u) (Dict.keys d))
          by (intros H; apply Hnd; apply in_or_app; left; exact H).
        clear - Hnot. induction d as [|[k v] d IHd]; simpl; [reflexivity|].
        destruct (option_string_eqb k (unit_id u)) eqn:E.
        - apply option_string_eqb_eq in E. subst k.
          contradiction Hnot. left; reflexivity.
        - f_equal. apply IHd. intros H; apply Hnot; right; exact H. }
      rewrite Hset, IH.
      + rewrite <- app_assoc. reflexivity.
      + unfold Dict.keys in *. rewrite map_app, <- app_assoc. exact Hnd. }
  intros Hnd. rewrite (G existing []); [reflexivity | exact Hnd].
Qed.

(** X3.  When the existing units have distinct identifiers they come
    first in the merged list, in their order, and the units that are added
    follow; with nothing incoming the list comes back as it is. *)
Theorem existing_units_come_first (existing incoming : list Unit) :
  NoDup (map unit_id existing) ->
  (exists added,
     map unit_id (merge_unit_details config existing incoming)
     = map unit_id existing ++ added
     /\ forall k, In k added ->
                  ~ In k (map unit_id existing)
                  /\ exists n, In n incoming /\ unit_id n = k)
  /\ merge_unit_details config existing [] = existing.
Proof.
  intros Hnd. split.
  - pose proof (merged_ids_aux existing incoming) as Hd.
    unfold merge_unit_details in *.
    pose proof (merge_loop_keyed incoming (units_dict existing)
                  (keyed_by_id_units_dict existing)) as Hk.
    rewrite (keyed_values_ids _ Hk) in *.
    destruct (merge_loop_keys incoming (units_dict existing))
      as [added [Hkeys Hadd]].
    rewrite Hkeys in *.
    assert (Hex : Dict.keys (units_dict existing) = map unit_id existing).
    { rewrite (units_dict_distinct existing Hnd). unfold Dict.keys.
      rewrite map_map. reflexivity. }
    rewrite Hex in *. exists added. split; [reflexivity|].
    intros k Hk'. split.
    + intros Hin. revert Hd Hin Hk'. clear. revert added.
      induction (map unit_id existing) as [|a l IH]; simpl; intros added Hd.
      * intros [].
      * inversion Hd as [|? ? Hnotin Hd']; subst.
        intros [->|Hin] Hk'.
        { apply Hnotin. apply in_or_app; right; exact Hk'. }
        exact (IH added Hd' Hin Hk').
    + destruct (Hadd k Hk') as [n [Hn [Hid _]]]. exists n; auto.
  - unfold merge_unit_details. simpl.
    rewrite (units_dict_distinct existing Hnd). unfold Dict.values.
    rewrite map_map. simpl. apply map_id.
Qed.

Lemma update_unit_latest (F : Unit -> option datetime) (e n : Unit) :
  timestamp_field F ->
  (forall a, F e = Some a ->
             exists b, F (update_unit e n) = Some b /\ (a <= b)%Z)
  /\ (forall t, F n = Some t ->
                exists b, F (update_unit e n) = Some b /\ (t <= b)%Z).
Proof.
  intros HF. rewrite (timestamp_field_update F e n HF).
  unfold more_recent.
  destruct (F n) as [t|], (F e) as [o|]; simpl; split;
    try (intros ? H; discriminate H).
  - intros a Ha; injection Ha as <-.
    destruct (Z.ltb_spec o t); eexists; split; try reflexivity; lia.
  - intros t' Ht; injection Ht as <-.
    destruct (Z.ltb_spec o t); eexists; split; try reflexivity; lia.
  - intros t' Ht; injection Ht as <-. exists t; split; [reflexivity | lia].
  - intros a Ha; injection Ha as <-. exists o; split; [reflexivity | lia].
Qed.

Lemma merge_loop_latest (u : option string) (l : list Unit) :
  forall (d : udict) (m0 : Unit),
    keyed_by_id d -> uget u d = Some m0 ->
    exists m,
      uget u (fold_left (merge_step config) l d) = Some m
      /\ (forall F, timestamp_field F ->
                    forall a, F m0 = Some a ->
                              exists b, F m = Some b /\ (a <= b)%Z)
      /\ (forall n, In n l -> unit_id n = u ->
                    forall F, timestamp_field F ->
                              forall t, F n = Some t ->
                                        exists b, F m = Some b /\ (t <= b)%Z).
Proof.
  induction l as [|n l IH]; simpl; intros d m0 Hk Hm0.
  - exists m0. split; [exact Hm0|]. split.
    + intros F _ a Ha; exists a; split; [exact Ha | lia].
    + intros n [].
  - destruct (option_string_eqb (unit_id n) u) eqn:E.
    + apply option_string_eqb_eq in E.
      assert (Hstep : uget u (merge_step config d n)
                      = Some (update_unit m0 n)).
      { unfold merge_step. rewrite E. rewrite Hm0.
        apply (get_set_same _ option_string_eqb_eq). }
      destruct (IH _ _ (merge_step_keyed d n Hk) Hstep)
        as [m [Hm [Hmono Hall]]].
      exists m. split; [exact Hm|]. split.
      * intros F HF a Ha.
        destruct (proj1 (update_unit_latest F m0 n HF) a Ha) as [b [Hb Hab]].
        destruct (Hmono F HF b Hb) as [c [Hc Hbc]].
        exists c; split; [exact Hc | lia].
      * intros n' [<-|Hin] Hid F HF t Ht.
        { destruct (proj2 (update_unit_latest F m0 n HF) t Ht)
            as [b [Hb Htb]].
          destruct (Hmono F HF b Hb) as [c [Hc Hbc]].
          exists c; split; [exact Hc | lia]. }
        exact (Hall n' Hin Hid F HF t Ht).
    + assert (Hne : unit_id n <> u).
      { intros Heq. apply option_string_eqb_eq in Heq. congruence. }
      assert (Hstep : uget u (merge_step config d n) = Some m0).
      { unfold merge_step. destruct (uget (unit_id n) d) as [ex|].
        - unfold uget, uset.
          rewrite (get_set_other _ option_string_eqb_eq); auto.
        - destruct (type_allowed config n); [|exact Hm0].
          unfold uget, uset.
          rewrite (get_set_other _ option_string_eqb_eq); auto. }
      destruct (IH _ _ (merge_step_keyed d n Hk) Hstep)
        as [m [Hm [Hmono Hall]]].
      exists m. split; [exact Hm|]. split; [exact Hmono|].
      intros n' [<-|Hin] Hid; [contradiction | exact (Hall n' Hin Hid)].
Qed.

(** X4.  For a unit that the existing list holds, each timestamp of the
    merged unit is at least as late as the value of every incoming unit
    with the same identifier: the merge keeps the latest value. *)
Theorem merged_timestamp_is_the_latest
    (existing incoming : list Unit) (u : option string) (e m n : Unit)
    (F : Unit -> option datetime) (t : datetime) :
  uget u (units_dict existing) = Some e ->
  In m (merge_unit_details config existing incoming) ->
  unit_id m = u ->
  In n incoming -> unit_id n = u ->
  timestamp_field F ->
  F n = Some t ->
  exists b, F m = Some b /\ (t <= b)%Z.
Proof.
  intros He Hm Hid Hn Hnid HF Ht.
  destruct (merge_loop_latest u incoming (units_dict existing) e
              (keyed_by_id_units_dict existing) He)
    as [m' [Hm' [_ Hall]]].
  assert (Heq : m = m').
  { pose proof (merge_loop_keyed incoming (units_dict existing)
                  (keyed_by_id_units_dict existing)) as [Hnd Hk].
    unfold merge_unit_details, Dict.values in Hm.
    apply in_map_iff in Hm. destruct Hm as [[k v] [Hv Hin]].
    simpl in Hv; subst v.
    pose proof (Hk _ _ Hin) as Hk'. rewrite Hid in Hk'. subst k.
    apply (In_get _ option_string_eqb_eq) in Hin; [|exact Hnd].
    unfold uget in Hm'. rewrite Hm' in Hin. injection Hin as <-.
    reflexivity. }
  subst m'. exact (Hall n Hn Hnid F HF t Ht).
Qed.

End MoreMergeFacts.

(** ** More on the record extractor *)

(** The last unit of a list that is flagged primary *)
Fixpoint last_primary (units : list Unit) : option Unit :=
  match units with
  | [] => None
  | u :: rest =>
      match last_primary rest with
      | Some q => Some q
      | None => if is_primary u then Some u else None
      end
  end.

Section MoreExtractFacts.

Variable config : Config.
Variable strptime_full strptime_today : string -> option datetime.
Variable fs : string -> option file.

(** The dictionaries of all [Unit] elements, in document order *)
Fixpoint all_units (units : list Element) : outcome (list Unit) :=
  match units with
  | [] => Return []
  | unit :: rest =>
      u <- extract_unit strptime_full strptime_today unit ;;
      us <- all_units rest ;;
      Return (u :: us)
  end.

Lemma extract_units_spec (units : list Element) (acc : list Unit)
    (p : option Unit) (r : list Unit * option Unit) :
  extract_units config strptime_full strptime_today units acc p = Return r ->
  exists all,
    all_units units = Return all
    /\ fst r = acc ++ filter (type_allowed config) all
    /\ snd r = match last_primary all with Some q => Some q | None => p end.
Proof.
  revert acc p; induction units as [|unit rest IH]; simpl; intros acc p.
  - intros H; injection H as <-. exists []. simpl.
    rewrite app_nil_r. auto.
  - destruct (extract_unit strptime_full strptime_today unit) as [u|e];
      simpl; [|discriminate].
    intros H. destruct (IH _ _ H) as [all [Hall [Hfst Hsnd]]].
    exists (u :: all). rewrite Hall. simpl. split; [reflexivity|]. split.
    + rewrite Hfst. destruct (type_allowed config u); simpl;
        [rewrite <- app_assoc|]; reflexivity.
    + rewrite Hsnd. destruct (last_primary all); [reflexivity|].
      destruct (is_primary u); reflexivity.
Qed.

Lemma extract_xml_data_document (path : string) (x : Snapshot) :
  extract_xml_data config strptime_full strptime_today fs path = Ten x ->
  extract_document config strptime_full strptime_today (root x) = Return x.
Proof.
  unfold extract_xml_data.
  destruct (fs path) as [[| |r]|]; try discriminate.
  destruct (extract_document _ _ _ r) as [y|e] eqn:E; [|discriminate].
  intros H; injection H as <-.
  assert (Hr : root y = r).
  { revert E. unfold extract_document.
    destruct (normalise_location _) as [[loc lat] lon].
    destruct (extract_contexts _) as [cs|]; simpl; [|discriminate].
    destruct (extract_units _ _ _ _ _ _) as [u|]; simpl; [|discriminate].
    intros H; injection H as <-. reflexivity. }
  rewrite Hr. exact E.
Qed.

(** X5.  The units of a snapshot are the units of the document whose type
    is not excluded, in document order, and its primary unit is the last
    unit of the document that is flagged primary, whatever its type. *)
Theorem snapshot_units_in_document_order (path : string) (x : Snapshot) :
  extract_xml_data config strptime_full strptime_today fs path = Ten x ->
  exists all,
    all_units (findall [nw "AssignedUnits"; nw "Unit"] (root x)) = Return all
    /\ unit_details x = filter (type_allowed config) all
    /\ primary_unit x = last_primary all.
Proof.
  intros H. apply extract_xml_data_document in H. revert H.
  unfold extract_document.
  destruct (normalise_location _) as [[loc lat] lon].
  destruct (extract_contexts _) as [cs|]; simpl; [|discriminate].
  destruct (extract_units _ _ _ _ _ _) as [r|] eqn:E; simpl; [|discriminate].
  intros H. destruct (extract_units_spec _ _ _ _ E) as [all [Hall [Hf Hs]]].
  exists all.
  assert (Hu : unit_details x = fst r) by (injection H as <-; reflexivity).
  assert (Hp : primary_unit x = snd r) by (injection H as <-; reflexivity).
  assert (Hr : root x = root x) by reflexivity.
  rewrite Hu, Hp, Hf, Hs. simpl.
  split; [|split; [reflexivity | destruct (last_primary all); reflexivity]].
  replace (root x) with
    (root {| call_number := findtext [nw "CallNumber"] (root x);
             close_datetime := findtext [nw "CloseDateTime"] (root x);
             agency_contexts := cs; root := root x; location := loc;
             nature_of_call :=
               findtext [nw "AgencyContexts"; nw "AgencyContext";
                         nw "CallType"] (root x);
             unit_details := fst r; primary_unit := snd r;
             latitude := lat; longitude := lon |}) by reflexivity.
  exact Hall.
Qed.

(** X6.  Latitude and longitude of a snapshot are both set or both
    missing.  When they are missing the location is the full address of the
    document, unchanged; when they are set they are what the scan for
    [LAT:] and [LON:] finds in the full address. *)
Theorem coordinates_come_in_pairs (path : string) (x : Snapshot) :
  extract_xml_data config strptime_full strptime_today fs path = Ten x ->
  let address := findtext [nw "Location"; nw "FullAddress"] (root x) in
  (latitude x = None <-> longitude x = None)
  /\ (latitude x = None -> location x = address)
  /\ (forall lat lon,
        latitude x = Some lat -> longitude x = Some lon ->
        exists a, address = Some a
                  /\ coordinate "LAT:" a = Some lat
                  /\ coordinate "LON:" a = Some lon).
Proof.
  intros H. apply extract_xml_data_document in H. revert H.
  unfold extract_document.
  destruct (normalise_location _) as [[loc lat] lon] eqn:En.
  destruct (extract_contexts _) as [cs|]; simpl; [|discriminate].
  destruct (extract_units _ _ _ _ _ _) as [r|]; simpl; [|discriminate].
  intros H.
  assert (Hl : location x = loc) by (injection H as <-; reflexivity).
  assert (Hla : latitude x = lat) by (injection H as <-; reflexivity).
  assert (Hlo : longitude x = lon) by (injection H as <-; reflexivity).
  rewrite Hl, Hla, Hlo. clear H Hl Hla Hlo.
  revert En. unfold normalise_location.
  destruct (findtext [nw "Location"; nw "FullAddress"] (root x)) as [a|].
  - destruct (truthy (Some a)).
    + destruct (coordinate "LAT:" a) as [la|] eqn:E1.
      * destruct (coordinate "LON:" a) as [lo|] eqn:E2;
          intros H; injection H as <- <- <-.
        { repeat split; try discriminate.
          intros la' lo' H1 H2; injection H1 as <-; injection H2 as <-.
          exists a; auto. }
        { repeat split; auto; discriminate. }
      * intros H; injection H as <- <- <-.
        repeat split; auto; discriminate.
    + intros H; injection H as <- <- <-. repeat split; auto; discriminate.
  - intros H; injection H as <- <- <-. repeat split; auto; discriminate.
Qed.

End MoreExtractFacts.

(** ** More on the address normaliser *)

Lemma get_lt (s : string) (pos : nat) (c : ascii) :
  get pos s = Some c -> pos < String.length s.
Proof.
  revert pos; induction s as [|d t IH]; intros pos; simpl; [discriminate|].
  destruct pos as [|pos]; [lia|]. intros H. apply IH in H. lia.
Qed.

Lemma sub_from_length (icase : bool) (s : string) (r : Re.regex) :
  forall fuel pos,
    String.length (Re.sub_from icase s r fuel pos) <= String.length s - pos.
Proof.
  induction fuel as [|f IH]; intros pos; simpl; [lia|].
  destruct (get pos s) as [c|] eqn:Ec; simpl; [|lia].
  apply get_lt in Ec.
  assert (Hkeep : S (String.length (Re.sub_from icase s r f (S pos)))
                  <= String.length s - pos).
  { pose proof (IH (S pos)). lia. }
  destruct (Re.match_at icase s r pos) as [[e cs]|]; [|exact Hkeep].
  destruct (pos <? e) eqn:Elt; [|exact Hkeep].
  apply Nat.ltb_lt in Elt. pose proof (IH e). lia.
Qed.

Lemma lstrip_length (s : string) : String.length (lstrip s) <= String.length s.
Proof.
  induction s as [|c s IH]; simpl; [lia|].
  destruct (is_space c); simpl; lia.
Qed.

Lemma rstrip_length (s : string) : String.length (rstrip s) <= String.length s.
Proof.
  induction s as [|c s IH]; simpl; [lia|].
  destruct (rstrip s); [destruct (is_space c)|]; simpl in *; lia.
Qed.

(** X7.  [remove_address_numbers] only removes text: the result is not
    longer than the address, and it neither starts nor ends with white
    space. *)
Theorem remove_address_numbers_shrinks (address : string) :
  String.length (remove_address_numbers address) <= String.length address
  /\ lstrip (remove_address_numbers address) = remove_address_numbers address
  /\ rstrip (remove_address_numbers address) = remove_address_numbers address.
Proof.
  unfold remove_address_numbers, strip. split; [|split].
  - eapply Nat.le_trans; [apply rstrip_length|].
    eapply Nat.le_trans; [apply lstrip_length|].
    unfold Re.re_sub_empty.
    pose proof (sub_from_length true address address_pattern
                  (String.length address) 0). lia.
  - apply lstrip_rstrip.
  - apply rstrip_rstrip.
Qed.

(** X8.  [remove_address_numbers] keeps every occurrence of a character
    that is not white space and that no part of the pattern can match:
    anything but digits, white space, [#] and the letters of the marker
    words; commas, periods, colons and signs stay in place. *)
Theorem remove_address_numbers_keeps (ch : ascii) (address : string) :
  avoids true ch address_pattern = true ->
  is_space ch = false ->
  count_char ch (remove_address_numbers address) = count_char ch address.
Proof.
  intros Hav Hsp. unfold remove_address_numbers.
  rewrite count_char_strip by exact Hsp.
  apply re_sub_empty_count. exact Hav.
Qed.

Lemma remove_address_numbers_keeps_witness :
  count_char "." (remove_address_numbers spec_address)
  = count_char "." spec_address.
Proof.
  apply (remove_address_numbers_keeps "." spec_address); reflexivity.
Defined.

(** ** More on classification and filtering *)

Section MoreClassifyFacts.

Variable config : Config.
Variable fnmatch : string -> string -> bool.
Variable strptime_full strptime_today : string -> option datetime.
Variable now : datetime.

(** The type of the unit is one of the fire-like types. *)
Definition fire_like (u : Unit) : bool :=
  in_list (lower (unit_type u)) fire_types.

(** The identifier of the unit matches an excluded pattern. *)
Definition excluded_id (u : Unit) : bool :=
  match unit_id u with
  | Some i => is_excluded_unit fnmatch (lower i) (excluded_units config)
  | None => false
  end.

Lemma scan_units_spec (units : list Unit) (s0 s : Scan) :
  scan_units config fnmatch units s0 = Return s ->
  Forall (fun u => unit_id u <> None) units
  /\ fire_units_dispatched s
     = fire_units_dispatched s0 || existsb fire_like units
  /\ has_excluded_unit s = has_excluded_unit s0 || existsb excluded_id units
  /\ scan_primary_unit s
     = match last_primary units with
       | Some q => Some q
       | None => scan_primary_unit s0
       end.
Proof.
  revert s0; induction units as [|u rest IH]; intros s0.
  - simpl. intros H; injection H as <-. rewrite !orb_false_r. auto.
  - cbn [scan_units existsb last_primary]. unfold scan_unit.
    destruct (unit_id u) as [i|] eqn:Ei; cbn [attr bind]; [|discriminate].
    intros H. destruct (IH _ H) as [Hids [Hfire [Hex Hprim]]].
    cbn [fire_units_dispatched has_excluded_unit scan_primary_unit] in *.
    split; [constructor; [congruence | exact Hids]|].
    split; [rewrite Hfire; unfold fire_like at 2; symmetry; apply orb_assoc|].
    assert (Hid : excluded_id u
                  = is_excluded_unit fnmatch (lower i) (excluded_units config))
      by (unfold excluded_id; rewrite Ei; reflexivity).
    split; [rewrite Hex, Hid; symmetry; apply orb_assoc|].
    rewrite Hprim. destruct (last_primary rest); [reflexivity|].
    destruct (is_primary u); reflexivity.
Qed.

(** A classification that ends in a decision: the scan, and the checks on
    the scan with the agency flags added. *)
Lemma classify_decision (primary_units : sdict string) (cn : string)
    (x : Snapshot) (primary_units' : sdict string) (d : decision) :
  classify config fnmatch primary_units cn x = (primary_units', Return d) ->
  exists s s',
    scan_units config fnmatch (unit_details x) (initial_scan x) = Return s
    /\ checks config primary_units' cn x s' = Return d
    /\ scan_primary_unit s' = scan_primary_unit s
    /\ has_excluded_unit s' = has_excluded_unit s
    /\ fire_units_dispatched s' = fire_units_dispatched s.
Proof.
  unfold classify.
  destruct (scan_units config fnmatch (unit_details x) (initial_scan x))
    as [s|e] eqn:Es; [|intros H; inversion H].
  destruct (scan_primary_unit s) as [pu|] eqn:Ep.
  - intros H; injection H as <- H.
    destruct (nature_of_call x) as [noc|]; simpl in H; [|discriminate].
    exists s. eexists. split; [reflexivity|]. split; [exact H|].
    simpl. auto.
  - intros H; injection H as <- H. exists s, s. auto.
Qed.

Lemma checks_keep (primary_units : sdict string) (cn : string)
    (x : Snapshot) (s : Scan) :
  checks config primary_units cn x s = Return Keep ->
  has_excluded_unit s = false
  /\ sget cn primary_units <> Some "EMS"
  /\ (sget cn primary_units = Some "Police" ->
      fire_units_dispatched s = true)
  /\ exists noc, nature_of_call x = Some noc
                 /\ in_list (lower noc) (excluded_call_types config) = false.
Proof.
  unfold checks, excluded_unit_types_table.
  destruct (match scan_primary_unit s with
            | Some pu => _
            | None => Return false
            end) as [[|]|]; simpl; try discriminate.
  destruct (has_excluded_unit s); [discriminate|].
  destruct (option_string_eqb (sget cn primary_units) (Some "EMS")) eqn:E1;
    [discriminate|].
  destruct (option_string_eqb (sget cn primary_units) (Some "Police")) eqn:E2;
    simpl.
  - destruct (fire_units_dispatched s); simpl; [|discriminate].
    destruct (nature_of_call x) as [noc|]; simpl; [|discriminate].
    destruct (in_list (lower noc) (excluded_call_types config)) eqn:E3;
      [discriminate|].
    intros _. repeat split; auto.
    + intros H; apply option_string_eqb_eq in H; congruence.
    + exists noc; auto.
  - destruct (nature_of_call x) as [noc|]; simpl; [|discriminate].
    destruct (in_list (lower noc) (excluded_call_types config)) eqn:E3;
      [discriminate|].
    intros _. repeat split; auto.
    + intros H; apply option_string_eqb_eq in H; congruence.
    + intros H; apply option_string_eqb_eq in H; congruence.
    + exists noc; auto.
Qed.

(** What a kept snapshot looks like *)
Definition keepable (primary_units : sdict string) (cn : string)
    (x : Snapshot) : Prop :=
  Forall (fun u => unit_id u <> None /\ excluded_id u = false)
         (unit_details x)
  /\ (exists noc, nature_of_call x = Some noc
                  /\ in_list (lower noc) (excluded_call_types config) = false)
  /\ sget cn primary_units <> Some "EMS"
  /\ (sget cn primary_units = Some "Police" ->
      exists u, In u (unit_details x) /\ fire_like u = true).

Lemma classify_keep (primary_units : sdict string) (cn : string)
    (x : Snapshot) (primary_units' : sdict string) :
  classify config fnmatch primary_units cn x = (primary_units', Return Keep) ->
  keepable primary_units' cn x.
Proof.
  intros H. destruct (classify_decision _ _ _ _ _ H)
    as [s [s' [Hs [Hc [_ [Hx Hf]]]]]].
  destruct (scan_units_spec _ _ _ Hs) as [Hids [Hfire [Hex _]]].
  destruct (checks_keep _ _ _ _ Hc) as [H1 [H2 [H3 H4]]].
  rewrite Hx, Hex in H1. simpl in H1.
  split; [|split; [exact H4 | split; [exact H2|]]].
  - rewrite Forall_forall in *. intros u Hu. split; [exact (Hids u Hu)|].
    destruct (excluded_id u) eqn:E; [|reflexivity].
    assert (Ht : existsb excluded_id (unit_details x) = true)
      by (apply existsb_exists; exists u; auto).
    congruence.
  - intros Hp. specialize (H3 Hp). rewrite Hf, Hfire in H3. simpl in H3.
    apply existsb_exists in H3. exact H3.
Qed.

(** X9.  A snapshot that the classification keeps has a number for every
    unit, none of which matches an excluded pattern, a call type that is
    not excluded, an agency that is not EMS and, when the agency is Police,
    a fire-like unit. *)
Theorem kept_snapshot_is_clean (primary_units : sdict string) (cn : string)
    (x : Snapshot) (primary_units' : sdict string) :
  classify config fnmatch primary_units cn x = (primary_units', Return Keep) ->
  Forall (fun u => unit_id u <> None /\ excluded_id u = false)
         (unit_details x)
  /\ (exists noc, nature_of_call x = Some noc
                  /\ in_list (lower noc) (excluded_call_types config) = false)
  /\ sget cn primary_units' <> Some "EMS"
  /\ (sget cn primary_units' = Some "Police" ->
      exists u, In u (unit_details x) /\ fire_like u = true).
Proof. apply classify_keep. Qed.

(** X10.  The classification drops a snapshot as a Police call only when
    none of its units has a fire-like type. *)
Theorem police_drop_has_no_fire_unit (primary_units : sdict string)
    (cn : string) (x : Snapshot) (primary_units' : sdict string) :
  classify config fnmatch primary_units cn x
  = (primary_units', Return (Drop AgencyIsPoliceNoFireUnits)) ->
  sget cn primary_units' = Some "Police"
  /\ Forall (fun u => fire_like u = false) (unit_details x).
Proof.
  intros H. destruct (classify_decision _ _ _ _ _ H)
    as [s [s' [Hs [Hc [_ [_ Hf]]]]]].
  destruct (scan_units_spec _ _ _ Hs) as [_ [Hfire _]].
  assert (Hp : sget cn primary_units' = Some "Police"
               /\ fire_units_dispatched s' = false).
  { revert Hc. unfold checks, excluded_unit_types_table.
    destruct (match scan_primary_unit s' with
              | Some pu => _
              | None => Return false
              end) as [[|]|]; simpl; try discriminate.
    destruct (has_excluded_unit s'); [discriminate|].
    destruct (option_string_eqb (sget cn primary_units') (Some "EMS"));
      [discriminate|].
    destruct (option_string_eqb (sget cn primary_units') (Some "Police"))
      eqn:E2; simpl.
    - destruct (fire_units_dispatched s'); simpl.
      + destruct (nature_of_call x) as [noc|]; simpl; [|discriminate].
        destruct (in_list _ _); discriminate.
      + intros _. apply option_string_eqb_eq in E2. auto.
    - destruct (nature_of_call x) as [noc|]; simpl; [|discriminate].
      destruct (in_list _ _); discriminate. }
  destruct Hp as [Hp Hno]. split; [exact Hp|].
  rewrite Hf, Hfire in Hno. simpl in Hno.
  rewrite Forall_forall. intros u Hu.
  destruct (fire_like u) eqn:E; [|reflexivity].
  assert (Ht : existsb fire_like (unit_details x) = true)
    by (apply existsb_exists; exists u; auto).
  congruence.
Qed.

End MoreClassifyFacts.

(** ** More on the aggregation pass *)

Section MorePassFacts.

Variable config : Config.
Variable fnmatch : string -> string -> bool.
Variable strptime_full strptime_today : string -> option datetime.
Variable fs : string -> option file.
Variable now : datetime.

Local Abbreviation snapshot_at :=
  (extract_xml_data config strptime_full strptime_today fs).
Local Abbreviation one_file :=
  (process_file config fnmatch strptime_full strptime_today fs now).
Local Abbreviation all_files :=
  (process_files config fnmatch strptime_full strptime_today fs now).
Local Abbreviation in_try :=
  (try_block config fnmatch strptime_full strptime_today now).
Local Abbreviation kept :=
  (keep_call config strptime_full strptime_today now).
Local Abbreviation whole_pass :=
  (process_xml_files config fnmatch strptime_full strptime_today fs now).

(** The ways in which the [try] block ends: the file is skipped, dropped
    or kept. *)
Lemma try_block_cases (st : PassState) (cn : string) (x : Snapshot)
    (f : string) :
  exists pu d,
    classify config fnmatch (primary_units st) cn x = (pu, d)
    /\ ((in_try st cn x f = with_primary_units st pu /\ d <> Return Keep
         /\ (forall r, d <> Return (Drop r)))
        \/ (in_try st cn x f = with_primary_units st pu /\ d = Return Keep
            /\ exists e, kept (with_primary_units st pu) cn x = Raise e)
        \/ (in_try st cn x f = mark_for_deletion (with_primary_units st pu) f
            /\ exists r, d = Return (Drop r))
        \/ (d = Return Keep
            /\ kept (with_primary_units st pu) cn x
               = Return (in_try st cn x f))).
Proof.
  unfold try_block.
  destruct (classify config fnmatch (primary_units st) cn x) as [pu d].
  exists pu, d. split; [reflexivity|].
  destruct d as [[|r]|e].
  - destruct (kept (with_primary_units st pu) cn x) as [st'|e] eqn:E.
    + right; right; right. auto.
    + right; left. repeat split; auto. exists e; reflexivity.
  - right; right; left. split; [reflexivity | exists r; reflexivity].
  - left. repeat split; [discriminate | intros r; discriminate].
Qed.

(** X11.  With a configuration that has no [excluded_unit_types] entry, a
    snapshot with a primary unit is neither kept nor dropped: the lookup
    raises [KeyError] inside the [try] block, and the block only records
    the agency of the primary unit. *)
Theorem missing_unit_types_table_skips_the_file
    (st : PassState) (cn : string) (x : Snapshot) (f : string)
    (s : Scan) (pu : Unit) (noc : string) :
  excluded_unit_types config = None ->
  scan_units config fnmatch (unit_details x) (initial_scan x) = Return s ->
  scan_primary_unit s = Some pu ->
  nature_of_call x = Some noc ->
  in_try st cn x f
  = with_primary_units st
      (sset cn (agency_of config (jurisdiction pu)) (primary_units st)).
Proof.
  intros Hcfg Hs Hp Hn. unfold try_block, classify.
  rewrite Hs, Hp, Hn. simpl.
  unfold checks, excluded_unit_types_table. simpl. rewrite ?Hp, Hcfg. simpl.
  reflexivity.
Qed.

Lemma keep_call_needs (st st' : PassState) (cn : string) (x : Snapshot) :
  kept st cn x = Return st' ->
  location x <> None /\ nature_of_call x <> None.
Proof.
  unfold keep_call.
  destruct (location x); simpl; [|discriminate].
  destruct (nature_of_call x); simpl; [|discriminate].
  intros _; split; discriminate.
Qed.

(** X12.  A snapshot without call type, without location, or with a unit
    that has no number is never kept: the [try] block leaves the groups and
    the registry as they are. *)
Theorem incomplete_snapshot_is_not_kept
    (st : PassState) (cn : string) (x : Snapshot) (f : string) :
  nature_of_call x = None \/ location x = None
  \/ (exists u, In u (unit_details x) /\ unit_id u = None) ->
  location_calls (in_try st cn x f) = location_calls st
  /\ call_display_times (in_try st cn x f) = call_display_times st.
Proof.
  intros Hinc.
  destruct (try_block_cases st cn x f)
    as [pu [d [Hc [[-> _]|[[-> _]|[[-> _]|[-> Hk]]]]]]]; auto.
  exfalso. apply classify_keep in Hc.
  destruct Hc as [Hids [[noc [Hn _]] _]].
  destruct (keep_call_needs _ _ _ _ Hk) as [Hl _].
  destruct Hinc as [H|[H|[u [Hu Hid]]]]; try congruence.
  rewrite Forall_forall in Hids. exact (proj1 (Hids u Hu) Hid).
Qed.

(** The name has the form that the second loop accepts. *)
Definition well_named (f : string) : Prop :=
  Re.re_match false filename_pattern (basename f) <> None.

Lemma keep_call_bookkeeping (st st' : PassState) (cn : string)
    (x : Snapshot) :
  kept st cn x = Return st' ->
  files_to_delete st' = files_to_delete st
  /\ latest_call_files st' = latest_call_files st
  /\ sget cn (call_display_times st') <> None
  /\ (forall k, sget k (call_display_times st) <> None ->
                sget k (call_display_times st') <> None).
Proof.
  unfold keep_call.
  destruct (location x); simpl; [|discriminate].
  destruct (nature_of_call x); simpl; [|discriminate].
  intros H; injection H as <-. simpl. repeat split.
  - unfold smem, Dict.mem.
    destruct (Dict.get String.eqb cn (call_display_times st)) eqn:E.
    + unfold sget. rewrite E. discriminate.
    + unfold sget, sset. rewrite (get_set_same _ String.eqb_eq). discriminate.
  - intros k Hk. destruct (smem cn (call_display_times st)); [exact Hk|].
    destruct (String.eqb_spec cn k) as [->|Hne].
    + unfold sget, sset. rewrite (get_set_same _ String.eqb_eq). discriminate.
    + unfold sget, sset.
      rewrite (get_set_other _ String.eqb_eq); [exact Hk | exact Hne].
Qed.

Lemma try_block_marks (st : PassState) (cn : string) (x : Snapshot)
    (f : string) :
  files_to_delete (in_try st cn x f) = files_to_delete st
  \/ files_to_delete (in_try st cn x f) = files_to_delete st ++ [f].
Proof.
  destruct (try_block_cases st cn x f)
    as [pu [d [_ [[-> _]|[[-> _]|[[-> _]|[_ Hk]]]]]]]; simpl; auto.
  left. exact (proj1 (keep_call_bookkeeping _ _ _ _ Hk)).
Qed.

(** What one file may add to the delete list and to the latest files *)
Lemma process_file_marks (closed : list string) (st st' : PassState)
    (f : string) :
  one_file closed st f = Return st' ->
  (forall g, In g (files_to_delete st') ->
             In g (files_to_delete st)
             \/ (g = f /\ well_named f)
             \/ exists cn, sget cn (latest_call_files st) = Some g)
  /\ (forall cn g, sget cn (latest_call_files st') = Some g ->
                   sget cn (latest_call_files st) = Some g
                   \/ (g = f /\ well_named f)).
Proof.
  unfold process_file, well_named.
  destruct (fs f); [|intros H; injection H as <-; auto].
  destruct (Re.re_match _ _ _) as [groups|] eqn:Em;
    [|intros H; injection H as <-; auto].
  assert (Hname : Some groups <> None) by discriminate.
  destruct (snapshot_at f) as [x|]; simpl; [|discriminate].
  destruct (call_number x) as [cn|];
    [|intros H; injection H as <-; auto].
  destruct (truthy (Some cn)); [|intros H; injection H as <-; auto].
  destruct (in_list cn closed).
  { intros H; injection H as <-. simpl. split; [|auto].
    intros g Hg. apply in_app_or in Hg. destruct Hg as [Hg|[<-|[]]]; auto. }
  destruct (match Re.group 2 groups with Some _ => _ | None => _ end)
    as [cur|]; simpl; [|discriminate].
  destruct (file_number _) as [prev|]; simpl; [|discriminate].
  assert (Hlatest :
            forall s0, latest_call_files s0 = latest_call_files st ->
                       forall c g,
                         sget c (latest_call_files
                                   (in_try (accept_file s0 cn f) cn x f))
                         = Some g ->
                         sget c (latest_call_files st) = Some g
                         \/ (g = f /\ Some groups <> None)).
  { intros s0 Hs0 c g.
    rewrite (proj1 (try_block_bookkeeping config fnmatch strptime_full
                      strptime_today now _ cn x f)). simpl. rewrite Hs0.
    destruct (String.eqb_spec cn c) as [->|Hne].
    - unfold sget, sset. rewrite (get_set_same _ String.eqb_eq).
      intros H; injection H as <-. auto.
    - unfold sget, sset. rewrite (get_set_other _ String.eqb_eq); auto. }
  destruct (in_list cn (processed_call_numbers st)).
  - destruct (Z.ltb prev cur); [|intros H; injection H as <-; auto].
    destruct (sget cn (latest_call_files st)) as [latest|] eqn:El;
      [|discriminate].
    intros H; injection H as <-. split; [|apply Hlatest; reflexivity].
    intros g Hg.
    destruct (try_block_marks (accept_file (mark_for_deletion st latest) cn f)
                cn x f) as [E|E]; rewrite E in Hg; simpl in Hg.
    + apply in_app_or in Hg. destruct Hg as [Hg|[<-|[]]]; auto.
      right; right; exists cn; exact El.
    + apply in_app_or in Hg. destruct Hg as [Hg|[<-|[]]]; auto.
      apply in_app_or in Hg. destruct Hg as [Hg|[<-|[]]]; auto.
      right; right; exists cn; exact El.
  - intros H; injection H as <-. split; [|apply Hlatest; reflexivity].
    intros g Hg.
    destruct (try_block_marks (accept_file st cn f) cn x f) as [E|E];
      rewrite E in Hg; simpl in Hg; auto.
    apply in_app_or in Hg. destruct Hg as [Hg|[<-|[]]]; auto.
Qed.

Lemma all_files_invariant (P : PassState -> Prop) (closed : list string)
    (xml_files : list string) (st st' : PassState) :
  (forall a f b, In f xml_files -> P a -> one_file closed a f = Return b ->
                 P b) ->
  P st -> all_files closed xml_files st = Return st' -> P st'.
Proof.
  revert st; induction xml_files as [|f rest IH]; simpl; intros st Hstep Hst.
  - intros H; injection H as <-; exact Hst.
  - destruct (one_file closed st f) as [st1|] eqn:E; simpl; [|discriminate].
    apply IH.
    + intros a g b Hg; apply Hstep; right; exact Hg.
    + eapply Hstep; [left; reflexivity | exact Hst | exact E].
Qed.

(** X13.  Every file in the delete list of a pass is one of the files
    that the pass was given, and its name has the form
    [<digits>_<digits>.xml], possibly with the backup suffix: the pass
    marks nothing else for deletion. *)
Theorem only_staged_files_are_marked
    (registry : sdict datetime) (xml_files : list string)
    (calls : list Call) (del : list string) (registry' : sdict datetime)
    (f : string) :
  whole_pass registry xml_files = Return (calls, del, registry') ->
  In f del ->
  In f xml_files /\ well_named f.
Proof.
  intros Hpass Hf.
  destruct (pass_returns _ _ _ _ _ _ _ _ _ _ _ Hpass)
    as [closed [st [ks [_ [Hst [_ [_ [-> _]]]]]]]].
  assert (Hinv :
            (forall g, In g (files_to_delete st) ->
                       In g xml_files /\ well_named g)
            /\ (forall cn g, sget cn (latest_call_files st) = Some g ->
                             In g xml_files /\ well_named g)).
  { apply (all_files_invariant
             (fun s => (forall g, In g (files_to_delete s) ->
                                  In g xml_files /\ well_named g)
                       /\ (forall cn g,
                              sget cn (latest_call_files s) = Some g ->
                              In g xml_files /\ well_named g))
             closed xml_files (initial_state registry) st); auto.
    - intros a g b Hg [Ha1 Ha2] Hstep.
      destruct (process_file_marks _ _ _ _ Hstep) as [H1 H2]. split.
      + intros h Hh. destruct (H1 h Hh) as [H|[[-> H]|[cn H]]]; auto.
        exact (Ha2 cn h H).
      + intros cn h Hh. destruct (H2 cn h Hh) as [H|[-> H]]; auto.
        exact (Ha2 cn h H).
    - split; [intros g [] | intros cn g H; discriminate H]. }
  exact (proj1 Hinv f Hf).
Qed.





Lemma insert_desc_sorted {A} (x : Z * A) (l : list (Z * A)) :
  StronglySorted (fun a b => (fst b <= fst a)%Z) l ->
  StronglySorted (fun a b => (fst b <= fst a)%Z) (insert_desc x l).
Proof.
  induction l as [|y l IH]; simpl; intros Hs.
  - constructor; [constructor | constructor].
  - inversion Hs as [|? ? Hl Hy]; subst.
    destruct (Z.leb_spec (fst x) (fst y)).
    + constructor; [exact (IH Hl)|].
      rewrite Forall_forall in *. intros z Hz.
      apply insert_desc_In in Hz. destruct Hz as [->|Hz]; auto.
    + constructor; [exact Hs|].
      constructor; [lia|].
      rewrite Forall_forall in *. intros z Hz. specialize (Hy z Hz). lia.
Qed.

Lemma sorted_desc_sorted {A} (l : list (Z * A)) :
  StronglySorted (fun a b => (fst b <= fst a)%Z) (sorted_desc l).
Proof.
  unfold sorted_desc.
  assert (G : forall acc,
             StronglySorted (fun a b : Z * A => (fst b <= fst a)%Z) acc ->
             StronglySorted (fun a b : Z * A => (fst b <= fst a)%Z)
               (fold_left (fun acc x => insert_desc x acc) l acc)).
  { induction l as [|x l IH]; simpl; intros acc Hacc; [exact Hacc|].
    apply IH, insert_desc_sorted, Hacc. }
  apply G. constructor.
Qed.

Lemma keyed_keys (l : list CallInfo) (ks : list (Z * CallInfo)) :
  keyed l = Return ks ->
  Forall (fun kg => sort_key (snd kg) = Return (fst kg)) ks.
Proof.
  revert ks; induction l as [|g l IH]; simpl; intros ks.
  - intros H; injection H as <-; constructor.
  - destruct (sort_key g) as [k|e] eqn:Ek; simpl; [|discriminate].
    destruct (keyed l) as [ks'|e]; simpl; [|discriminate].
    intros H; injection H as <-. constructor; [exact Ek | exact (IH _ eq_refl)].
Qed.

(** The number by which a returned call was sorted *)
Definition call_key (c : Call) : Z :=
  match sort_key (info c) with
  | Return z => z
  | Raise _ => 0%Z
  end.

(** X15.  The calls that a pass returns are in descending order of the
    number of their first call identifier, and each has at least one call
    identifier, which reads as an integer. *)
Theorem returned_calls_are_sorted
    (registry : sdict datetime) (xml_files : list string)
    (calls : list Call) (del : list string) (registry' : sdict datetime) :
  whole_pass registry xml_files = Return (calls, del, registry') ->
  StronglySorted (fun a b => (call_key b <= call_key a)%Z) calls
  /\ Forall (fun c => exists first rest z,
                        call_numbers (info c) = first :: rest
                        /\ py_int first = Some z /\ call_key c = z) calls.
Proof.
  intros Hpass.
  destruct (pass_returns _ _ _ _ _ _ _ _ _ _ _ Hpass)
    as [closed [st [ks [_ [_ [Hks [-> _]]]]]]].
  pose proof (keyed_keys _ _ Hks) as Hkeys.
  assert (Hsorted_keys :
            Forall (fun kg => sort_key (snd kg) = Return (fst kg))
                   (sorted_desc ks)).
  { rewrite Forall_forall in *. intros kg Hkg.
    apply Hkeys. apply sorted_desc_In. exact Hkg. }
  pose proof (sorted_desc_sorted ks) as Hs.
  clear Hks Hkeys Hpass. revert Hsorted_keys Hs.
  induction (sorted_desc ks) as [|[k g] l IH]; simpl; intros Hsorted_keys Hs.
  - split; constructor.
  - inversion Hs as [|? ? Hl Hk]; subst.
    inversion Hsorted_keys as [|? ? Hg Hrest]; subst. simpl in Hg.
    destruct (IH Hrest Hl) as [IH1 IH2].
    assert (Hkey : call_key (finish g) = k).
    { unfold call_key. simpl. rewrite Hg. reflexivity. }
    split.
    + constructor; [exact IH1|].
      rewrite Forall_forall in *. intros c Hc.
      apply in_map_iff in Hc. destruct Hc as [g' [<- Hg']].
      apply in_map_iff in Hg'. destruct Hg' as [[k' g''] [Hs' Hin]].
      simpl in Hs'; subst g''.
      specialize (Hk _ Hin). specialize (Hrest _ Hin). simpl in *.
      rewrite Hkey. unfold call_key. simpl. rewrite Hrest. exact Hk.
    + constructor; [|exact IH2].
      revert Hg Hkey. unfold sort_key. simpl.
      destruct (call_numbers g) as [|first rest]; [discriminate|].
      destruct (py_int first) as [z|] eqn:Ez; [|discriminate].
      intros H Hkey; injection H as <-.
      exists first, rest, z. auto.
Qed.

End MorePassFacts.

(** ** Two passes over the same files *)



Section Lockstep.

Variable config : Config.
Variable fnmatch : string -> string -> bool.
Variable strptime_full strptime_today : string -> option datetime.
Variable fs : string -> option file.
Variable now1 now2 : datetime.

Local Abbreviation file1 :=
  (process_file config fnmatch strptime_full strptime_today fs now1).
Local Abbreviation file2 :=
  (process_file config fnmatch strptime_full strptime_today fs now2).
Local Abbreviation files1 :=
  (process_files config fnmatch strptime_full strptime_today fs now1).
Local Abbreviation files2 :=
  (process_files config fnmatch strptime_full strptime_today fs now2).
Local Abbreviation try1 :=
  (try_block config fnmatch strptime_full strptime_today now1).
Local Abbreviation try2 :=
  (try_block config fnmatch strptime_full strptime_today now2).





Local Abbreviation pass1 :=
  (process_xml_files config fnmatch strptime_full strptime_today fs now1).
Local Abbreviation pass2 :=
  (process_xml_files config fnmatch strptime_full strptime_today fs now2).







End Lockstep.

(** ** More on the retention sweeper *)

(** X18.  A call is due for removal exactly when the registry holds it
    with a display time that lies 361 minutes or more in the past: the age
    is counted in whole minutes and must exceed 360. *)
Theorem expiry_is_from_361_minutes (now : datetime)
    (registry : sdict datetime) (cn : string) :
  In cn (to_remove now registry)
  <-> exists t, In (cn, t) registry /\ (361 * minute <= now - t)%Z.
Proof. apply to_remove_spec. Qed.

Section MoreSweepFacts.

Variable config : Config.
Variable strptime_full strptime_today : string -> option datetime.
Variable fs : string -> option file.
Variable now : datetime.

(** X19.  When every staged [.xml] file can be read, a turn of the sweeper
    ends without exception, removes from the registry the calls that are
    due and no other, and removes from the staging directory the exports
    of those calls and no other file. *)
Theorem readable_sweep_removes_what_is_due (registry : sdict datetime)
    (staging : list string) :
  readable config strptime_full strptime_today fs staging ->
  NoDup staging ->
  exists registry' staging',
    cleanup_old_calls config strptime_full strptime_today fs now
      registry staging
    = (registry', staging', None)
    /\ (forall cn, sget cn registry'
                   = if in_list cn (to_remove now registry) then None
                     else sget cn registry)
    /\ forall n, In n staging'
                 <-> In n staging
                     /\ ~ exists cn,
                            In cn (to_remove now registry)
                            /\ backs config strptime_full strptime_today fs
                                 cn n.
Proof. apply cleanup_old_calls_readable. Qed.

Lemma remove_name_incl (name : string) (staging : list string) :
  incl (remove_name name staging) staging.
Proof.
  induction staging as [|f rest IH]; simpl; [apply incl_refl|].
  destruct (String.eqb f name).
  - apply incl_tl, incl_refl.
  - intros n [<-|H]; [left; reflexivity | right; apply IH; exact H].
Qed.

Lemma remove_call_files_incl (cn : string) (listing staging : list string) :
  incl (fst (remove_call_files config strptime_full strptime_today fs
               cn listing staging)) staging.
Proof.
  revert staging; induction listing as [|f rest IH]; simpl; intros staging.
  - apply incl_refl.
  - destruct (endswith f ".xml"); [|apply IH].
    destruct (unpack10 _) as [x|e]; simpl; [|apply incl_refl].
    destruct (option_string_eqb _ _); [|apply IH].
    eapply incl_tran; [apply IH | apply remove_name_incl].
Qed.

Lemma expire_safe (calls : list string) :
  forall (registry : sdict datetime) (staging : list string),
    let r := expire config strptime_full strptime_today fs calls
               registry staging in
    (forall cn, ~ In cn calls -> sget cn (fst (fst r)) = sget cn registry)
    /\ (forall cn, sget cn (fst (fst r)) = None
                   \/ sget cn (fst (fst r)) = sget cn registry)
    /\ incl (snd (fst r)) staging.
Proof.
  induction calls as [|c rest IH]; simpl; intros registry staging.
  - repeat split; auto using incl_refl.
  - pose proof (remove_call_files_incl c staging staging) as Hincl.
    destruct (remove_call_files config strptime_full strptime_today fs
                c staging staging) as [s1 [e|]]; simpl in *.
    + repeat split; auto.
      * intros cn Hcn. apply (get_del_other _ String.eqb_eq). tauto.
      * intros cn. destruct (String.eqb_spec c cn) as [->|Hne].
        { left. apply get_del_same. }
        right. apply (get_del_other _ String.eqb_eq). exact Hne.
    + destruct (IH (sdel c registry) s1) as [H1 [H2 H3]].
      repeat split.
      * intros cn Hcn. rewrite H1 by tauto.
        apply (get_del_other _ String.eqb_eq). tauto.
      * intros cn. destruct (H2 cn) as [H|H]; [left; exact H|].
        rewrite H. destruct (String.eqb_spec c cn) as [->|Hne].
        { left. apply get_del_same. }
        right. apply (get_del_other _ String.eqb_eq). exact Hne.
      * eapply incl_tran; eassumption.
Qed.

(** X20.  Whatever the staging directory holds, and also when the turn is
    cut short by an exception, the sweeper never changes the registry
    entry of a call that is not due, never adds or alters an entry, and
    never adds a file. *)
Theorem sweep_only_removes (registry : sdict datetime)
    (staging : list string) (registry' : sdict datetime)
    (staging' : list string) (e : option exn) :
  cleanup_old_calls config strptime_full strptime_today fs now
    registry staging
  = (registry', staging', e) ->
  (forall cn, ~ In cn (to_remove now registry) ->
              sget cn registry' = sget cn registry)
  /\ (forall cn, sget cn registry' = None
                 \/ sget cn registry' = sget cn registry)
  /\ incl staging' staging.
Proof.
  unfold cleanup_old_calls. intros H.
  pose proof (expire_safe (to_remove now registry) registry staging) as Hs.
  simpl in Hs. rewrite H in Hs. exact Hs.
Qed.

End MoreSweepFacts.

(** ** The loops around the pass *)

(** X21.  The log filter lets every message through once: of the records
    of a run it passes those that were not logged before, each at its first
    occurrence only, and it remembers every record it has seen. *)
Theorem log_filter_passes_each_message_once
    (logged_messages records : list string) :
  NoDup (fst (filter_records logged_messages records))
  /\ (forall m, In m (fst (filter_records logged_messages records))
                <-> In m records /\ ~ In m logged_messages)
  /\ forall m, In m (snd (filter_records logged_messages records))
               <-> In m logged_messages \/ In m records.
Proof.
  revert logged_messages.
  induction records as [|r rest IH]; intros logged; simpl.
  - repeat split; try constructor; try tauto.
  - unfold dedup_filter.
    destruct (in_list r logged) eqn:E.
    + apply in_list_In in E.
      destruct (IH logged) as [H1 [H2 H3]].
      destruct (filter_records logged rest) as [out final]; simpl in *.
      split; [exact H1|]. split.
      * intros m. rewrite H2. split; [tauto|].
        intros [[<-|H] Hn]; [contradiction | tauto].
      * intros m. rewrite H3. split; [tauto|].
        intros [H|[<-|H]]; tauto.
    + assert (Hr : ~ In r logged).
      { intros H. apply in_list_In in H. congruence. }
      destruct (IH (r :: logged)) as [H1 [H2 H3]].
      destruct (filter_records (r :: logged) rest) as [out final];
        simpl in *.
      split; [|split].
      * constructor; [|exact H1]. intros H. apply H2 in H. tauto.
      * intros m. rewrite H2. split.
        { intros [<-|[H Hn]]; [tauto|]. tauto. }
        intros [[<-|H] Hn]; [tauto|].
        destruct (string_dec r m) as [->|Hne]; [tauto|]. right. tauto.
      * intros m. rewrite H3. tauto.
Qed.

Lemma endswith_name (a b : string) :
  endswith a ".xml" = false -> endswith b ".xml" = true -> a <> b.
Proof. intros Ha Hb ->. congruence. Qed.

Lemma transfer_lookup (source : sdict file) :
  forall (staging : sdict file) (name : string),
    sget name (monitor_and_transfer_files source staging)
    = match sget name staging with
      | Some content => Some content
      | None => if endswith name ".xml" then sget name source else None
      end.
Proof.
  unfold monitor_and_transfer_files.
  induction source as [|[n c] rest IH]; intros staging name; simpl.
  - destruct (sget name staging), (endswith name ".xml"); reflexivity.
  - rewrite IH. unfold transfer_file; simpl.
    destruct (endswith n ".xml") eqn:En.
    + unfold smem, Dict.mem. fold (@sget file).
      destruct (sget n staging) eqn:Es.
      * destruct (sget name staging) eqn:E; [reflexivity|].
        destruct (endswith name ".xml"); [|reflexivity].
        unfold sget at 2; simpl. fold (@sget file).
        destruct (String.eqb_spec n name) as [->|Hne]; [congruence|].
        reflexivity.
      * destruct (String.eqb_spec n name) as [->|Hne].
        { unfold sget, sset.
          rewrite (get_set_same _ String.eqb_eq).
          fold (@sget file). rewrite Es, En. unfold sget; simpl.
          rewrite ?String.eqb_refl; reflexivity. }
        unfold sget at 1, sset.
        rewrite (get_set_other _ String.eqb_eq) by exact Hne.
        fold (@sget file).
        destruct (sget name staging); [reflexivity|].
        destruct (endswith name ".xml"); [|reflexivity].
        unfold sget at 2; simpl.
        destruct (String.eqb_spec n name); [contradiction | reflexivity].
    + destruct (sget name staging) eqn:E; [reflexivity|].
      destruct (endswith name ".xml") eqn:Ex; [|reflexivity].
      unfold sget at 2; simpl.
      destruct (String.eqb_spec n name) as [->|Hne]; [congruence|].
      reflexivity.
Qed.

(** X22.  A turn of the intake loop never overwrites a staged file, and it
    copies a file of the source directory exactly when its name ends in
    [.xml] and no file of that name is staged. *)
Theorem intake_copies_only_missing_exports (source staging : sdict file)
    (name : string) :
  sget name (monitor_and_transfer_files source staging)
  = match sget name staging with
    | Some content => Some content
    | None => if endswith name ".xml" then sget name source else None
    end.
Proof. apply transfer_lookup. Qed.

Lemma In_sget_some {V} (k : string) (v : V) (d : sdict V) :
  In (k, v) d -> sget k d <> None.
Proof.
  induction d as [|[k' v'] d IH]; simpl; [contradiction|].
  intros [H|H].
  - injection H as -> ->. unfold sget; simpl.
    rewrite String.eqb_refl. discriminate.
  - unfold sget; simpl. destruct (String.eqb k' k); [discriminate|].
    apply IH, H.
Qed.

Lemma transfer_settled (staging : sdict file) (entries : sdict file) :
  (forall n c, In (n, c) entries -> endswith n ".xml" = true ->
               sget n staging <> None) ->
  fold_left transfer_file entries staging = staging.
Proof.
  induction entries as [|[n c] rest IH]; intros H; simpl; [reflexivity|].
  assert (E : transfer_file staging (n, c) = staging).
  { unfold transfer_file; simpl.
    destruct (endswith n ".xml") eqn:En; [|reflexivity].
    unfold smem, Dict.mem. fold (@sget file).
    specialize (H n c (or_introl eq_refl) En).
    destruct (sget n staging); [reflexivity | contradiction]. }
  rewrite E. apply IH. intros n' c' Hin. apply (H n' c'). right. exact Hin.
Qed.

(** X23.  A second turn of the intake loop on an unchanged source
    directory copies nothing: the staging directory stays as the first
    turn left it. *)
Theorem intake_is_idempotent (source staging : sdict file) :
  monitor_and_transfer_files source
    (monitor_and_transfer_files source staging)
  = monitor_and_transfer_files source staging.
Proof.
  unfold monitor_and_transfer_files at 1.
  apply transfer_settled. intros n c Hin En.
  rewrite transfer_lookup, En.
  destruct (sget n staging); [discriminate|].
  eapply In_sget_some; exact Hin.
Qed.

Lemma insert_sorted_In (x y : string) (l : list string) :
  In y (insert_sorted x l) <-> y = x \/ In y l.
Proof.
  induction l as [|z l IH]; simpl.
  - split; [intros [<-|[]]; auto | intros [->|[]]; auto].
  - destruct (String.leb x z); simpl; [split; intuition auto|].
    rewrite IH. split; intuition auto.
Qed.

Lemma sort_strings_In (y : string) (l : list string) :
  In y (sort_strings l) <-> In y l.
Proof.
  induction l as [|x l IH]; simpl; [tauto|].
  rewrite insert_sorted_In, IH. split; intuition auto.
Qed.

Lemma insert_sorted_sorted (x : string) (l : list string) :
  Sorted (fun a b => String.leb a b = true) l ->
  Sorted (fun a b => String.leb a b = true) (insert_sorted x l).
Proof.
  induction l as [|z l IH]; simpl; intros Hs.
  - repeat constructor.
  - destruct (String.leb x z) eqn:E.
    + constructor; [exact Hs | constructor; exact E].
    + inversion Hs as [|? ? Hs' Hhd]; subst.
      constructor; [apply IH; exact Hs'|].
      assert (Hzx : String.leb z x = true).
      { destruct (String.leb_total x z) as [H|H]; congruence. }
      destruct l as [|w l]; simpl.
      * constructor; exact Hzx.
      * destruct (String.leb x w); constructor; [exact Hzx|].
        inversion Hhd; assumption.
Qed.

Lemma sort_strings_sorted (l : list string) :
  Sorted (fun a b => String.leb a b = true) (sort_strings l).
Proof.
  induction l as [|x l IH]; simpl; [constructor|].
  apply insert_sorted_sorted, IH.
Qed.

Lemma insert_sorted_perm (x : string) (l : list string) :
  Permutation (x :: l) (insert_sorted x l).
Proof.
  induction l as [|z l IH]; simpl; [apply Permutation_refl|].
  destruct (String.leb x z); [apply Permutation_refl|].
  eapply perm_trans; [apply perm_swap|]. apply perm_skip, IH.
Qed.

Lemma sort_strings_perm (l : list string) :
  Permutation l (sort_strings l).
Proof.
  induction l as [|x l IH]; simpl; [constructor|].
  eapply perm_trans; [apply perm_skip, IH | apply insert_sorted_perm].
Qed.

Section LoopFacts.

Variable config : Config.
Variable fnmatch : string -> string -> bool.
Variable strptime_full strptime_today : string -> option datetime.
Variable now : datetime.

Local Abbreviation path_of := (staged_path config).
Local Abbreviation file_at := (staged_file config).

(** X24.  The files a turn hands to the pass are the staged files whose
    name ends in [.xml], each as often as the directory lists it, under
    their path in the staging directory and in ascending order. *)
Theorem staged_exports_are_listed_in_order (staging : sdict file) :
  Sorted (fun a b => String.leb a b = true)
    (staged_xml_files config staging)
  /\ Permutation
       (map path_of
          (filter (fun name => endswith name ".xml") (Dict.keys staging)))
       (staged_xml_files config staging).
Proof.
  split; [apply sort_strings_sorted | apply sort_strings_perm].
Qed.

Lemma staged_file_removed (p q : string) (staging : sdict file) :
  file_at (os_remove config p staging) q
  = if String.eqb p q then None else file_at staging q.
Proof.
  unfold staged_file, os_remove.
  induction staging as [|[n c] rest IH]; simpl.
  - destruct (String.eqb p q); reflexivity.
  - destruct (String.eqb_spec (path_of n) p) as [Hp|Hp]; simpl.
    + rewrite IH. destruct (String.eqb_spec p q) as [Hq|Hq].
      * reflexivity.
      * destruct (String.eqb_spec (path_of n) q); [congruence|].
        reflexivity.
    + destruct (String.eqb_spec (path_of n) q) as [Hq|Hq].
      * destruct (String.eqb_spec p q); [congruence | reflexivity].
      * exact IH.
Qed.

Lemma delete_files_lookup (files_to_delete : list string) :
  forall (staging : sdict file) (path : string),
    file_at (delete_files config files_to_delete staging) path
    = if in_list path files_to_delete then None else file_at staging path.
Proof.
  unfold delete_files.
  induction files_to_delete as [|f rest IH]; intros staging path; simpl.
  - reflexivity.
  - rewrite IH. rewrite String.eqb_sym.
    destruct (in_list path rest); simpl.
    + now rewrite orb_true_r.
    + rewrite orb_false_r.
      destruct (file_at staging f) eqn:E.
      * apply staged_file_removed.
      * destruct (String.eqb_spec f path) as [->|Hne]; [exact E|].
        reflexivity.
Qed.

(** X25.  Deleting the marked files removes exactly them: afterwards no
    file is found under a marked path, every other path leads to the file
    it led to before, and a marked path without a file is passed over. *)
Theorem delete_files_removes_exactly_the_marked
    (files_to_delete : list string) (staging : sdict file) (path : string) :
  file_at (delete_files config files_to_delete staging) path
  = if in_list path files_to_delete then None else file_at staging path.
Proof. apply delete_files_lookup. Qed.

End LoopFacts.

Section TurnFacts.

Variable config : Config.
Variable fnmatch : string -> string -> bool.
Variable strptime_full strptime_today : string -> option datetime.
Variable now : datetime.

(** In a pass that returns, a well-named file of a call that is closed at
    the source is in the delete list. *)
Lemma closed_file_is_marked (fs : string -> option file)
    (registry : sdict datetime) (xml_files : list string)
    (calls : list Call) (del : list string) (registry' : sdict datetime)
    (f : string) (x : Snapshot) (cn : string) :
  process_xml_files config fnmatch strptime_full strptime_today fs now
    registry xml_files
  = Return (calls, del, registry') ->
  In f xml_files ->
  well_named f ->
  extract_xml_data config strptime_full strptime_today fs f = Ten x ->
  call_number x = Some cn ->
  closed_at_source config strptime_full strptime_today fs xml_files cn ->
  In f del.
Proof.
  intros Hpass Hin Hname Hx Hc Hclosed.
  destruct (pass_returns _ _ _ _ _ _ _ _ _ _ _ Hpass)
    as [closed [st [ks [Hcl [Hst [_ [_ [-> _]]]]]]]].
  assert (Hcn : in_list cn closed = true).
  { apply in_list_In. apply (closed_calls_spec _ _ _ _ _ _ _ Hcl).
    right; exact Hclosed. }
  assert (Ht : truthy (Some cn) = true).
  { destruct Hclosed as [g [y [_ [_ [_ [Ht _]]]]]]; exact Ht. }
  destruct (in_split _ _ Hin) as [l1 [l2 Hsplit]].
  rewrite Hsplit in Hst. apply process_files_app in Hst.
  destruct Hst as [st1 [_ Hst]]. simpl in Hst.
  rewrite (process_file_closed config fnmatch strptime_full strptime_today
             fs now closed st1 f x cn Hname Hx Hc Ht Hcn) in Hst.
  simpl in Hst.
  apply (process_files_invariant config fnmatch strptime_full
           strptime_today fs now
           (fun s => In f (files_to_delete s))
           closed l2 (drop_closed st1 cn f) st); auto.
  - intros a g b _ Ha Hs.
    destruct (step_closed_call _ _ _ _ _ _ closed cn a b g Hcn Hs)
      as [H1 _].
    apply H1, Ha.
  - simpl. apply in_or_app; right; left; reflexivity.
Qed.

(** X26.  After a turn of the processing loop that comes to its end, no
    well-named export of a call that is closed at the source is left in
    the staging directory: the pass marks it and [delete_files] removes
    it. *)
Theorem turn_clears_exports_of_closed_calls
    (registry : sdict datetime) (staging staging' : sdict file)
    (calls : list Call) (registry' : sdict datetime)
    (name : string) (x : Snapshot) (cn : string) :
  check_for_new_files config fnmatch strptime_full strptime_today now
    registry staging
  = (staging', Some (calls, registry')) ->
  In name (Dict.keys staging) ->
  endswith name ".xml" = true ->
  well_named (staged_path config name) ->
  extract_xml_data config strptime_full strptime_today
    (staged_file config staging) (staged_path config name) = Ten x ->
  call_number x = Some cn ->
  closed_at_source config strptime_full strptime_today
    (staged_file config staging) (staged_xml_files config staging) cn ->
  staged_file config staging' (staged_path config name) = None.
Proof.
  unfold check_for_new_files.
  intros Hturn Hname Hxml Hwell Hx Hcn Hclosed.
  destruct (process_xml_files _ _ _ _ _ _ _ _) as [[[c d] r]|e] eqn:Hpass;
    [|discriminate].
  injection Hturn as <- _ _.
  rewrite delete_files_lookup.
  assert (Hin : In (staged_path config name)
                  (staged_xml_files config staging)).
  { apply sort_strings_In, in_map, filter_In. split; assumption. }
  pose proof (closed_file_is_marked _ _ _ _ _ _ _ _ _
                Hpass Hin Hwell Hx Hcn Hclosed) as Hdel.
  apply in_list_In in Hdel. rewrite Hdel. reflexivity.
Qed.

(** X27.  A turn of the processing loop only takes files away: every file
    found in the staging directory afterwards was there before, under the
    same path and with the same content, whether the pass returns or
    raises. *)
Theorem turn_only_deletes
    (registry : sdict datetime) (staging : sdict file) (path : string)
    (content : file) :
  staged_file config
    (fst (check_for_new_files config fnmatch strptime_full strptime_today
            now registry staging)) path
  = Some content ->
  staged_file config staging path = Some content.
Proof.
  unfold check_for_new_files.
  destruct (process_xml_files _ _ _ _ _ _ _ _) as [[[c d] r]|e]; simpl;
    [|auto].
  rewrite delete_files_lookup.
  destruct (in_list path d); [discriminate | auto].
Qed.

End TurnFacts.

(** * The further properties on concrete inputs *)

Import MoreExamples.

Lemma merged_units_have_a_source_witness :
  (exists e, In e [engine_e1] /\ unit_id e = unit_id truck_t2)
  \/ (exists n, In n [engine_e1_later; truck_t2]
                /\ unit_id n = unit_id truck_t2
                /\ type_allowed cfg n = true).
Proof.
  apply (merged_units_have_a_source cfg [engine_e1]
           [engine_e1_later; truck_t2] truck_t2).
  vm_compute. right; left; reflexivity.
Defined.

Lemma existing_units_come_first_witness :
  (exists added,
     map unit_id
       (merge_unit_details cfg [engine_e1] [engine_e1_later; truck_t2])
     = map unit_id [engine_e1] ++ added
     /\ forall k, In k added ->
                  ~ In k (map unit_id [engine_e1])
                  /\ exists n, In n [engine_e1_later; truck_t2]
                               /\ unit_id n = k)
  /\ merge_unit_details cfg [engine_e1] [] = [engine_e1].
Proof.
  apply (existing_units_come_first cfg [engine_e1]
           [engine_e1_later; truck_t2]).
  simpl. constructor; [intros [] | constructor].
Defined.

Lemma merged_timestamp_is_the_latest_witness :
  exists b,
    clear_time
      (hd engine_e1 (merge_unit_details cfg [engine_e1] [engine_e1_later]))
    = Some b
    /\ (20 <= b)%Z.
Proof.
  apply (merged_timestamp_is_the_latest cfg [engine_e1] [engine_e1_later]
           (Some "E1") engine_e1
           (hd engine_e1
              (merge_unit_details cfg [engine_e1] [engine_e1_later]))
           engine_e1_later clear_time 20%Z).
  - vm_compute; reflexivity.
  - vm_compute. left; reflexivity.
  - vm_compute; reflexivity.
  - left; reflexivity.
  - reflexivity.
  - right; right; reflexivity.
  - reflexivity.
Defined.

Lemma snapshot_units_in_document_order_witness :
  exists all,
    all_units instant no_time_only
      (findall [nw "AssignedUnits"; nw "Unit"]
         (root (snapshot_of utility_primary_call)))
    = Return all
    /\ unit_details (snapshot_of utility_primary_call)
       = filter (type_allowed cfg) all
    /\ primary_unit (snapshot_of utility_primary_call) = last_primary all.
Proof.
  apply (snapshot_units_in_document_order cfg instant no_time_only
           (files [(staged "100_1.xml", Document utility_primary_call)])
           (staged "100_1.xml") (snapshot_of utility_primary_call)).
  vm_compute; reflexivity.
Defined.

Lemma coordinates_come_in_pairs_witness :
  (latitude (snapshot_of located_call) = None
   <-> longitude (snapshot_of located_call) = None)
  /\ (latitude (snapshot_of located_call) = None ->
      location (snapshot_of located_call)
      = findtext [nw "Location"; nw "FullAddress"]
          (root (snapshot_of located_call)))
  /\ (forall lat lon,
        latitude (snapshot_of located_call) = Some lat ->
        longitude (snapshot_of located_call) = Some lon ->
        exists a,
          findtext [nw "Location"; nw "FullAddress"]
            (root (snapshot_of located_call)) = Some a
          /\ coordinate "LAT:" a = Some lat
          /\ coordinate "LON:" a = Some lon).
Proof.
  apply (coordinates_come_in_pairs cfg instant no_time_only
           (files [(staged "100_1.xml", Document located_call)])
           (staged "100_1.xml") (snapshot_of located_call)).
  vm_compute; reflexivity.
Defined.

Lemma kept_snapshot_is_clean_witness :
  Forall (fun u => unit_id u <> None /\ excluded_id cfg glob u = false)
         (unit_details (snapshot_of engine_call))
  /\ (exists noc,
        nature_of_call (snapshot_of engine_call) = Some noc
        /\ in_list (lower noc) (excluded_call_types cfg) = false)
  /\ sget "100" [("100", "Fire")] <> Some "EMS"
  /\ (sget "100" [("100", "Fire")] = Some "Police" ->
      exists u, In u (unit_details (snapshot_of engine_call))
                /\ fire_like u = true).
Proof.
  apply (kept_snapshot_is_clean cfg glob [] "100"
           (snapshot_of engine_call) [("100", "Fire")]).
  vm_compute; reflexivity.
Defined.

Lemma police_drop_has_no_fire_unit_witness :
  sget "200" [("200", "Police")] = Some "Police"
  /\ Forall (fun u => fire_like u = false)
            (unit_details (snapshot_of police_call)).
Proof.
  apply (police_drop_has_no_fire_unit cfg glob [] "200"
           (snapshot_of police_call) [("200", "Police")]).
  vm_compute; reflexivity.
Defined.

Lemma missing_unit_types_table_skips_the_file_witness :
  try_block cfg_without_unit_types glob instant no_time_only 5%Z
    (initial_state []) "100" (snapshot_of engine_call) (staged "100_1.xml")
  = with_primary_units (initial_state [])
      (sset "100"
         (agency_of cfg_without_unit_types (jurisdiction engine_of_call_100))
         (primary_units (initial_state []))).
Proof.
  apply (missing_unit_types_table_skips_the_file cfg_without_unit_types
           glob instant no_time_only 5%Z (initial_state []) "100"
           (snapshot_of engine_call) (staged "100_1.xml")
           {| fire_units_dispatched := true;
              ems_units_dispatched := false;
              police_units_dispatched := false;
              has_excluded_unit := false;
              scan_primary_unit := Some engine_of_call_100 |}
           engine_of_call_100 "Structure Fire").
  - reflexivity.
  - vm_compute; reflexivity.
  - reflexivity.
  - vm_compute; reflexivity.
Defined.

Lemma incomplete_snapshot_is_not_kept_witness :
  location_calls
    (try_block cfg glob instant no_time_only 5%Z after_first_file "101"
       (snapshot_of anonymous_call) (staged "101_1.xml"))
  = location_calls after_first_file
  /\ call_display_times
       (try_block cfg glob instant no_time_only 5%Z after_first_file "101"
          (snapshot_of anonymous_call) (staged "101_1.xml"))
     = call_display_times after_first_file.
Proof.
  apply (incomplete_snapshot_is_not_kept cfg glob instant no_time_only 5%Z
           after_first_file "101" (snapshot_of anonymous_call)
           (staged "101_1.xml")).
  left. vm_compute; reflexivity.
Defined.

Lemma only_staged_files_are_marked_witness :
  In (staged "100_1.xml") [staged "100_1.xml"; staged "100_2.xml"]
  /\ well_named (staged "100_1.xml").
Proof.
  apply (only_staged_files_are_marked cfg glob instant no_time_only
           two_updates 5%Z [] [staged "100_1.xml"; staged "100_2.xml"]
           (calls_of pass_over_two_updates)
           (deleted_of pass_over_two_updates)
           (registry_after pass_over_two_updates)
           (staged "100_1.xml")).
  - vm_compute; reflexivity.
  - vm_compute. left; reflexivity.
Defined.


Lemma returned_calls_are_sorted_witness :
  StronglySorted (fun a b => (call_key b <= call_key a)%Z)
    (calls_of pass_over_two_calls)
  /\ Forall (fun c => exists first rest z,
                        call_numbers (info c) = first :: rest
                        /\ py_int first = Some z /\ call_key c = z)
            (calls_of pass_over_two_calls).
Proof.
  apply (returned_calls_are_sorted cfg glob instant no_time_only
           two_calls 5%Z [] [staged "100_1.xml"; staged "200_1.xml"]
           (calls_of pass_over_two_calls)
           (deleted_of pass_over_two_calls)
           (registry_after pass_over_two_calls)).
  vm_compute; reflexivity.
Defined.



Lemma readable_sweep_removes_what_is_due_witness :
  exists registry' staging',
    sweep (files [(staged "100_1.xml", Document engine_call)])
      (361 * minute)%Z [("100", 0%Z); ("200", minute)]
      ["100_1.xml"; "notes.txt"]
    = (registry', staging', None)
    /\ (forall cn,
          sget cn registry'
          = if in_list cn
                 (to_remove (361 * minute)%Z [("100", 0%Z); ("200", minute)])
            then None
            else sget cn [("100", 0%Z); ("200", minute)])
    /\ forall n,
         In n staging'
         <-> In n ["100_1.xml"; "notes.txt"]
             /\ ~ exists cn,
                    In cn (to_remove (361 * minute)%Z
                             [("100", 0%Z); ("200", minute)])
                    /\ backs cfg instant no_time_only
                         (files [(staged "100_1.xml", Document engine_call)])
                         cn n.
Proof.
  apply (readable_sweep_removes_what_is_due cfg instant no_time_only
           (files [(staged "100_1.xml", Document engine_call)])
           (361 * minute)%Z [("100", 0%Z); ("200", minute)]
           ["100_1.xml"; "notes.txt"]).
  - intros name [<-|[<-|[]]] H.
    + eexists. vm_compute; reflexivity.
    + vm_compute in H. discriminate H.
  - constructor; [intros [H|[]]; discriminate H|].
    constructor; [intros [] | constructor].
Defined.

Lemma sweep_only_removes_witness :
  (forall cn,
      ~ In cn (to_remove (361 * minute)%Z [("100", 0%Z); ("200", minute)]) ->
      sget cn [("200", minute)] = sget cn [("100", 0%Z); ("200", minute)])
  /\ (forall cn,
        sget cn [("200", minute)] = None
        \/ sget cn [("200", minute)]
           = sget cn [("100", 0%Z); ("200", minute)])
  /\ incl ["100_1.xml"; "notes.txt"] ["100_1.xml"; "notes.txt"].
Proof.
  apply (sweep_only_removes cfg instant no_time_only (files [])
           (361 * minute)%Z [("100", 0%Z); ("200", minute)]
           ["100_1.xml"; "notes.txt"]
           [("200", minute)] ["100_1.xml"; "notes.txt"] (Some ValueError)).
  vm_compute; reflexivity.
Defined.

Lemma turn_clears_exports_of_closed_calls_witness :
  staged_file cfg (fst (turn 5%Z [("100", 0%Z)] directory))
    (staged_path cfg "100_1.xml")
  = None.
Proof.
  apply (turn_clears_exports_of_closed_calls cfg glob instant no_time_only
           5%Z [("100", 0%Z)] directory
           (fst (turn 5%Z [("100", 0%Z)] directory))
           (shown_of (turn 5%Z [("100", 0%Z)] directory)) [("200", 5%Z)]
           "100_1.xml" (snapshot_of closed_call) "100").
  - vm_compute; reflexivity.
  - left; reflexivity.
  - reflexivity.
  - vm_compute; discriminate.
  - vm_compute; reflexivity.
  - reflexivity.
  - exists (staged_path cfg "100_1.xml"), (snapshot_of closed_call).
    repeat split; try (vm_compute; reflexivity). left; reflexivity.
Defined.

Lemma turn_only_deletes_witness :
  staged_file cfg directory (staged_path cfg "200_1.xml")
  = Some (Document tanker_call).
Proof.
  apply (turn_only_deletes cfg glob instant no_time_only 5%Z
           [("100", 0%Z)] directory (staged_path cfg "200_1.xml")
           (Document tanker_call)).
  vm_compute; reflexivity.
Defined.
